(** * bloom: the PowerVR renderer's gpulib interface (src/pvr/gpulib_if.c)

    A shallow embedding of the GP0 command interpreter [do_cmd_list] and of
    the helpers it calls, followed by the properties of the interpreter.
    The frame-buffer copy loops of src/platform.c ([copy15], [copy24],
    [rgb_24_to_16]) are embedded after it.

    Conventions.
    - C integers are values of [Z]; every conversion to a fixed width that
      the C code performs (assignment to an [int16_t], a cast to
      [int32_t], ...) is written out with the functions of [CInt].
    - The command buffer [uint32_t *list, int list_len] is a [list Z] of
      32-bit words; [list_len] is its length.
    - The file-scope [static struct pvr_renderer pvr] and the word
      [gpu.ex_regs[1]] are passed in and returned explicitly.
    - A vertex or header written through [pvr_dr_get]/[pvr_dr_put] is an
      entry appended to the list of submitted entries.
    - [x_to_pvr] and [y_to_pvr] multiply an [int] by the external floats
      [screen_fw]/[screen_fh]; the embedding keeps the [int] operand of
      that product and leaves the scaling to the backend. *)

From Stdlib Require Import ZArith List Lia Bool.
From Equations Require Import Equations.
Import ListNotations.

Open Scope Z_scope.

(** ** Fixed-width integers *)

Module CInt.

(** Conversion to [uint32_t]. *)
Definition uint32 (z : Z) : Z := z mod 2 ^ 32.

(** Conversion to [int32_t] (two's complement). *)
Definition int32 (z : Z) : Z := (z + 2 ^ 31) mod 2 ^ 32 - 2 ^ 31.

(** Conversion to [uint16_t]. *)
Definition uint16 (z : Z) : Z := z mod 2 ^ 16.

(** Conversion to [int16_t] (two's complement). *)
Definition int16 (z : Z) : Z := (z + 2 ^ 15) mod 2 ^ 16 - 2 ^ 15.

(** [x << n] on an [int32_t], wrapping. *)
Definition shl32s (x n : Z) : Z := int32 (Z.shiftl x n).

(** [x >> n] on an [int32_t]: arithmetic shift. *)
Definition sar32 (x n : Z) : Z := Z.shiftr x n.

(** [__builtin_bswap32]. *)
Definition bswap32 (w : Z) : Z :=
  Z.lor (Z.shiftl (Z.land w 255) 24)
    (Z.lor (Z.shiftl (Z.land (Z.shiftr w 8) 255) 16)
       (Z.lor (Z.shiftl (Z.land (Z.shiftr w 16) 255) 8)
          (Z.land (Z.shiftr w 24) 255))).

(** C truth value of a comparison. *)
Definition of_bool (b : bool) : Z := if b then 1 else 0.

End CInt.

Import CInt.

(** ** [union PacketBuffer] *)

Module PacketBuffer.

(** Sixteen 32-bit words. *)
Definition t := list Z.

Definition U4 (pb : t) (i : nat) : Z := nth i pb 0.

(** The 16-bit view; the SH-4 is little-endian, so [U2[2k]] is the low
    half of [U4[k]] and [U2[2k+1]] the high half. *)
Definition U2 (pb : t) (i : nat) : Z :=
  let w := U4 pb (Nat.div2 i) in
  if Nat.even i then Z.land w 65535 else Z.land (Z.shiftr w 16) 65535.

(** [for (i = 0; i <= len; i++) pbuffer.U4[i] = list[i];] with [ws] the
    [1 + len] words copied.  The words of [pb] above them stay as they
    were.  The union has 16 words: what would be written past them is
    dropped here (the C behaviour is undefined there). *)
Definition fill (pb : t) (ws : list Z) : t :=
  firstn 16 (ws ++ skipn (length ws) pb).

End PacketBuffer.

Import PacketBuffer.

(** ** Renderer state and submitted entries *)

(** [struct pvr_renderer]. *)
Record pvr_renderer := mk_pvr {
  gp1 : Z;
  draw_x1 : Z;
  draw_y1 : Z;
  draw_x2 : Z;
  draw_y2 : Z;
  draw_dx : Z;
  draw_dy : Z;
  set_mask : Z;
  check_mask : Z
}.

(** The state [renderer_init] leaves in [pvr]. *)
Definition renderer_init : pvr_renderer :=
  mk_pvr 0x14802000 0 0 0 0 0 0 0 0.

(** The two vertex commands of the backend. *)
Inductive vertex_cmd := PVR_CMD_VERTEX | PVR_CMD_VERTEX_EOL.

(** [pvr_vertex_t] as the interpreter fills it: [z] is always [1.0f];
    [vx] and [vy] are the integers that [x_to_pvr]/[y_to_pvr] scale. *)
Record pvr_vertex := mk_vertex {
  flags : vertex_cmd;
  argb : Z;
  vx : Z;
  vy : Z
}.

(** What is committed to the tile accelerator: a polygon header (always
    compiled from the same context: opaque list, depth compare GEQUAL, no
    culling) or a vertex. *)
Inductive ta_entry :=
| TaHdr
| TaVertex (v : pvr_vertex).

(** [x_to_pvr]: the [int] that is scaled by [screen_fw]. *)
Definition x_to_pvr (p : pvr_renderer) (x : Z) : Z := x + draw_dx p - draw_x1 p.

(** [y_to_pvr]: the [int] that is scaled by [screen_fh]. *)
Definition y_to_pvr (p : pvr_renderer) (y : Z) : Z := y + draw_dy p - draw_y1 p.

(** [cmd_clear_image]: the function has no effect; the value is the
    content of its locals [(x0, y0, w0, h0)] when it returns. *)
Definition cmd_clear_image (pb : PacketBuffer.t) : Z * Z * Z * Z :=
  let x0 := Z.land (U2 pb 2) 0x3ff in
  let y0 := Z.land (U2 pb 3) 0x1ff in
  let w0 := Z.land (U2 pb 4 - 1) 0x3ff + 1 in
  let h0 := Z.land (U2 pb 5 - 1) 0x1ff + 1 in
  let x0 := Z.land (x0 + 0xe) 0xf in
  let w0 := Z.land (w0 + 0xe) 0xf in
  (x0, y0, w0, h0).

(** [draw_line]: the six vertices, in submission order. *)
Definition draw_line (p : pvr_renderer)
    (x0 y0 color0 x1 y1 color1 : Z) : list pvr_vertex :=
  let up := of_bool (y1 <? y0) in
  let nup := of_bool (up =? 0) in
  let xcoords := [x0; x0; int16 (x0 + 1); x1; int16 (x1 + 1); int16 (x1 + 1)] in
  let ycoords := [int16 (y0 + up); int16 (y0 + nup); int16 (y0 + up);
                  int16 (y1 + nup); int16 (y1 + up); int16 (y1 + nup)] in
  map (fun i : nat =>
         {| flags := if (i =? 5)%nat then PVR_CMD_VERTEX_EOL else PVR_CMD_VERTEX;
            argb := if (i <? 3)%nat then color0 else color1;
            vx := x_to_pvr p (nth i xcoords 0);
            vy := y_to_pvr p (nth i ycoords 0) |})
      (seq 0 6).

(** BGR->RGB swap of a colour word: [__builtin_bswap32(w) >> 8]. *)
Definition bgr_to_rgb (w : Z) : Z := Z.shiftr (bswap32 w) 8.

(** The vertex loop of the polygon case, [k] iterations left, [i] the loop
    counter, [buf] the index in [pbuffer.U4] that the pointer [buf] has
    reached, [color] the current colour. *)
Fixpoint poly_vertices (p : pvr_renderer) (pb : PacketBuffer.t)
    (multicolor : bool) (nb : nat) (k i buf : nat) (color : Z) : list pvr_vertex :=
  match k with
  | O => []
  | S k' =>
      let fetch := (i =? 0)%nat || multicolor in
      let color := if fetch then bgr_to_rgb (U4 pb buf) else color in
      let buf := if fetch then S buf else buf in
      let val := U4 pb buf in
      let x := int16 val in
      let y := int16 (Z.shiftr val 16) in
      {| flags := if (i =? nb - 1)%nat then PVR_CMD_VERTEX_EOL else PVR_CMD_VERTEX;
         argb := color;
         vx := x_to_pvr p x;
         vy := y_to_pvr p y |}
      :: poly_vertices p pb multicolor nb k' (S i) (S buf) color
  end.

(** Cases 0x20, 0x28, 0x30, 0x38: header, then [nb] vertices. *)
Definition draw_poly (p : pvr_renderer) (pb : PacketBuffer.t) (cmd : Z) : list ta_entry :=
  let multicolor := negb (Z.land cmd 0x10 =? 0) in
  let poly4 := negb (Z.land cmd 0x8 =? 0) in
  let nb := (3 + (if poly4 then 1 else 0))%nat in
  TaHdr :: map TaVertex (poly_vertices p pb multicolor nb nb 0 0 0).

(** The segment loop of the line case, [k] iterations left. *)
Fixpoint line_segments (p : pvr_renderer) (pb : PacketBuffer.t)
    (multicolor : bool) (k buf : nat) (oldx oldy oldcolor color : Z) : list pvr_vertex :=
  match k with
  | O => []
  | S k' =>
      let color := if multicolor then bgr_to_rgb (U4 pb buf) else color in
      let buf := if multicolor then S buf else buf in
      let val := U4 pb buf in
      let x := int16 val in
      let y := int16 (Z.shiftr val 16) in
      (if oldx >? x
       then draw_line p x y color oldx oldy oldcolor
       else draw_line p oldx oldy oldcolor x y color)
      ++ line_segments p pb multicolor k' (S buf) x y color color
  end.

(** Cases 0x40, 0x50: header, then the segments of a [nb = 2] point line. *)
Definition draw_lines (p : pvr_renderer) (pb : PacketBuffer.t) (cmd : Z) : list ta_entry :=
  let multicolor := negb (Z.land cmd 0x10 =? 0) in
  let nb := 2%nat in
  let color := bgr_to_rgb (U4 pb 0) in
  let val := U4 pb 1 in
  let oldx := int16 val in
  let oldy := int16 (Z.shiftr val 16) in
  TaHdr :: map TaVertex
             (line_segments p pb multicolor (nb - 1) 2 oldx oldy color color).

(** Case 0x60: header, then the four corners. *)
Definition draw_rect (p : pvr_renderer) (pb : PacketBuffer.t) : list ta_entry :=
  let color := bgr_to_rgb (U4 pb 0) in
  let x0 := int16 (U4 pb 1) in
  let y0 := int16 (Z.shiftr (U4 pb 1) 16) in
  let x1 := int16 (x0 + int16 (U4 pb 2)) in
  let y1 := int16 (y0 + int16 (Z.shiftr (U4 pb 2) 16)) in
  TaHdr :: map TaVertex
             (map (fun i : nat =>
                     {| flags := if (i =? 3)%nat then PVR_CMD_VERTEX_EOL else PVR_CMD_VERTEX;
                        argb := color;
                        vx := x_to_pvr p (if Nat.odd i then x1 else x0);
                        vy := y_to_pvr p (if Nat.odd (Nat.div2 i) then y1 else y0) |})
                  (seq 0 4)).

#[global] Arguments Z.shiftr : simpl never.
#[global] Arguments Z.shiftl : simpl never.
#[global] Arguments uint32 : simpl never.
#[global] Arguments int32 : simpl never.
#[global] Arguments uint16 : simpl never.
#[global] Arguments int16 : simpl never.
#[global] Arguments shl32s : simpl never.
#[global] Arguments sar32 : simpl never.
#[global] Arguments bswap32 : simpl never.
#[global] Arguments bgr_to_rgb : simpl never.
#[global] Arguments U4 : simpl never.
#[global] Arguments U2 : simpl never.
#[global] Arguments PacketBuffer.fill : simpl never.
#[global] Arguments x_to_pvr : simpl never.
#[global] Arguments y_to_pvr : simpl never.
#[global] Arguments draw_poly : simpl never.
#[global] Arguments draw_lines : simpl never.
#[global] Arguments draw_rect : simpl never.

(** ** The interpreter loop *)

(** What one iteration of the loop of [do_cmd_list] reads and writes: the
    global [pvr], the entries submitted so far, the locals
    [cpu_cycles_sum] and [cpu_cycles], and the local [pbuffer], which is
    declared outside the loop and keeps its content between iterations. *)
Record locals := mk_locals {
  l_pvr : pvr_renderer;
  l_ta : list ta_entry;
  cpu_cycles_sum : Z;
  cpu_cycles : Z;
  pbuffer : PacketBuffer.t
}.

Definition set_pvr (ls : locals) (p : pvr_renderer) : locals :=
  mk_locals p (l_ta ls) (cpu_cycles_sum ls) (cpu_cycles ls) (pbuffer ls).

Definition submit (ls : locals) (es : list ta_entry) : locals :=
  mk_locals (l_pvr ls) (l_ta ls ++ es) (cpu_cycles_sum ls) (cpu_cycles ls) (pbuffer ls).

Definition set_cycles (ls : locals) (sc : Z * Z) : locals :=
  mk_locals (l_pvr ls) (l_ta ls) (fst sc) (snd sc) (pbuffer ls).

Definition load_packet (ls : locals) (ws : list Z) : locals :=
  mk_locals (l_pvr ls) (l_ta ls) (cpu_cycles_sum ls) (cpu_cycles ls)
            (PacketBuffer.fill (pbuffer ls) ws).

(** What [do_cmd_list] leaves behind: the globals, the three [int]s behind
    its pointer arguments, and its return value. *)
Record outcome := mk_outcome {
  o_pvr : pvr_renderer;
  o_ex_regs1 : Z;
  o_ta : list ta_entry;
  o_cycles_sum_out : Z;
  o_cycles_last : Z;
  o_last_cmd : Z;
  o_ret : Z
}.

Section Interpreter.

(** gpulib's table of operand counts, indexed by opcode
    ([cmd_lengths[256]], declared in gpulib/gpu.h). *)
Variable cmd_lengths : Z -> nat.

(** gpulib's timing macros (gpulib/gpu_timing.h): [gput_fill w h] is the
    value of the macro, [gput_sum sum cnt new_cycles] the values of its
    first two arguments after it ran. *)
Variable gput_fill : Z -> Z -> Z.
Variable gput_sum : Z -> Z -> Z -> Z * Z.

(** The [switch (cmd)] of [do_cmd_list]. With [DEBUG 0] the cases that
    only call [pvr_printf], the VRAM access cases, the NOP and the
    default are empty. *)
Definition dispatch (cmd : Z) (ls : locals) : locals :=
  let pb := pbuffer ls in
  let p := l_pvr ls in
  if cmd =? 0x02 then
    let '(_, _, _, _) := cmd_clear_image pb in
    set_cycles ls
      (gput_sum (cpu_cycles_sum ls) (cpu_cycles ls)
         (gput_fill (Z.land (U2 pb 4) 0x3ff) (Z.land (U2 pb 5) 0x1ff)))
  else if cmd =? 0xe1 then
    set_pvr ls
      (mk_pvr (uint32 (Z.lor (Z.land (gp1 p) (Z.lnot 0x7ff)) (Z.land (U4 pb 0) 0x7ff)))
              (draw_x1 p) (draw_y1 p) (draw_x2 p) (draw_y2 p)
              (draw_dx p) (draw_dy p) (set_mask p) (check_mask p))
  else if cmd =? 0xe3 then
    set_pvr ls
      (mk_pvr (gp1 p)
              (uint16 (Z.land (U4 pb 0) 0x3ff))
              (uint16 (Z.land (Z.shiftr (U4 pb 0) 10) 0x1ff))
              (draw_x2 p) (draw_y2 p)
              (draw_dx p) (draw_dy p) (set_mask p) (check_mask p))
  else if cmd =? 0xe4 then
    set_pvr ls
      (mk_pvr (gp1 p) (draw_x1 p) (draw_y1 p)
              (uint16 (Z.land (U4 pb 0) 0x3ff))
              (uint16 (Z.land (Z.shiftr (U4 pb 0) 10) 0x1ff))
              (draw_dx p) (draw_dy p) (set_mask p) (check_mask p))
  else if cmd =? 0xe5 then
    set_pvr ls
      (mk_pvr (gp1 p) (draw_x1 p) (draw_y1 p) (draw_x2 p) (draw_y2 p)
              (int16 (sar32 (shl32s (int32 (U4 pb 0)) 21) 21))
              (int16 (sar32 (shl32s (int32 (U4 pb 0)) 10) 21))
              (set_mask p) (check_mask p))
  else if cmd =? 0xe6 then
    set_pvr ls
      (mk_pvr (gp1 p) (draw_x1 p) (draw_y1 p) (draw_x2 p) (draw_y2 p)
              (draw_dx p) (draw_dy p)
              (Z.land (U4 pb 0) 0x1 mod 2)
              (Z.shiftr (Z.land (U4 pb 0) 0x2) 1 mod 2))
  else if (cmd =? 0x20) || (cmd =? 0x28) || (cmd =? 0x30) || (cmd =? 0x38) then
    submit ls (draw_poly p pb cmd)
  else if (cmd =? 0x40) || (cmd =? 0x50) then
    submit ls (draw_lines p pb cmd)
  else if cmd =? 0x60 then
    submit ls (draw_rect p pb)
  else
    ls.

(** The body of the loop for a command that is wholly in the buffer:
    copy its [1 + len] words [ws] to [pbuffer], then dispatch. *)
Definition do_cmd (ls : locals) (ws : list Z) : locals :=
  dispatch (Z.shiftr (hd 0 ws) 24) (load_packet ls ws).

(** The loop of [do_cmd_list]. [buf] is what lies between [list] and
    [list_end], [off] is [list - list_start], [cmd] the variable [cmd].
    The value is the state at the exit of the loop. *)
Equations? cmd_loop (buf : list Z) (ls : locals) (off : nat) (cmd : Z)
  : locals * nat * Z by wf (length buf) lt :=
  cmd_loop [] ls off cmd := (ls, off, cmd);
  cmd_loop (w :: rest) ls off _ :=
    if (length rest <? cmd_lengths (Z.shiftr w 24))%nat
    then (ls, off, uint32 (-1))
    else cmd_loop (skipn (cmd_lengths (Z.shiftr w 24)) rest)
                  (do_cmd ls (w :: firstn (cmd_lengths (Z.shiftr w 24)) rest))
                  (off + (1 + cmd_lengths (Z.shiftr w 24)))
                  (Z.shiftr w 24).
Proof.
  rewrite length_skipn. simpl. lia.
Qed.

(** [do_cmd_list]. [pb0] is the content of the uninitialised local
    [pbuffer] at entry. *)
Definition do_cmd_list (p : pvr_renderer) (ex_regs1 : Z) (ta : list ta_entry)
    (pb0 : PacketBuffer.t) (buf : list Z)
    (cycles_sum_out cycles_last : Z) : outcome :=
  let '(ls, off, cmd) := cmd_loop buf (mk_locals p ta 0 cycles_last pb0) 0 0 in
  let ex := uint32 (Z.land ex_regs1 (Z.lnot 0x1ff)) in
  let ex := uint32 (Z.lor ex (Z.land (gp1 (l_pvr ls)) 0x1ff)) in
  {| o_pvr := l_pvr ls;
     o_ex_regs1 := ex;
     o_ta := l_ta ls;
     o_cycles_sum_out := int32 (cycles_sum_out + cpu_cycles_sum ls);
     o_cycles_last := cpu_cycles ls;
     o_last_cmd := int32 cmd;
     o_ret := Z.of_nat off |}.

End Interpreter.

(** ** Vocabulary of the properties *)

Section Vocabulary.

Variable cmd_lengths : Z -> nat.
Variable gput_fill : Z -> Z -> Z.
Variable gput_sum : Z -> Z -> Z -> Z * Z.

(** The opcode of a command: the top byte of its first word. *)
Definition opcode (c : list Z) : Z := Z.shiftr (hd 0 c) 24.

(** [c] is one fully-formed command: an opcode word followed by exactly
    the number of operand words the table gives for the opcode. *)
Definition is_cmd (c : list Z) : bool :=
  match c with
  | [] => false
  | w :: ws => (length ws =? cmd_lengths (Z.shiftr w 24))%nat
  end.

(** [c] is the beginning of a command whose operands are not all there. *)
Definition is_truncated (c : list Z) : bool :=
  match c with
  | [] => false
  | w :: ws => (length ws <? cmd_lengths (Z.shiftr w 24))%nat
  end.

(** The opcode of the last command of [cmds], [cmd0] when there is none. *)
Definition last_opcode (cmds : list (list Z)) (cmd0 : Z) : Z :=
  fold_left (fun _ c => opcode c) cmds cmd0.

(** Words taken by the commands [cmds]: the sum of [1 + length]. *)
Definition words_of (cmds : list (list Z)) : nat :=
  list_sum (map (fun c => 1 + cmd_lengths (opcode c))%nat cmds).

(** The locals at entry of [do_cmd_list]. *)
Definition entry (p : pvr_renderer) (ta : list ta_entry)
    (pb0 : PacketBuffer.t) (cycles_last : Z) : locals :=
  mk_locals p ta 0 cycles_last pb0.

(** The number of leading words of [pbuffer] that the case of the switch
    for [cmd] reads. *)
Definition operands_read (cmd : Z) : nat :=
  if cmd =? 0x02 then 3
  else if (cmd =? 0xe1) || (cmd =? 0xe3) || (cmd =? 0xe4)
          || (cmd =? 0xe5) || (cmd =? 0xe6) then 1
  else if cmd =? 0x20 then 4
  else if cmd =? 0x28 then 5
  else if cmd =? 0x30 then 6
  else if cmd =? 0x38 then 8
  else if cmd =? 0x40 then 3
  else if cmd =? 0x50 then 4
  else if cmd =? 0x60 then 3
  else 0.

(** The table gives every opcode at least the operands its case reads, so
    that no case looks at words left in [pbuffer] by an earlier command. *)
Definition table_covers : Prop :=
  forall cmd, (operands_read cmd <= 1 + cmd_lengths cmd)%nat.

(** [gput_sum] adds the carry to the sum, and the new carry does not depend
    on the sum. *)
Definition gput_sum_carries : Prop :=
  forall s c n, gput_sum s c n = (int32 (s + c), snd (gput_sum 0 c n)).

(** Two states of the locals that differ in the stale part of [pbuffer]
    and by [d] in the running sum (modulo 2^32). *)
Definition same_visible (d : Z) (a b : locals) : Prop :=
  l_pvr a = l_pvr b
  /\ l_ta a = l_ta b
  /\ cpu_cycles a = cpu_cycles b
  /\ int32 (cpu_cycles_sum a) = int32 (d + cpu_cycles_sum b).

(** The two statements that copy the texture page bits to [gpu.ex_regs[1]]. *)
Definition status_writeback (ex g : Z) : Z :=
  uint32 (Z.lor (uint32 (Z.land ex (Z.lnot 0x1ff))) (Z.land g 0x1ff)).

(** The width and height fields of a fill-rectangle command: the two
    halves of its third word. *)
Definition fill_width (c : list Z) : Z := Z.land (nth 2 c 0) 65535.
Definition fill_height (c : list Z) : Z := Z.land (Z.shiftr (nth 2 c 0) 16) 65535.

(** The estimate recorded for the fill-rectangle command [c]. *)
Definition fill_cost (c : list Z) : Z :=
  gput_fill (Z.land (fill_width c) 0x3ff) (Z.land (fill_height c) 0x1ff).

(** What the command [c] does to the pair [(cpu_cycles_sum, cpu_cycles)]. *)
Definition count_cycles (sc : Z * Z) (c : list Z) : Z * Z :=
  if opcode c =? 0x02 then gput_sum (fst sc) (snd sc) (fill_cost c) else sc.

(** The command word that sets the drawing offset to [(dx, dy)]: opcode
    0xe5 in the top byte, [dy] in bits 11-21 and [dx] in bits 0-10, each
    in 11-bit two's complement. *)
Definition encode_offset (dx dy : Z) : Z :=
  Z.lor (Z.shiftl 0xe5 24)
    (Z.lor (Z.shiftl (Z.land dy 0x7ff) 11) (Z.land dx 0x7ff)).

(** The opcodes whose case submits vertices. *)
Definition draws (cmd : Z) : bool :=
  (cmd =? 0x20) || (cmd =? 0x28) || (cmd =? 0x30) || (cmd =? 0x38)
  || (cmd =? 0x40) || (cmd =? 0x50) || (cmd =? 0x60).

(** The words of the packet that hold a colour, by drawing opcode: the
    first word, and for the shaded variants the word before each further
    vertex. *)
Definition color_words (cmd : Z) : list nat :=
  if cmd =? 0x30 then [0; 2; 4]%nat
  else if cmd =? 0x38 then [0; 2; 4; 6]%nat
  else if cmd =? 0x50 then [0; 2]%nat
  else [0]%nat.

(** Rounding to 16-pixel blocks as the protocol description words it:
    [(v + 14) & ~15]. *)
Definition spec_round16 (v : Z) : Z := Z.land (v + 14) (Z.lnot 15).

End Vocabulary.

(** ** gpulib's table and macros *)

Module Gpulib.

(** Modelled from the spec: the static 256-entry operand-length table
    [cmd_lengths] is defined in gpulib, outside these sources. The spec
    calls it part of the protocol; these are the protocol's operand
    counts as gpulib lists them, sixteen opcodes a row. *)
Definition cmd_lengths_table : list nat :=
  [ 0; 0; 2; 0; 0; 0; 0; 0; 0; 0; 0; 0; 0; 0; 0; 0;
    0; 0; 0; 0; 0; 0; 0; 0; 0; 0; 0; 0; 0; 0; 0; 0;
    3; 3; 3; 3; 6; 6; 6; 6; 4; 4; 4; 4; 8; 8; 8; 8;
    5; 5; 5; 5; 8; 8; 8; 8; 7; 7; 7; 7; 11; 11; 11; 11;
    2; 2; 2; 2; 2; 2; 2; 2; 3; 3; 3; 3; 3; 3; 3; 3;
    3; 3; 3; 3; 3; 3; 3; 3; 4; 4; 4; 4; 4; 4; 4; 4;
    2; 2; 2; 2; 3; 3; 3; 3; 1; 1; 1; 1; 0; 0; 0; 0;
    1; 1; 1; 1; 2; 2; 2; 2; 1; 1; 1; 1; 2; 2; 2; 2;
    3; 3; 3; 3; 3; 3; 3; 3; 3; 3; 3; 3; 3; 3; 3; 3;
    3; 3; 3; 3; 3; 3; 3; 3; 3; 3; 3; 3; 3; 3; 3; 3;
    2; 2; 2; 2; 2; 2; 2; 2; 2; 2; 2; 2; 2; 2; 2; 2;
    2; 2; 2; 2; 2; 2; 2; 2; 2; 2; 2; 2; 2; 2; 2; 2;
    2; 2; 2; 2; 2; 2; 2; 2; 2; 2; 2; 2; 2; 2; 2; 2;
    2; 2; 2; 2; 2; 2; 2; 2; 2; 2; 2; 2; 2; 2; 2; 2;
    0; 0; 0; 0; 0; 0; 0; 0; 0; 0; 0; 0; 0; 0; 0; 0;
    0; 0; 0; 0; 0; 0; 0; 0; 0; 0; 0; 0; 0; 0; 0; 0 ]%nat.

Definition cmd_lengths (cmd : Z) : nat :=
  nth (Z.to_nat cmd) cmd_lengths_table 0%nat.

(** Modelled from the spec: [gput_fill], the cost of a fill as a function
    of the area touched, is a macro of gpulib's gpu_timing.h, outside
    these sources: [23 + (4 + w / 16u) * h], computed on [unsigned]. *)
Definition gput_fill (w h : Z) : Z :=
  uint32 (23 + (4 + uint32 w / 16) * uint32 h).

(** Modelled from the spec: [gput_sum(sum, cnt, new_cycles)], a macro of
    gpulib's gpu_timing.h, outside these sources:
    [sum += cnt; cnt = new_cycles;] on two [int]s. The cost of a command
    waits in the carry [cnt] and reaches [sum] when the next cost is
    recorded. *)
Definition gput_sum (sum cnt new_cycles : Z) : Z * Z :=
  (int32 (sum + cnt), int32 new_cycles).

Definition run := do_cmd_list cmd_lengths gput_fill gput_sum.

End Gpulib.

(** ** Sample buffers *)

Module Sample.

(** A content of [pbuffer] at entry, and another one. *)
Definition pbuffer0 : PacketBuffer.t := repeat 0 16.
Definition stale : PacketBuffer.t := repeat 0xdeadbeef 16.

(** E1: set texture page, bit 10 set. *)
Definition set_texpage : list Z := [0xe1000400].

(** 02: fill, x = 32, y = 0, width 3, height 1. *)
Definition fill : list Z := [0x02000000; 0x00000020; 0x00010003].

(** 40: flat line from (0,0) to (10,0), in two pieces and whole. *)
Definition line_head : list Z := [0x40112233; 0x00000000].
Definition line_tail : list Z := [0x0000000a].
Definition line : list Z := line_head ++ line_tail.

(** 20: flat triangle (0,0), (10,0), (0,10). *)
Definition triangle : list Z := [0x20112233; 0x00000000; 0x0000000a; 0x000a0000].

(** 30: shaded triangle with three colours. *)
Definition shaded_triangle : list Z :=
  [0x30112233; 0x00000000; 0x00445566; 0x0000000a; 0x00778899; 0x000a0000].

(** 60: rectangle at (1,2) of size 3x4. *)
Definition rectangle : list Z := [0x60112233; 0x00020001; 0x00040003].

(** 00: no operation, and FF, which no case of the switch names. *)
Definition nop : list Z := [0x00000000].
Definition unknown : list Z := [0xff000000].

(** The locals after [ws] was copied to the packet buffer, from the
    state of [renderer_init]. *)
Definition loaded (ws : list Z) : locals :=
  load_packet (entry renderer_init [] pbuffer0 0) ws.

End Sample.

(** ** [renderer_sync_ecmds] *)

Section Sync.

Variable cmd_lengths : Z -> nat.
Variable gput_fill : Z -> Z -> Z.
Variable gput_sum : Z -> Z -> Z -> Z * Z.

(** [renderer_sync_ecmds]: [do_cmd_list] on the six words [ecmds[1]] to
    [ecmds[6]].  The three pointer arguments all point to the
    uninitialised local [dummy], which is dropped at return: what is left
    is [pvr], [gpu.ex_regs[1]] and the submitted entries.  [ecmds] must
    have the seven words read. *)
Definition renderer_sync_ecmds (p : pvr_renderer) (ex_regs1 : Z)
    (ta : list ta_entry) (pb0 : PacketBuffer.t) (dummy : Z) (ecmds : list Z)
    : pvr_renderer * Z * list ta_entry :=
  let r := do_cmd_list cmd_lengths gput_fill gput_sum p ex_regs1 ta pb0
             (firstn 6 (skipn 1 ecmds)) dummy dummy in
  (o_pvr r, o_ex_regs1 r, o_ta r).

End Sync.

(** ** platform.c: conversion of the PSX frame buffer *)

(** Conversion to [uint8_t]. *)
Definition uint8 (z : Z) : Z := z mod 2 ^ 8.

(** The body of the inner loop of [copy15]: two BGR555 pixels in one word
    to two RGB555 pixels. *)
Definition copy15_pixels (pixels : Z) : Z :=
  let b := Z.land (Z.shiftr pixels 10) 0x001f001f in
  let g := Z.land pixels 0x03e003e0 in
  let r := uint32 (Z.shiftl (Z.land pixels 0x001f001f) 10) in
  Z.lor (Z.lor r g) b.

(** [rgb_24_to_16], on arguments already converted to [uint8_t]. *)
Definition rgb_24_to_16 (r g b : Z) : Z :=
  uint16 (Z.lor (Z.lor (Z.shiftl (Z.land r 0xf8) 8) (Z.shiftl (Z.land g 0xfc) 3))
            (Z.shiftr b 3)).

(** One iteration of the inner loop of [copy24]: three words, twelve
    bytes, to the two words [line[i]] and [line[i + 1]]. *)
Definition copy24_group (w0 w1 w2 : Z) : Z * Z :=
  let px0 := rgb_24_to_16 (uint8 w0) (uint8 (Z.shiftr w0 8)) (uint8 (Z.shiftr w0 16)) in
  let px1 := rgb_24_to_16 (uint8 (Z.shiftr w0 24)) (uint8 w1) (uint8 (Z.shiftr w1 8)) in
  let l0 := uint32 (Z.lor (Z.shiftl px1 16) px0) in
  let px0 := rgb_24_to_16 (uint8 (Z.shiftr w1 16)) (uint8 (Z.shiftr w1 24)) (uint8 w2) in
  let px1 := rgb_24_to_16 (uint8 (Z.shiftr w2 8)) (uint8 (Z.shiftr w2 16))
               (uint8 (Z.shiftr w2 24)) in
  let l1 := uint32 (Z.lor (Z.shiftl px1 16) px0) in
  (l0, l1).

(** Memory is seen in 32-bit words: [vram32 k] is the word [vram32[k]] of
    the source, and a write is a pair of a word offset from [pvram_sq]
    and the word stored there.  The eight words written through the store
    queue at [line] and flushed by [sq_flush] are eight writes. *)

(** The [for (i = 0; i < 8; i++)] loop of [copy15], reading at word [src]
    and writing at word [line]. *)
Definition copy15_block (vram32 : Z -> Z) (src line : Z) : list (Z * Z) :=
  map (fun i : nat => (line + Z.of_nat i, copy15_pixels (vram32 (src + Z.of_nat i))))
      (seq 0 8).

(** The [for (i = 0; i < 8; i += 2)] loop of [copy24]: four groups. *)
Definition copy24_block (vram32 : Z -> Z) (src line : Z) : list (Z * Z) :=
  flat_map (fun g : nat =>
              let s := src + 3 * Z.of_nat g in
              let '(l0, l1) := copy24_group (vram32 s) (vram32 (s + 1)) (vram32 (s + 2)) in
              [(line + 2 * Z.of_nat g, l0); (line + 2 * Z.of_nat g + 1, l1)])
           (seq 0 4).

(** The [for (x = 0; x < w; x += 16)] loop, common to both functions:
    [n] iterations left, each running the inner loop [block], which reads
    [nread] words, and advancing [line] by 8.  The value is the writes
    and the source index reached. *)
Fixpoint sq_row (block : Z -> Z -> list (Z * Z)) (nread : Z) (n : nat)
    (src line : Z) : list (Z * Z) * Z :=
  match n with
  | O => ([], src)
  | S n' =>
      let '(ws, src') := sq_row block nread n' (src + nread) (line + 8) in
      (block src line ++ ws, src')
  end.

(** The [for (y = 0; y < h; y++)] loop, common to both functions: after
    each row the source advances by [skip] more words and [dest] by
    [TEX_WIDTH / 2 = 512] words. *)
Fixpoint sq_rows (block : Z -> Z -> list (Z * Z)) (nread : Z) (nblocks : nat)
    (skip : Z) (rows : nat) (src dest : Z) : list (Z * Z) :=
  match rows with
  | O => []
  | S r =>
      let '(ws, src') := sq_row block nread nblocks src dest in
      ws ++ sq_rows block nread nblocks skip r (src' + skip) (dest + 512)
  end.

(** Iterations of [for (x = 0; x < w; x += 16)], [x] unsigned: the width
    rounded up to a multiple of 16, in blocks.  (For the fifteen values of
    [w] from -15 to -1 [x] wraps before reaching [w] and the C loop does
    not end; the count is not meant for them.) *)
Definition blocks16 (w : Z) : nat := Z.to_nat ((uint32 w + 15) / 16).

(** [copy15]: the writes, in order. *)
Definition copy15 (vram32 : Z -> Z) (stride w h : Z) : list (Z * Z) :=
  sq_rows (copy15_block vram32) 8 (blocks16 w)
          (Z.quot (int32 (stride - w)) 2) (Z.to_nat (uint32 h)) 0 0.

(** [copy24]: the writes, in order. *)
Definition copy24 (vram32 : Z -> Z) (stride w h : Z) : list (Z * Z) :=
  sq_rows (copy24_block vram32) 12 (blocks16 w)
          (Z.quot (int32 (stride * 2 - w * 3)) 4) (Z.to_nat (uint32 h)) 0 0.

(** ** Vocabulary of the further properties *)

(** A word of the buffer is a [uint32_t]. *)
Definition is_u32 (w : Z) : Prop := 0 <= w < 2 ^ 32.

(** The entries form complete runs: each header is followed by vertices
    up to and including one with the end-of-list flag, and no vertex
    stands outside a run.  [open] tells whether a run is under way. *)
Fixpoint ta_runs (open : bool) (es : list ta_entry) : bool :=
  match es with
  | [] => negb open
  | TaHdr :: t => negb open && ta_runs true t
  | TaVertex v :: t =>
      open && ta_runs (match flags v with
                       | PVR_CMD_VERTEX_EOL => false
                       | PVR_CMD_VERTEX => true
                       end) t
  end.

(** Entries submitted by the case of an opcode: the header and the
    vertices. *)
Definition entries_of (cmd : Z) : nat :=
  if (cmd =? 0x20) || (cmd =? 0x30) then 4
  else if (cmd =? 0x28) || (cmd =? 0x38) then 5
  else if (cmd =? 0x40) || (cmd =? 0x50) then 7
  else if cmd =? 0x60 then 5
  else 0.

(** Every field of the state is within the range of its hardware field. *)
Definition pvr_in_range (p : pvr_renderer) : Prop :=
  0 <= gp1 p < 2 ^ 32
  /\ 0 <= draw_x1 p < 1024 /\ 0 <= draw_y1 p < 512
  /\ 0 <= draw_x2 p < 1024 /\ 0 <= draw_y2 p < 512
  /\ -1024 <= draw_dx p <= 1023 /\ -1024 <= draw_dy p <= 1023
  /\ 0 <= set_mask p <= 1 /\ 0 <= check_mask p <= 1.

(** The state with the drawing offset moved by [(a, b)]. *)
Definition move_offset (p : pvr_renderer) (a b : Z) : pvr_renderer :=
  mk_pvr (gp1 p) (draw_x1 p) (draw_y1 p) (draw_x2 p) (draw_y2 p)
         (draw_dx p + a) (draw_dy p + b) (set_mask p) (check_mask p).

(** An entry moved by [(a, b)]. *)
Definition translate (a b : Z) (e : ta_entry) : ta_entry :=
  match e with
  | TaHdr => TaHdr
  | TaVertex v => TaVertex (mk_vertex (flags v) (argb v) (vx v + a) (vy v + b))
  end.

(** Byte [k] of a 32-bit word, little-endian. *)
Definition byte_of (w : Z) (k : Z) : Z := Z.land (Z.shiftr w (8 * k)) 255.

#[global] Arguments copy15_pixels : simpl never.
#[global] Arguments rgb_24_to_16 : simpl never.
#[global] Arguments copy24_group : simpl never.
#[global] Arguments uint8 : simpl never.

(** * Properties *)

(** ** Fixed-width arithmetic and packet words *)

Lemma int32_small z : - 2 ^ 31 <= z < 2 ^ 31 -> int32 z = z.
Proof.
  intros H. unfold int32.
  rewrite Z.mod_small by lia. lia.
Qed.

(** Wrapping commutes with addition, on the left and on the right. *)
Lemma int32_add_l a b : int32 (int32 a + b) = int32 (a + b).
Proof.
  unfold int32.
  replace ((a + 2 ^ 31) mod 2 ^ 32 - 2 ^ 31 + b + 2 ^ 31)
    with ((a + 2 ^ 31) mod 2 ^ 32 + b) by lia.
  rewrite Z.add_mod_idemp_l by lia.
  f_equal. f_equal. lia.
Qed.

(** A wrapped value is in the range of [int]. *)
Lemma int32_range a : - 2 ^ 31 <= int32 a < 2 ^ 31.
Proof.
  unfold int32.
  pose proof (Z.mod_pos_bound (a + 2 ^ 31) (2 ^ 32) ltac:(lia)). lia.
Qed.

Lemma int32_idem a : int32 (int32 a) = int32 a.
Proof.
  apply int32_small, int32_range.
Qed.

Lemma int32_add_r a b : int32 (a + int32 b) = int32 (a + b).
Proof.
  rewrite (Z.add_comm a (int32 b)), int32_add_l, (Z.add_comm b a). reflexivity.
Qed.

(** A word of the packet buffer below the number copied, and below 16, is
    the word copied there. *)
Lemma U4_fill pb ws i :
  (i < length ws)%nat -> (i < 16)%nat -> U4 (PacketBuffer.fill pb ws) i = nth i ws 0.
Proof.
  intros Hi H16. unfold U4, PacketBuffer.fill.
  rewrite nth_firstn.
  replace (i <? 16)%nat with true by (symmetry; apply Nat.ltb_lt; exact H16).
  apply app_nth1. exact Hi.
Qed.

(** A halfword depends on the word it lies in only. *)
Lemma U2_ext pb1 pb2 i :
  U4 pb1 (Nat.div2 i) = U4 pb2 (Nat.div2 i) -> U2 pb1 i = U2 pb2 i.
Proof.
  intros H. unfold U2. rewrite H. reflexivity.
Qed.

(** No case reads more than eight words. *)
Lemma operands_read_le8 cmd : (operands_read cmd <= 8)%nat.
Proof.
  unfold operands_read.
  repeat match goal with |- context [if ?b then _ else _] => destruct b end; lia.
Qed.

(** Copying a packet changes the packet buffer only. *)
Lemma load_packet_visible d a b ws :
  same_visible d a b -> same_visible d (load_packet a ws) (load_packet b ws).
Proof.
  unfold same_visible. simpl. tauto.
Qed.

(** Bit-by-bit equality of words built with masks of 9 and 11 ones. *)
Ltac bitwise :=
  apply Z.bits_inj'; intros i Hi;
  unfold status_writeback, uint32;
  change 0x1ff with (Z.ones 9); change 0x7ff with (Z.ones 11);
  rewrite <- ?Z.land_ones by lia;
  repeat first [ rewrite Z.land_spec | rewrite Z.lor_spec
               | rewrite Z.lnot_spec by lia
               | rewrite Z.testbit_ones_nonneg by lia ].

(** Writing the status bits back twice keeps the second write only. *)
Lemma status_writeback_twice ex g1 g2 :
  status_writeback (status_writeback ex g1) g2 = status_writeback ex g2.
Proof.
  bitwise.
  destruct (i <? 9) eqn:E9, (i <? 32) eqn:E32,
    (Z.testbit ex i), (Z.testbit g1 i), (Z.testbit g2 i); reflexivity.
Qed.

(** Or-ing a value below [2^n] under a value shifted by [n] adds them. *)
Lemma lor_shiftl_low a b n :
  0 <= n -> 0 <= b < 2 ^ n -> Z.lor (Z.shiftl a n) b = a * 2 ^ n + b.
Proof.
  intros Hn Hb.
  rewrite <- Z.shiftl_mul_pow2, <- Z.add_lor_land by lia.
  assert (E : Z.land (Z.shiftl a n) b = 0).
  { apply Z.bits_inj'. intros i Hi.
    rewrite Z.land_spec, Z.bits_0.
    destruct (Z.lt_ge_cases i n) as [Hlt|Hge].
    - rewrite Z.shiftl_spec_low by lia. reflexivity.
    - rewrite <- (Z.mod_small b (2 ^ n)) by lia.
      rewrite Z.mod_pow2_bits_high by lia. apply andb_false_r. }
  rewrite E. lia.
Qed.

(** The packed offset word, arithmetically. *)
Lemma encode_offset_arith dx dy :
  encode_offset dx dy = 0xe5 * 2 ^ 24 + (dy mod 2 ^ 11) * 2 ^ 11 + dx mod 2 ^ 11.
Proof.
  unfold encode_offset. change 0x7ff with (Z.ones 11).
  rewrite !Z.land_ones by lia.
  pose proof (Z.mod_pos_bound dx (2 ^ 11) ltac:(lia)).
  pose proof (Z.mod_pos_bound dy (2 ^ 11) ltac:(lia)).
  rewrite (lor_shiftl_low (dy mod 2 ^ 11) (dx mod 2 ^ 11) 11) by lia.
  rewrite (lor_shiftl_low 0xe5 _ 24) by lia.
  lia.
Qed.

(** The two shift pairs of the set-drawing-offset case extract the 11-bit
    two's complement fields at bits 0 and 11. *)
Lemma decode_dx w :
  int16 (sar32 (shl32s (int32 w) 21) 21) = (w + 1024) mod 2048 - 1024.
Proof.
  unfold int16, sar32, shl32s, int32.
  rewrite Z.shiftl_mul_pow2, Z.shiftr_div_pow2 by lia.
  change (2 ^ 31) with 2147483648. change (2 ^ 32) with 4294967296.
  change (2 ^ 21) with 2097152.
  change (2 ^ 15) with 32768. change (2 ^ 16) with 65536.
  Z.div_mod_to_equations. lia.
Qed.

Lemma decode_dy w :
  int16 (sar32 (shl32s (int32 w) 10) 21) = (w / 2048 + 1024) mod 2048 - 1024.
Proof.
  unfold int16, sar32, shl32s, int32.
  rewrite Z.shiftl_mul_pow2, Z.shiftr_div_pow2 by lia.
  change (2 ^ 31) with 2147483648. change (2 ^ 32) with 4294967296.
  change (2 ^ 21) with 2097152. change (2 ^ 10) with 1024.
  change (2 ^ 15) with 32768. change (2 ^ 16) with 65536.
  Z.div_mod_to_equations. lia.
Qed.

(** Bits of a byte mask and of a right shift, at any index. *)
Lemma testbit_byte a i :
  Z.testbit (Z.land a 255) i = Z.testbit a i && (0 <=? i) && (i <? 8).
Proof.
  change 255 with (Z.ones 8). rewrite Z.land_spec, Z.testbit_ones by lia.
  rewrite andb_assoc. reflexivity.
Qed.

Lemma testbit_shiftr a n i :
  0 <= n -> Z.testbit (Z.shiftr a n) i = (0 <=? i) && Z.testbit a (i + n).
Proof.
  intros Hn. destruct (Z.leb_spec 0 i).
  - rewrite Z.shiftr_spec by lia. reflexivity.
  - rewrite Z.testbit_neg_r by lia. reflexivity.
Qed.

(** The swap moves the low byte of the word to bits 16-23, keeps bits 8-15,
    moves bits 16-23 to the low byte, and drops the top byte. *)
Lemma bgr_to_rgb_bits w i :
  0 <= i ->
  Z.testbit (Z.shiftr (bswap32 w) 8) i
  = if i <? 8 then Z.testbit w (i + 16)
    else if i <? 16 then Z.testbit w i
    else if i <? 24 then Z.testbit w (i - 16)
    else false.
Proof.
  intros Hi. unfold bswap32.
  rewrite Z.shiftr_spec by lia.
  rewrite !Z.lor_spec, !Z.shiftl_spec by lia.
  rewrite !testbit_byte, !testbit_shiftr by lia.
  destruct (Z.ltb_spec i 8); [|destruct (Z.ltb_spec i 16); [|destruct (Z.ltb_spec i 24)]].
  all: repeat match goal with
       | |- context [(?a <=? ?b)] => destruct (Z.leb_spec a b); try lia
       | |- context [(?a <? ?b)] => destruct (Z.ltb_spec a b); try lia
       end.
  all: rewrite ?andb_false_r, ?andb_true_r, ?orb_false_r, ?orb_false_l; simpl.
  all: try reflexivity.
  all: rewrite ?andb_false_r, ?andb_true_r, ?orb_false_r, ?orb_false_l; simpl.
  all: try (f_equal; lia).
Qed.

(** The seven drawing opcodes. *)
Lemma draws_cases cmd :
  draws cmd = true ->
  cmd = 0x20 \/ cmd = 0x28 \/ cmd = 0x30 \/ cmd = 0x38
  \/ cmd = 0x40 \/ cmd = 0x50 \/ cmd = 0x60.
Proof.
  unfold draws. rewrite !orb_true_iff, !Z.eqb_eq. tauto.
Qed.

#[local] Arguments draw_line : simpl never.

(** The six vertices of [draw_line]: flags, colours and columns. *)
Lemma draw_line_shape p x0 y0 c0 x1 y1 c1 :
  length (draw_line p x0 y0 c0 x1 y1 c1) = 6%nat
  /\ map flags (draw_line p x0 y0 c0 x1 y1 c1)
     = [PVR_CMD_VERTEX; PVR_CMD_VERTEX; PVR_CMD_VERTEX;
        PVR_CMD_VERTEX; PVR_CMD_VERTEX; PVR_CMD_VERTEX_EOL]
  /\ map argb (draw_line p x0 y0 c0 x1 y1 c1) = [c0; c0; c0; c1; c1; c1]
  /\ map vx (draw_line p x0 y0 c0 x1 y1 c1)
     = map (x_to_pvr p) [x0; x0; int16 (x0 + 1); x1; int16 (x1 + 1); int16 (x1 + 1)].
Proof.
  repeat split.
Qed.

(** A horizontal segment at height 0 stays in the rows 0 and 1. *)
Lemma draw_line_horizontal p x0 c0 x1 c1 v :
  In v (draw_line p x0 0 c0 x1 0 c1) ->
  vy v = y_to_pvr p 0 \/ vy v = y_to_pvr p 1.
Proof.
  unfold draw_line. cbn.
  intros H.
  repeat (destruct H as [<-|H]; [cbn; tauto|]).
  contradiction.
Qed.

(** ** The cases of the switch *)

Section Cases.

Variable gput_fill : Z -> Z -> Z.
Variable gput_sum : Z -> Z -> Z -> Z * Z.

#[local] Abbreviation step := (do_cmd gput_fill gput_sum).

(** The case for [cmd] gives the same result on two packet buffers that
    agree on the words it reads. *)
Lemma dispatch_ext cmd d a b :
  gput_sum_carries gput_sum ->
  same_visible d a b ->
  (forall i, (i < operands_read cmd)%nat -> U4 (pbuffer a) i = U4 (pbuffer b) i) ->
  same_visible d (dispatch gput_fill gput_sum cmd a) (dispatch gput_fill gput_sum cmd b).
Proof.
  intros Hg (Hp & Ht & Hc & Hs) Hpb.
  unfold dispatch, operands_read in *.
  destruct (cmd =? 0x02) eqn:E02.
  { unfold cmd_clear_image.
    rewrite (U2_ext _ _ 4 (Hpb 2%nat ltac:(lia))), (U2_ext _ _ 5 (Hpb 2%nat ltac:(lia))).
    rewrite (Hg (cpu_cycles_sum a)), (Hg (cpu_cycles_sum b)), Hc.
    unfold same_visible; cbn. repeat split; try assumption.
    rewrite int32_idem, int32_add_r.
    rewrite <- int32_add_l, Hs, int32_add_l. f_equal. lia. }
  destruct (cmd =? 0xe1) eqn:Ee1.
  { cbn in Hpb. rewrite (Hpb 0%nat ltac:(lia)), Hp.
    unfold same_visible; cbn. repeat split; assumption. }
  destruct (cmd =? 0xe3) eqn:Ee3.
  { cbn in Hpb. rewrite (Hpb 0%nat ltac:(lia)), Hp.
    unfold same_visible; cbn. repeat split; assumption. }
  destruct (cmd =? 0xe4) eqn:Ee4.
  { cbn in Hpb. rewrite (Hpb 0%nat ltac:(lia)), Hp.
    unfold same_visible; cbn. repeat split; assumption. }
  destruct (cmd =? 0xe5) eqn:Ee5.
  { cbn in Hpb. rewrite (Hpb 0%nat ltac:(lia)), Hp.
    unfold same_visible; cbn. repeat split; assumption. }
  destruct (cmd =? 0xe6) eqn:Ee6.
  { cbn in Hpb. rewrite (Hpb 0%nat ltac:(lia)), Hp.
    unfold same_visible; cbn. repeat split; assumption. }
  cbn in Hpb.
  destruct (cmd =? 0x20) eqn:E20.
  { apply Z.eqb_eq in E20. subst cmd.
    unfold same_visible, draw_poly; cbn.
    rewrite !Hpb by lia. rewrite Hp, Ht. repeat split; assumption. }
  destruct (cmd =? 0x28) eqn:E28.
  { apply Z.eqb_eq in E28. subst cmd.
    unfold same_visible, draw_poly; cbn.
    rewrite !Hpb by lia. rewrite Hp, Ht. repeat split; assumption. }
  destruct (cmd =? 0x30) eqn:E30.
  { apply Z.eqb_eq in E30. subst cmd.
    unfold same_visible, draw_poly; cbn.
    rewrite !Hpb by lia. rewrite Hp, Ht. repeat split; assumption. }
  destruct (cmd =? 0x38) eqn:E38.
  { apply Z.eqb_eq in E38. subst cmd.
    unfold same_visible, draw_poly; cbn.
    rewrite !Hpb by lia. rewrite Hp, Ht. repeat split; assumption. }
  cbn.
  destruct (cmd =? 0x40) eqn:E40.
  { apply Z.eqb_eq in E40. subst cmd.
    unfold same_visible, draw_lines; cbn.
    rewrite !Hpb by lia. rewrite Hp, Ht. repeat split; assumption. }
  destruct (cmd =? 0x50) eqn:E50.
  { apply Z.eqb_eq in E50. subst cmd.
    unfold same_visible, draw_lines; cbn.
    rewrite !Hpb by lia. rewrite Hp, Ht. repeat split; assumption. }
  cbn.
  destruct (cmd =? 0x60) eqn:E60.
  { unfold same_visible, draw_rect; cbn.
    rewrite !Hpb by lia. rewrite Hp, Ht. repeat split; assumption. }
  unfold same_visible. repeat split; assumption.
Qed.

(** Each field of [pvr] is left alone by every case of the switch but its
    own. *)
Lemma dispatch_frame cmd ls :
  let p := l_pvr ls in
  let p' := l_pvr (dispatch gput_fill gput_sum cmd ls) in
  (cmd <> 0xe1 -> gp1 p' = gp1 p)
  /\ (cmd <> 0xe3 -> draw_x1 p' = draw_x1 p /\ draw_y1 p' = draw_y1 p)
  /\ (cmd <> 0xe4 -> draw_x2 p' = draw_x2 p /\ draw_y2 p' = draw_y2 p)
  /\ (cmd <> 0xe5 -> draw_dx p' = draw_dx p /\ draw_dy p' = draw_dy p)
  /\ (cmd <> 0xe6 -> set_mask p' = set_mask p /\ check_mask p' = check_mask p).
Proof.
  unfold dispatch, cmd_clear_image.
  destruct (Z.eqb_spec cmd 0x02); [simpl; tauto|].
  destruct (Z.eqb_spec cmd 0xe1); [simpl; subst; repeat split; intros; congruence|].
  destruct (Z.eqb_spec cmd 0xe3); [simpl; subst; repeat split; intros; congruence|].
  destruct (Z.eqb_spec cmd 0xe4); [simpl; subst; repeat split; intros; congruence|].
  destruct (Z.eqb_spec cmd 0xe5); [simpl; subst; repeat split; intros; congruence|].
  destruct (Z.eqb_spec cmd 0xe6); [simpl; subst; repeat split; intros; congruence|].
  destruct ((cmd =? 0x20) || (cmd =? 0x28) || (cmd =? 0x30) || (cmd =? 0x38));
    [simpl; tauto|].
  destruct ((cmd =? 0x40) || (cmd =? 0x50)); [simpl; tauto|].
  destruct (cmd =? 0x60); simpl; tauto.
Qed.

(** A case other than the five state-setting ones leaves [pvr] as it is. *)
Lemma dispatch_pvr_unchanged cmd ls :
  cmd <> 0xe1 -> cmd <> 0xe3 -> cmd <> 0xe4 -> cmd <> 0xe5 -> cmd <> 0xe6 ->
  l_pvr (dispatch gput_fill gput_sum cmd ls) = l_pvr ls.
Proof.
  intros H1 H3 H4 H5 H6.
  destruct (dispatch_frame cmd ls) as (A & B & C & D & E).
  specialize (A H1). destruct (B H3), (C H4), (D H5), (E H6).
  destruct (l_pvr (dispatch gput_fill gput_sum cmd ls)), (l_pvr ls).
  simpl in *. congruence.
Qed.

(** The loop body on a set-drawing-offset command. *)
Lemma step_offset w ws ls :
  Z.shiftr w 24 = 0xe5 ->
  draw_dx (l_pvr (step ls (w :: ws))) = (w + 1024) mod 2048 - 1024
  /\ draw_dy (l_pvr (step ls (w :: ws))) = (w / 2048 + 1024) mod 2048 - 1024.
Proof.
  intros Ho. unfold do_cmd. simpl hd. rewrite Ho.
  unfold dispatch. simpl.
  rewrite !U4_fill by (simpl; lia). simpl nth.
  split; [apply decode_dx | apply decode_dy].
Qed.

(** C5. The set-drawing-offset case sign-extends the two 11-bit fields of
    the command word: for every word with opcode 0xe5 the offsets stored
    are the two's complement values of bits 0-10 and of bits 11-21, and
    every pair [(dx, dy)] in [-1024, 1023] packed into a command word is
    read back as it was, [(-5, 7)] and the bounds included. *)
Theorem drawing_offset_sign_extension dx dy ws ls :
  -1024 <= dx <= 1023 ->
  -1024 <= dy <= 1023 ->
  let c := encode_offset dx dy :: ws in
  opcode c = 0xe5
  /\ draw_dx (l_pvr (step ls c)) = dx
  /\ draw_dy (l_pvr (step ls c)) = dy
  /\ (forall w ws', Z.shiftr w 24 = 0xe5 ->
        draw_dx (l_pvr (step ls (w :: ws'))) = (w mod 2 ^ 11 + 2 ^ 10) mod 2 ^ 11 - 2 ^ 10
        /\ draw_dy (l_pvr (step ls (w :: ws')))
           = (w / 2 ^ 11 mod 2 ^ 11 + 2 ^ 10) mod 2 ^ 11 - 2 ^ 10).
Proof.
  intros Hx Hy c.
  assert (Ho : opcode c = 0xe5).
  { subst c. unfold opcode. simpl hd. rewrite encode_offset_arith.
    rewrite Z.shiftr_div_pow2 by lia.
    change (2 ^ 24) with 16777216. change (2 ^ 11) with 2048.
    Z.div_mod_to_equations. lia. }
  split; [exact Ho|].
  destruct (step_offset (encode_offset dx dy) ws ls Ho) as (Edx & Edy).
  subst c. rewrite Edx, Edy, encode_offset_arith.
  change (2 ^ 24) with 16777216. change (2 ^ 11) with 2048. change (2 ^ 10) with 1024.
  split; [Z.div_mod_to_equations; lia|].
  split; [Z.div_mod_to_equations; lia|].
  intros w ws' Hw.
  destruct (step_offset w ws' ls Hw) as (-> & ->).
  split; Z.div_mod_to_equations; lia.
Qed.

(** Closes [argb v = swap of word k] when the two sides are the same term. *)
Ltac same_colour :=
  cbn; unfold bgr_to_rgb;
  lazymatch goal with |- ?x = ?x => reflexivity end.

(** Picks the colour word a vertex was built from. *)
Ltac colour_word :=
  lazymatch goal with
  | |- exists k, _ /\ bgr_to_rgb (U4 _ ?n) = _ =>
      exists n; split; [cbn; tauto | reflexivity]
  end.

(** C6. Every vertex submitted by a polygon, line or rectangle case has
    as colour the byte swap of one of the colour words of the packet,
    shifted right by 8, and each colour word is used by some vertex.  The
    swap exchanges the low byte and bits 16-23 and clears the top byte:
    0x00112233 gives 0x00332211. *)
Theorem vertex_colour_is_swapped_word cmd ls :
  draws cmd = true ->
  let pb := pbuffer ls in
  exists vs,
    l_ta (dispatch gput_fill gput_sum cmd ls) = l_ta ls ++ TaHdr :: map TaVertex vs
    /\ (forall v, In v vs ->
          exists k, In k (color_words cmd)
                    /\ argb v = Z.shiftr (bswap32 (U4 pb k)) 8)
    /\ (forall k, In k (color_words cmd) ->
          exists v, In v vs /\ argb v = Z.shiftr (bswap32 (U4 pb k)) 8)
    /\ (forall w i, 0 <= i ->
          Z.testbit (Z.shiftr (bswap32 w) 8) i
          = if i <? 8 then Z.testbit w (i + 16)
            else if i <? 16 then Z.testbit w i
            else if i <? 24 then Z.testbit w (i - 16)
            else false)
    /\ Z.shiftr (bswap32 0x00112233) 8 = 0x00332211.
Proof.
  intros Hd pb.
  pose proof bgr_to_rgb_bits as Hbits.
  apply draws_cases in Hd.
  destruct Hd as [->|[->|[->|[->|[->|[->| ->]]]]]];
    unfold dispatch; cbn; unfold draw_poly, draw_lines, draw_rect; cbv zeta;
    (eexists; split; [reflexivity|]);
    unfold color_words; cbn; fold pb;
    repeat match goal with
           | |- context [if ?c then _ else _] => destruct c
           end;
    (split; [|split; [|split; [exact Hbits | reflexivity]]]).
  all: try (intros v Hv; cbn in Hv;
            repeat (destruct Hv as [<-|Hv]; [cbn; colour_word|]);
            contradiction).
  all: intros k Hk; cbn in Hk;
    repeat (destruct Hk as [<-|Hk];
            [first [ eexists; split; [left; reflexivity | same_colour]
                   | eexists; split; [right; left; reflexivity | same_colour]
                   | eexists; split; [right; right; left; reflexivity | same_colour]
                   | eexists; split;
                     [right; right; right; left; reflexivity | same_colour] ] |]);
    contradiction.
Qed.

(** C7. The case for a 2-point line (0x40, 0x50) submits a header and one
    call of [draw_line]: six vertices, the sixth and only the sixth with
    the end-of-list flag.  The endpoint with the smaller x goes first in
    the call, the first endpoint of the command when the x are equal.  For
    the endpoints (0,0) and (10,0), in either order, every vertex is in
    row 0 or row 1. *)
Theorem line_expansion cmd ls :
  cmd = 0x40 \/ cmd = 0x50 ->
  let pb := pbuffer ls in
  let p := l_pvr ls in
  let xa := int16 (U4 pb 1) in
  let ya := int16 (Z.shiftr (U4 pb 1) 16) in
  let ca := Z.shiftr (bswap32 (U4 pb 0)) 8 in
  let wb := U4 pb (if cmd =? 0x50 then 3%nat else 2%nat) in
  let xb := int16 wb in
  let yb := int16 (Z.shiftr wb 16) in
  let cb := if cmd =? 0x50 then Z.shiftr (bswap32 (U4 pb 2)) 8 else ca in
  let vs := if xa >? xb
            then draw_line p xb yb cb xa ya ca
            else draw_line p xa ya ca xb yb cb in
  l_ta (dispatch gput_fill gput_sum cmd ls) = l_ta ls ++ TaHdr :: map TaVertex vs
  /\ length vs = 6%nat
  /\ map flags vs = [PVR_CMD_VERTEX; PVR_CMD_VERTEX; PVR_CMD_VERTEX;
                     PVR_CMD_VERTEX; PVR_CMD_VERTEX; PVR_CMD_VERTEX_EOL]
  /\ (exists x0 y0 c0 x1 y1 c1,
        vs = draw_line p x0 y0 c0 x1 y1 c1
        /\ x0 <= x1
        /\ ((xa <= xb /\ (x0, y0, c0, x1, y1, c1) = (xa, ya, ca, xb, yb, cb))
            \/ (xb < xa /\ (x0, y0, c0, x1, y1, c1) = (xb, yb, cb, xa, ya, ca))))
  /\ (((xa, ya) = (0, 0) /\ (xb, yb) = (10, 0))
      \/ ((xa, ya) = (10, 0) /\ (xb, yb) = (0, 0)) ->
      forall v, In v vs -> vy v = y_to_pvr p 0 \/ vy v = y_to_pvr p 1).
Proof.
  intros Hcmd pb p xa ya ca wb xb yb cb vs.
  split.
  { destruct Hcmd as [-> | ->]; unfold dispatch; cbn;
      unfold draw_lines; cbn; unfold bgr_to_rgb; rewrite app_nil_r; reflexivity. }
  split; [subst vs; destruct (xa >? xb); reflexivity|].
  split; [subst vs; destruct (xa >? xb); reflexivity|].
  split.
  { subst vs. destruct (Z.gtb_spec xa xb) as [Hgt|Hle].
    - exists xb, yb, cb, xa, ya, ca. repeat split; try lia.
      right. split; [lia | reflexivity].
    - exists xa, ya, ca, xb, yb, cb. repeat split; try lia.
      left. split; [lia | reflexivity]. }
  intros [[Ea Eb] | [Ea Eb]] v; subst vs;
    injection Ea as -> ->; injection Eb as -> ->; cbn;
    apply draw_line_horizontal.
Qed.

End Cases.

(** ** Buffers of commands *)

Section Buffers.

Variable cmd_lengths : Z -> nat.
Variable gput_fill : Z -> Z -> Z.
Variable gput_sum : Z -> Z -> Z -> Z * Z.

#[local] Abbreviation step := (do_cmd gput_fill gput_sum).
#[local] Abbreviation loop := (cmd_loop cmd_lengths gput_fill gput_sum).
#[local] Abbreviation run := (do_cmd_list cmd_lengths gput_fill gput_sum).

(** A whole command has one word more than its table length. *)
Lemma is_cmd_length c :
  is_cmd cmd_lengths c = true -> length c = (1 + cmd_lengths (opcode c))%nat.
Proof.
  destruct c as [|w ws]; simpl; [discriminate|].
  intros H. apply Nat.eqb_eq in H. unfold opcode. simpl. lia.
Qed.

(** The words of whole commands add up to the length of the buffer. *)
Lemma words_of_concat cmds :
  Forall (fun c => is_cmd cmd_lengths c = true) cmds ->
  length (concat cmds) = words_of cmd_lengths cmds.
Proof.
  unfold words_of.
  induction 1 as [|c cmds Hc _ IH]; simpl; [reflexivity|].
  rewrite length_app, IH, (is_cmd_length c Hc). reflexivity.
Qed.

(** One iteration on a whole command. *)
Lemma cmd_loop_cmd c rest ls off cmd0 :
  is_cmd cmd_lengths c = true ->
  loop (c ++ rest) ls off cmd0
  = loop rest (step ls c) (off + length c) (opcode c).
Proof.
  destruct c as [|w ws]; simpl; [discriminate|].
  intros H. apply Nat.eqb_eq in H.
  simp cmd_loop.
  rewrite <- H.
  replace (length (ws ++ rest) <? length ws)%nat with false
    by (symmetry; apply Nat.ltb_ge; rewrite length_app; lia).
  rewrite firstn_app, firstn_all, Nat.sub_diag, firstn_O, app_nil_r.
  rewrite skipn_app, skipn_all, Nat.sub_diag. simpl.
  reflexivity.
Qed.

(** The loop runs through a sequence of whole commands in order. *)
Lemma cmd_loop_cmds cmds :
  Forall (fun c => is_cmd cmd_lengths c = true) cmds ->
  forall rest ls off cmd0,
    loop (concat cmds ++ rest) ls off cmd0
    = loop rest (fold_left step cmds ls)
           (off + length (concat cmds)) (last_opcode cmds cmd0).
Proof.
  induction 1 as [|c cmds Hc _ IH]; intros rest ls off cmd0; simpl.
  - rewrite Nat.add_0_r. reflexivity.
  - rewrite <- app_assoc, (cmd_loop_cmd c _ ls off cmd0 Hc), IH.
    rewrite length_app, Nat.add_assoc. reflexivity.
Qed.

(** The loop stops at a command whose operands are missing. *)
Lemma cmd_loop_truncated c ls off cmd0 :
  is_truncated cmd_lengths c = true ->
  loop c ls off cmd0 = (ls, off, uint32 (-1)).
Proof.
  destruct c as [|w ws]; simpl; [discriminate|].
  intros H. simp cmd_loop. rewrite H. reflexivity.
Qed.

(** On a buffer of whole commands the loop exits at the end of the buffer. *)
Lemma cmd_loop_whole cmds ls off cmd0 :
  Forall (fun c => is_cmd cmd_lengths c = true) cmds ->
  loop (concat cmds) ls off cmd0
  = (fold_left step cmds ls, (off + length (concat cmds))%nat, last_opcode cmds cmd0).
Proof.
  intros H.
  rewrite <- (app_nil_r (concat cmds)) at 1.
  rewrite (cmd_loop_cmds cmds H). simp cmd_loop. reflexivity.
Qed.

(** On whole commands followed by a truncated one the loop exits where the
    truncated command starts, with [cmd = -1]. *)
Lemma cmd_loop_partial cmds part ls off cmd0 :
  Forall (fun c => is_cmd cmd_lengths c = true) cmds ->
  is_truncated cmd_lengths part = true ->
  loop (concat cmds ++ part) ls off cmd0
  = (fold_left step cmds ls, (off + length (concat cmds))%nat, uint32 (-1)).
Proof.
  intros H Hp.
  rewrite (cmd_loop_cmds cmds H), (cmd_loop_truncated part _ _ _ Hp).
  reflexivity.
Qed.

(** What [do_cmd_list] leaves after a buffer of whole commands. *)
Lemma run_whole_commands cmds p ex ta pb0 cs cl :
  Forall (fun c => is_cmd cmd_lengths c = true) cmds ->
  let r := do_cmd_list cmd_lengths gput_fill gput_sum p ex ta pb0 (concat cmds) cs cl in
  let ls := fold_left step cmds (entry p ta pb0 cl) in
  o_ret r = Z.of_nat (words_of cmd_lengths cmds)
  /\ o_ret r = Z.of_nat (length (concat cmds))
  /\ o_pvr r = l_pvr ls
  /\ o_ta r = l_ta ls
  /\ o_cycles_sum_out r = int32 (cs + cpu_cycles_sum ls)
  /\ o_cycles_last r = cpu_cycles ls
  /\ o_last_cmd r = int32 (last_opcode cmds 0).
Proof.
  intros H r ls. subst r ls. unfold do_cmd_list, entry.
  rewrite (cmd_loop_whole cmds _ _ _ H). simpl.
  rewrite (words_of_concat cmds H).
  repeat split; reflexivity.
Qed.

(** C1. A buffer that is the concatenation of whole commands is consumed
    entirely: the return value is the sum over the commands of one plus
    the table length, which is the length of the buffer, and the state
    left behind is the one obtained by running the loop body on each
    command in buffer order. *)
Theorem do_cmd_list_whole_commands cmds p ex ta pb0 cs cl :
  Forall (fun c => is_cmd cmd_lengths c = true) cmds ->
  let r := do_cmd_list cmd_lengths gput_fill gput_sum p ex ta pb0 (concat cmds) cs cl in
  let ls := fold_left step cmds (entry p ta pb0 cl) in
  o_ret r = Z.of_nat (words_of cmd_lengths cmds)
  /\ o_ret r = Z.of_nat (length (concat cmds))
  /\ o_pvr r = l_pvr ls
  /\ o_ta r = l_ta ls
  /\ o_cycles_sum_out r = int32 (cs + cpu_cycles_sum ls)
  /\ o_cycles_last r = cpu_cycles ls
  /\ o_last_cmd r = int32 (last_opcode cmds 0).
Proof.
  intros H. exact (run_whole_commands cmds p ex ta pb0 cs cl H).
Qed.

(** C10. On an empty buffer [do_cmd_list] returns 0, leaves [pvr], the
    submitted entries and both cycle counters as they were, and stores 0
    in [*last_cmd]: the value it also stores after a buffer that ends
    with a NOP (opcode 0x00). *)
Theorem do_cmd_list_empty p ex ta pb0 cs cl nop :
  - 2 ^ 31 <= cs < 2 ^ 31 ->
  is_cmd cmd_lengths nop = true ->
  opcode nop = 0 ->
  let r := do_cmd_list cmd_lengths gput_fill gput_sum p ex ta pb0 [] cs cl in
  let r' := do_cmd_list cmd_lengths gput_fill gput_sum p ex ta pb0 nop cs cl in
  o_ret r = 0
  /\ o_pvr r = p
  /\ o_ta r = ta
  /\ o_cycles_sum_out r = cs
  /\ o_cycles_last r = cl
  /\ o_last_cmd r = 0
  /\ o_last_cmd r <> -1
  /\ o_last_cmd r' = o_last_cmd r.
Proof.
  intros Hcs Hnop Hop r r'.
  assert (Hr' : o_last_cmd r' = 0).
  { subst r'.
    destruct (run_whole_commands [nop] p ex ta pb0 cs cl) as (_ & _ & _ & _ & _ & _ & E).
    - constructor; [exact Hnop | constructor].
    - simpl in E. rewrite app_nil_r in E. rewrite E.
      unfold last_opcode. simpl. rewrite Hop. reflexivity. }
  subst r. unfold do_cmd_list. simp cmd_loop. simpl.
  rewrite Z.add_0_r, (int32_small cs Hcs), Hr'.
  repeat split; try reflexivity. discriminate.
Qed.

(** The loop body keeps two states looking the same, when the table gives
    each case the operands it reads. *)
Lemma step_sim d a b c :
  table_covers cmd_lengths -> gput_sum_carries gput_sum ->
  is_cmd cmd_lengths c = true ->
  same_visible d a b ->
  same_visible d (step a c) (step b c).
Proof.
  intros Ht Hg Hc Hv. unfold do_cmd.
  apply dispatch_ext; [exact Hg | apply load_packet_visible; exact Hv |].
  intros i Hi. simpl.
  pose proof (Ht (opcode c)) as Hlen.
  pose proof (operands_read_le8 (opcode c)) as H8.
  pose proof (is_cmd_length c Hc) as Hl.
  unfold opcode in *.
  rewrite !U4_fill by lia. reflexivity.
Qed.

(** From states that look the same, the loop exits in states that look
    the same, after the same number of words, with the same [cmd]. *)
Lemma cmd_loop_sim d n :
  table_covers cmd_lengths -> gput_sum_carries gput_sum ->
  forall buf a b offa offb cmda cmdb,
    (length buf <= n)%nat ->
    same_visible d a b ->
    let ra := loop buf a offa cmda in
    let rb := loop buf b offb cmdb in
    same_visible d (fst (fst ra)) (fst (fst rb))
    /\ (snd (fst ra) + offb = snd (fst rb) + offa)%nat
    /\ (buf <> [] -> snd ra = snd rb).
Proof.
  intros Ht Hg. induction n as [|n IH]; intros buf a b offa offb cmda cmdb Hn Hv.
  - destruct buf; [|simpl in Hn; lia].
    simp cmd_loop. simpl. repeat split; try assumption; try lia.
    + apply Hv.
    + apply Hv.
    + apply Hv.
    + apply Hv.
    + intros E. contradiction.
  - destruct buf as [|w rest].
    + simp cmd_loop. simpl. repeat split; try lia; try apply Hv.
      intros E. contradiction.
    + simpl in Hn. cbv zeta. simp cmd_loop.
      destruct (length rest <? cmd_lengths (Z.shiftr w 24))%nat eqn:E.
      * simpl. repeat split; try lia; try apply Hv.
      * apply Nat.ltb_ge in E.
        set (len := cmd_lengths (Z.shiftr w 24)) in *.
        assert (Hc : is_cmd cmd_lengths (w :: firstn len rest) = true).
        { simpl. apply Nat.eqb_eq. rewrite length_firstn. fold len. lia. }
        specialize (IH (skipn len rest)
                       (step a (w :: firstn len rest)) (step b (w :: firstn len rest))
                       (offa + (1 + len))%nat (offb + (1 + len))%nat
                       (Z.shiftr w 24) (Z.shiftr w 24)).
        destruct IH as (H1 & H2 & H3).
        { rewrite length_skipn. lia. }
        { apply step_sim; assumption. }
        split; [exact H1|]. split; [lia|].
        intros _.
        destruct (skipn len rest) eqn:Es.
        -- simp cmd_loop. reflexivity.
        -- apply H3. discriminate.
Qed.

(** C2. When the buffer ends with a truncated command, [do_cmd_list]
    stores -1 in [*last_cmd] and returns the offset at which the truncated
    command starts, having run the whole commands before it.  Calling it
    again on the words from that offset on, with further words appended,
    leaves the same state, outputs and total count as one call on the
    whole stream. *)
Theorem do_cmd_list_truncated cmds part more p ex ta pb0 pb1 cs cl :
  Forall (fun c => is_cmd cmd_lengths c = true) cmds ->
  is_truncated cmd_lengths part = true ->
  table_covers cmd_lengths ->
  gput_sum_carries gput_sum ->
  let buf := concat cmds ++ part in
  let r := run p ex ta pb0 buf cs cl in
  let ls := fold_left step cmds (entry p ta pb0 cl) in
  let resumed :=
    run (o_pvr r) (o_ex_regs1 r) (o_ta r) pb1
        (skipn (Z.to_nat (o_ret r)) buf ++ more)
        (o_cycles_sum_out r) (o_cycles_last r) in
  let whole := run p ex ta pb0 (buf ++ more) cs cl in
  o_last_cmd r = -1
  /\ o_ret r = Z.of_nat (length (concat cmds))
  /\ o_ret r = Z.of_nat (words_of cmd_lengths cmds)
  /\ skipn (Z.to_nat (o_ret r)) buf = part
  /\ o_pvr r = l_pvr ls
  /\ o_ta r = l_ta ls
  /\ o_pvr resumed = o_pvr whole
  /\ o_ta resumed = o_ta whole
  /\ o_ex_regs1 resumed = o_ex_regs1 whole
  /\ o_cycles_sum_out resumed = o_cycles_sum_out whole
  /\ o_cycles_last resumed = o_cycles_last whole
  /\ o_last_cmd resumed = o_last_cmd whole
  /\ o_ret r + o_ret resumed = o_ret whole.
Proof.
  intros Hc Hp Ht Hg buf r ls resumed whole.
  assert (Er : r = {| o_pvr := l_pvr ls;
                      o_ex_regs1 := status_writeback ex (gp1 (l_pvr ls));
                      o_ta := l_ta ls;
                      o_cycles_sum_out := int32 (cs + cpu_cycles_sum ls);
                      o_cycles_last := cpu_cycles ls;
                      o_last_cmd := -1;
                      o_ret := Z.of_nat (length (concat cmds)) |}).
  { subst r buf. unfold do_cmd_list.
    rewrite (cmd_loop_partial cmds part _ _ _ Hc Hp). reflexivity. }
  assert (Es : skipn (Z.to_nat (o_ret r)) buf = part).
  { rewrite Er. simpl. rewrite Nat2Z.id. subst buf.
    rewrite skipn_app, skipn_all, Nat.sub_diag. reflexivity. }
  subst resumed. rewrite Es. clear Es.
  subst whole buf. rewrite Er. simpl. clear Er r.
  rewrite <- (words_of_concat cmds Hc).
  repeat (split; [reflexivity|]).
  unfold do_cmd_list.
  rewrite <- app_assoc, (cmd_loop_cmds cmds Hc). fold (entry p ta pb0 cl). fold ls.
  assert (Hv : same_visible (cpu_cycles_sum ls) ls
                 (mk_locals (l_pvr ls) (l_ta ls) 0 (cpu_cycles ls) pb1)).
  { unfold same_visible. simpl. rewrite Z.add_0_r. repeat split; reflexivity. }
  assert (Hne : part ++ more <> []).
  { destruct part; [discriminate | discriminate]. }
  pose proof (cmd_loop_sim (cpu_cycles_sum ls) (length (part ++ more)) Ht Hg
                (part ++ more) ls _ (0 + length (concat cmds))%nat 0%nat
                (last_opcode cmds 0) 0 (le_n _) Hv) as Hsim.
  cbv zeta in Hsim.
  destruct (loop (part ++ more) ls (0 + length (concat cmds)) (last_opcode cmds 0))
    as [[la offa] cmda].
  destruct (loop (part ++ more) _ 0%nat 0) as [[lb offb] cmdb].
  simpl in Hsim. destruct Hsim as ((Hpv & Hta & Hcy & Hsum) & Hoff & Hcmd).
  simpl. rewrite Hpv, Hta, Hcy, (Hcmd Hne).
  fold (status_writeback ex (gp1 (l_pvr ls))).
  fold (status_writeback (status_writeback ex (gp1 (l_pvr ls))) (gp1 (l_pvr lb))).
  fold (status_writeback ex (gp1 (l_pvr lb))).
  rewrite status_writeback_twice.
  repeat split; try reflexivity.
  - rewrite int32_add_l.
    rewrite <- (int32_add_r cs (cpu_cycles_sum la)), Hsum, int32_add_r.
    f_equal. lia.
  - lia.
Qed.

(** What every command of a sequence preserves, the sequence preserves. *)
Lemma fold_step_preserves {A : Type} (f : locals -> A) (P : Z -> Prop) :
  (forall c ls, P (opcode c) -> f (step ls c) = f ls) ->
  forall cmds ls,
    Forall (fun c => P (opcode c)) cmds ->
    f (fold_left step cmds ls) = f ls.
Proof.
  intros Hstep cmds. induction cmds as [|c cmds IH]; intros ls H; simpl.
  - reflexivity.
  - inversion H as [|? ? Hc Hcmds]; subst.
    rewrite (IH _ Hcmds). apply Hstep. exact Hc.
Qed.

(** C8. Over a buffer of whole commands, which are all consumed, each
    field of the GPU state keeps its value unless the buffer holds the
    opcode that sets it: 0xe1 for the texture status bits, 0xe3 and 0xe4
    for the clip corners, 0xe5 for the drawing offset, 0xe6 for the mask
    flags.  Commands with any other opcode, known or not, leave the whole
    state as it was. *)
Theorem state_written_by_designated_opcode cmds p ex ta pb0 cs cl :
  Forall (fun c => is_cmd cmd_lengths c = true) cmds ->
  let r := run p ex ta pb0 (concat cmds) cs cl in
  o_ret r = Z.of_nat (words_of cmd_lengths cmds)
  /\ (Forall (fun c => opcode c <> 0xe1) cmds -> gp1 (o_pvr r) = gp1 p)
  /\ (Forall (fun c => opcode c <> 0xe3) cmds ->
      draw_x1 (o_pvr r) = draw_x1 p /\ draw_y1 (o_pvr r) = draw_y1 p)
  /\ (Forall (fun c => opcode c <> 0xe4) cmds ->
      draw_x2 (o_pvr r) = draw_x2 p /\ draw_y2 (o_pvr r) = draw_y2 p)
  /\ (Forall (fun c => opcode c <> 0xe5) cmds ->
      draw_dx (o_pvr r) = draw_dx p /\ draw_dy (o_pvr r) = draw_dy p)
  /\ (Forall (fun c => opcode c <> 0xe6) cmds ->
      set_mask (o_pvr r) = set_mask p /\ check_mask (o_pvr r) = check_mask p)
  /\ (Forall (fun c => opcode c <> 0xe1 /\ opcode c <> 0xe3 /\ opcode c <> 0xe4
                       /\ opcode c <> 0xe5 /\ opcode c <> 0xe6) cmds ->
      o_pvr r = p).
Proof.
  intros Hc r.
  destruct (run_whole_commands cmds p ex ta pb0 cs cl Hc)
    as (Hret & _ & Hpvr & _).
  fold r in Hret, Hpvr. rewrite Hpvr. split; [exact Hret|].
  assert (F : forall (A : Type) (f : pvr_renderer -> A) (P : Z -> Prop),
             (forall cmd ls, P cmd ->
                f (l_pvr (dispatch gput_fill gput_sum cmd ls)) = f (l_pvr ls)) ->
             Forall (fun c => P (opcode c)) cmds ->
             f (l_pvr (fold_left step cmds (entry p ta pb0 cl))) = f p).
  { intros A f P Hd HP.
    apply (fold_step_preserves (fun ls => f (l_pvr ls)) P); [|exact HP].
    intros c ls Ho. apply (Hd (opcode c) (load_packet ls c) Ho). }
  split; [intros H; apply (F _ gp1 _ (fun cmd ls => proj1 (dispatch_frame gput_fill gput_sum cmd ls)) H)|].
  split.
  { intros H; split.
    - apply (F _ draw_x1 (fun o => o <> 0xe3)); [|exact H].
      intros cmd ls Ho. apply (dispatch_frame gput_fill gput_sum cmd ls). exact Ho.
    - apply (F _ draw_y1 (fun o => o <> 0xe3)); [|exact H].
      intros cmd ls Ho. apply (dispatch_frame gput_fill gput_sum cmd ls). exact Ho. }
  split.
  { intros H; split.
    - apply (F _ draw_x2 (fun o => o <> 0xe4)); [|exact H].
      intros cmd ls Ho. apply (dispatch_frame gput_fill gput_sum cmd ls). exact Ho.
    - apply (F _ draw_y2 (fun o => o <> 0xe4)); [|exact H].
      intros cmd ls Ho. apply (dispatch_frame gput_fill gput_sum cmd ls). exact Ho. }
  split.
  { intros H; split.
    - apply (F _ draw_dx (fun o => o <> 0xe5)); [|exact H].
      intros cmd ls Ho. apply (dispatch_frame gput_fill gput_sum cmd ls). exact Ho.
    - apply (F _ draw_dy (fun o => o <> 0xe5)); [|exact H].
      intros cmd ls Ho. apply (dispatch_frame gput_fill gput_sum cmd ls). exact Ho. }
  split.
  { intros H; split.
    - apply (F _ set_mask (fun o => o <> 0xe6)); [|exact H].
      intros cmd ls Ho. apply (dispatch_frame gput_fill gput_sum cmd ls). exact Ho.
    - apply (F _ check_mask (fun o => o <> 0xe6)); [|exact H].
      intros cmd ls Ho. apply (dispatch_frame gput_fill gput_sum cmd ls). exact Ho. }
  intros H.
  apply (F _ (fun q => q)
           (fun o => o <> 0xe1 /\ o <> 0xe3 /\ o <> 0xe4 /\ o <> 0xe5 /\ o <> 0xe6));
    [|exact H].
  intros cmd ls (H1 & H3 & H4 & H5 & H6).
  apply dispatch_pvr_unchanged; assumption.
Qed.

(** The loop body on a fill-rectangle command. *)
Lemma step_fill c ls :
  is_cmd cmd_lengths c = true ->
  opcode c = 0x02 ->
  (2 <= cmd_lengths 0x02)%nat ->
  step ls c
  = set_cycles (load_packet ls c)
      (gput_sum (cpu_cycles_sum ls) (cpu_cycles ls) (fill_cost gput_fill c)).
Proof.
  intros Hc Ho Hlen.
  pose proof (is_cmd_length c Hc) as Hl. rewrite Ho in Hl.
  unfold do_cmd. fold (opcode c). rewrite Ho.
  unfold dispatch, cmd_clear_image, fill_cost, fill_width, fill_height, U2.
  cbn. rewrite !U4_fill by lia. reflexivity.
Qed.

(** The loop body touches the cycle counters on fill-rectangle commands
    only. *)
Lemma step_cycles c ls :
  is_cmd cmd_lengths c = true ->
  (2 <= cmd_lengths 0x02)%nat ->
  (cpu_cycles_sum (step ls c), cpu_cycles (step ls c))
  = (count_cycles gput_fill gput_sum) (cpu_cycles_sum ls, cpu_cycles ls) c.
Proof.
  intros Hc Hlen. unfold count_cycles.
  destruct (Z.eqb_spec (opcode c) 0x02) as [Ho|Ho].
  - rewrite (step_fill c ls Hc Ho Hlen). simpl.
    destruct (gput_sum _ _ _); reflexivity.
  - unfold do_cmd. fold (opcode c). unfold dispatch.
    destruct (Z.eqb_spec (opcode c) 0x02); [contradiction|].
    repeat match goal with
           | |- context [if ?b then _ else _] => destruct b
           end; reflexivity.
Qed.

(** The counters after a sequence of whole commands. *)
Lemma fold_step_cycles cmds :
  Forall (fun c => is_cmd cmd_lengths c = true) cmds ->
  (2 <= cmd_lengths 0x02)%nat ->
  forall ls,
    (cpu_cycles_sum (fold_left step cmds ls), cpu_cycles (fold_left step cmds ls))
    = fold_left (count_cycles gput_fill gput_sum) cmds (cpu_cycles_sum ls, cpu_cycles ls).
Proof.
  intros H Hlen. induction H as [|c cmds Hc _ IH]; intros ls; simpl.
  - reflexivity.
  - rewrite IH, (step_cycles c ls Hc Hlen). reflexivity.
Qed.

(** Without a fill the counters stay. *)
Lemma fold_count_cycles_no_fill cmds sc :
  Forall (fun c => opcode c <> 0x02) cmds ->
  fold_left (count_cycles gput_fill gput_sum) cmds sc = sc.
Proof.
  intros H. revert sc. induction H as [|c cmds Hc _ IH]; intros sc; simpl.
  - reflexivity.
  - rewrite IH. unfold count_cycles.
    destruct (Z.eqb_spec (opcode c) 0x02); [contradiction | reflexivity].
Qed.

(** C9, as the code has it.  Only fill-rectangle commands (opcode 0x02)
    touch the cycle counters: each runs [gput_sum] on the running sum, the
    carry and the fill estimate [gput_fill] of its masked width and height
    fields; every other command leaves both counters alone.  At exit the
    running sum is added to [*cycles_sum_out] and the carry is stored in
    [*cycles_last]. *)
Theorem cycles_recorded_for_fills_only cmds p ex ta pb0 cs cl :
  Forall (fun c => is_cmd cmd_lengths c = true) cmds ->
  (2 <= cmd_lengths 0x02)%nat ->
  let r := run p ex ta pb0 (concat cmds) cs cl in
  let sc := fold_left (count_cycles gput_fill gput_sum) cmds (0, cl) in
  o_cycles_sum_out r = int32 (cs + fst sc)
  /\ o_cycles_last r = snd sc
  /\ (Forall (fun c => opcode c <> 0x02) cmds ->
      o_cycles_sum_out r = int32 cs /\ o_cycles_last r = cl).
Proof.
  intros Hc Hlen r sc.
  destruct (run_whole_commands cmds p ex ta pb0 cs cl Hc)
    as (_ & _ & _ & _ & Hsum & Hlast & _).
  fold r in Hsum, Hlast.
  pose proof (fold_step_cycles cmds Hc Hlen (entry p ta pb0 cl)) as E.
  simpl in E. fold sc in E.
  assert (E1 : cpu_cycles_sum (fold_left step cmds (entry p ta pb0 cl)) = fst sc)
    by (rewrite <- E; reflexivity).
  assert (E2 : cpu_cycles (fold_left step cmds (entry p ta pb0 cl)) = snd sc)
    by (rewrite <- E; reflexivity).
  rewrite Hsum, Hlast, E1, E2.
  split; [reflexivity|]. split; [reflexivity|].
  intros Hno. subst sc.
  rewrite (fold_count_cycles_no_fill cmds (0, cl) Hno). simpl.
  rewrite Z.add_0_r. split; reflexivity.
Qed.

(** C3, as the code has it.  A fill-rectangle command changes neither the
    GPU state nor the submitted entries, and the estimate it records is
    [gput_fill] of the width field masked to 10 bits and the height field
    masked to 9 bits, as they stand in the command: what
    [cmd_clear_image] computes does not enter it. *)
Theorem fill_estimate_from_raw_fields c ls :
  is_cmd cmd_lengths c = true ->
  opcode c = 0x02 ->
  (2 <= cmd_lengths 0x02)%nat ->
  l_pvr (step ls c) = l_pvr ls
  /\ l_ta (step ls c) = l_ta ls
  /\ (cpu_cycles_sum (step ls c), cpu_cycles (step ls c))
     = gput_sum (cpu_cycles_sum ls) (cpu_cycles ls)
         (gput_fill (Z.land (fill_width c) 0x3ff) (Z.land (fill_height c) 0x1ff)).
Proof.
  intros Hc Ho Hlen.
  rewrite (step_fill c ls Hc Ho Hlen). simpl.
  repeat split. unfold fill_cost. destruct (gput_sum _ _ _); reflexivity.
Qed.

(** C4, as the code has it.  At exit the low 9 bits of [gpu.ex_regs[1]]
    are those of [pvr.gp1]; the bits above them, bits 9 and 10 included,
    are as they were at entry. *)
Theorem status_register_low_nine_bits p ex ta pb0 buf cs cl i :
  0 <= i < 32 ->
  let r := run p ex ta pb0 buf cs cl in
  Z.testbit (o_ex_regs1 r) i
  = if i <? 9 then Z.testbit (gp1 (o_pvr r)) i else Z.testbit ex i.
Proof.
  intros Hi r. subst r. unfold do_cmd_list.
  destruct (loop buf _ 0%nat 0) as [[ls off] cmd]. simpl.
  fold (status_writeback ex (gp1 (l_pvr ls))).
  unfold status_writeback, uint32.
  change 0x1ff with (Z.ones 9).
  rewrite <- !(Z.land_ones _ 32) by lia.
  repeat first [ rewrite Z.land_spec | rewrite Z.lor_spec
               | rewrite Z.lnot_spec by lia
               | rewrite Z.testbit_ones_nonneg by lia ].
  replace (i <? 32) with true by (symmetry; apply Z.ltb_lt; lia).
  destruct (i <? 9), (Z.testbit ex i), (Z.testbit (gp1 (l_pvr ls)) i); reflexivity.
Qed.

End Buffers.

(** ** The results on gpulib's table and macros *)

(** gpulib's table gives every case the operands it reads. *)
Lemma gpulib_table_covers : table_covers Gpulib.cmd_lengths.
Proof.
  intros cmd. unfold operands_read.
  repeat match goal with
         | |- context [?a =? ?b] =>
             destruct (Z.eqb_spec a b); [subst; apply Nat.leb_le; reflexivity|]
         end.
  cbn. lia.
Qed.

(** gpulib's [gput_sum] adds the carry to the sum. *)
Lemma gpulib_gput_sum_carries : gput_sum_carries Gpulib.gput_sum.
Proof.
  intros s c n. reflexivity.
Qed.

(** ** The theorems at sample buffers *)

(** Set texture page, a line and a NOP: five words, all consumed. *)
Lemma do_cmd_list_whole_commands_witness :
  let cmds := [Sample.set_texpage; Sample.line; Sample.nop] in
  let r := Gpulib.run renderer_init 0 [] Sample.pbuffer0 (concat cmds) 0 0 in
  Forall (fun c => is_cmd Gpulib.cmd_lengths c = true) cmds
  /\ o_ret r = 5
  /\ o_ret r = Z.of_nat (length (concat cmds))
  /\ o_last_cmd r = 0.
Proof.
  intros cmds r.
  assert (H : Forall (fun c => is_cmd Gpulib.cmd_lengths c = true) cmds)
    by (repeat constructor).
  split; [exact H|].
  destruct (do_cmd_list_whole_commands Gpulib.cmd_lengths Gpulib.gput_fill
              Gpulib.gput_sum cmds renderer_init 0 [] Sample.pbuffer0 0 0 H)
    as (E1 & E2 & _ & _ & _ & _ & E3).
  split; [exact E1|]. split; [exact E2 | exact E3].
Defined.

(** A line command cut after its first vertex, resumed with a packet
    buffer holding other stale words. *)
Lemma do_cmd_list_truncated_witness :
  let cmds := [Sample.set_texpage] in
  let r := Gpulib.run renderer_init 0 [] Sample.pbuffer0
             (concat cmds ++ Sample.line_head) 0 0 in
  let resumed := Gpulib.run (o_pvr r) (o_ex_regs1 r) (o_ta r) Sample.stale
                   (Sample.line_head ++ Sample.line_tail)
                   (o_cycles_sum_out r) (o_cycles_last r) in
  let whole := Gpulib.run renderer_init 0 [] Sample.pbuffer0
                 ((concat cmds ++ Sample.line_head) ++ Sample.line_tail) 0 0 in
  Forall (fun c => is_cmd Gpulib.cmd_lengths c = true) cmds
  /\ is_truncated Gpulib.cmd_lengths Sample.line_head = true
  /\ o_last_cmd r = -1
  /\ o_ret r = 1
  /\ o_ta resumed = o_ta whole
  /\ o_last_cmd resumed = o_last_cmd whole
  /\ o_ret r + o_ret resumed = o_ret whole.
Proof.
  intros cmds r resumed whole.
  assert (H : Forall (fun c => is_cmd Gpulib.cmd_lengths c = true) cmds)
    by (repeat constructor).
  split; [exact H|]. split; [reflexivity|].
  destruct (do_cmd_list_truncated Gpulib.cmd_lengths Gpulib.gput_fill
              Gpulib.gput_sum cmds Sample.line_head Sample.line_tail
              renderer_init 0 [] Sample.pbuffer0 Sample.stale 0 0
              H eq_refl gpulib_table_covers gpulib_gput_sum_carries)
    as (E1 & E2 & _ & _ & _ & _ & _ & E3 & _ & _ & _ & E4 & E5).
  split; [exact E1|]. split; [exact E2|]. split; [exact E3|].
  split; [exact E4 | exact E5].
Defined.

(** A fill of width 3 and height 1 with a carry of 7. *)
Lemma fill_estimate_from_raw_fields_witness :
  let ls := entry renderer_init [] Sample.pbuffer0 7 in
  let ls' := do_cmd Gpulib.gput_fill Gpulib.gput_sum ls Sample.fill in
  is_cmd Gpulib.cmd_lengths Sample.fill = true
  /\ opcode Sample.fill = 0x02
  /\ (2 <= Gpulib.cmd_lengths 0x02)%nat
  /\ l_pvr ls' = renderer_init
  /\ l_ta ls' = []
  /\ (cpu_cycles_sum ls', cpu_cycles ls') = (7, Gpulib.gput_fill 3 1).
Proof.
  intros ls ls'.
  split; [reflexivity|]. split; [reflexivity|]. split; [exact (le_n 2)|].
  exact (fill_estimate_from_raw_fields Gpulib.cmd_lengths Gpulib.gput_fill
           Gpulib.gput_sum Sample.fill ls eq_refl eq_refl (le_n 2)).
Defined.

(** Bit 10 of the status register after a texture page with bit 10 set. *)
Lemma status_register_low_nine_bits_witness :
  let r := Gpulib.run renderer_init 0 [] Sample.pbuffer0 Sample.set_texpage 0 0 in
  0 <= 10 < 32
  /\ Z.testbit (o_ex_regs1 r) 10 = Z.testbit 0 10.
Proof.
  intros r.
  assert (H : 0 <= 10 < 32) by lia.
  split; [exact H|].
  exact (status_register_low_nine_bits Gpulib.cmd_lengths Gpulib.gput_fill
           Gpulib.gput_sum renderer_init 0 [] Sample.pbuffer0 Sample.set_texpage
           0 0 10 H).
Defined.

(** The offsets (-5, 7). *)
Lemma drawing_offset_sign_extension_witness :
  let ls := entry renderer_init [] Sample.pbuffer0 0 in
  let ls' := do_cmd Gpulib.gput_fill Gpulib.gput_sum ls [encode_offset (-5) 7] in
  -1024 <= -5 <= 1023
  /\ -1024 <= 7 <= 1023
  /\ draw_dx (l_pvr ls') = -5
  /\ draw_dy (l_pvr ls') = 7.
Proof.
  intros ls ls'.
  assert (Hx : -1024 <= -5 <= 1023) by lia.
  assert (Hy : -1024 <= 7 <= 1023) by lia.
  split; [exact Hx|]. split; [exact Hy|].
  destruct (drawing_offset_sign_extension Gpulib.gput_fill Gpulib.gput_sum
              (-5) 7 [] ls Hx Hy) as (_ & Edx & Edy & _).
  split; [exact Edx | exact Edy].
Defined.

(** A shaded triangle with three colour words. *)
Lemma vertex_colour_is_swapped_word_witness :
  let ls := Sample.loaded Sample.shaded_triangle in
  draws 0x30 = true
  /\ exists vs,
       l_ta (dispatch Gpulib.gput_fill Gpulib.gput_sum 0x30 ls)
       = l_ta ls ++ TaHdr :: map TaVertex vs
       /\ forall v, In v vs ->
            exists k, In k (color_words 0x30)
                      /\ argb v = Z.shiftr (bswap32 (U4 (pbuffer ls) k)) 8.
Proof.
  intros ls. split; [reflexivity|].
  destruct (vertex_colour_is_swapped_word Gpulib.gput_fill Gpulib.gput_sum
              0x30 ls eq_refl) as (vs & E & Hv & _).
  exists vs. split; [exact E | exact Hv].
Defined.

(** The line from (0,0) to (10,0) with no offset and no clip origin. *)
Lemma line_expansion_witness :
  let ls := Sample.loaded Sample.line in
  let vs := draw_line renderer_init 0 0 0x332211 10 0 0x332211 in
  (0x40 = 0x40 \/ 0x40 = 0x50)
  /\ l_ta (dispatch Gpulib.gput_fill Gpulib.gput_sum 0x40 ls)
     = TaHdr :: map TaVertex vs
  /\ length vs = 6%nat
  /\ forall v, In v vs -> vy v = 0 \/ vy v = 1.
Proof.
  intros ls vs.
  assert (H : 0x40 = 0x40 \/ 0x40 = 0x50) by (left; reflexivity).
  split; [exact H|].
  destruct (line_expansion Gpulib.gput_fill Gpulib.gput_sum 0x40 ls H)
    as (E & El & _ & _ & Eh).
  split; [exact E|]. split; [exact El|].
  exact (Eh (or_introl (conj eq_refl eq_refl))).
Defined.

(** A NOP, a triangle, an opcode without a case and a fill, on a state
    with every field set. *)
Lemma state_written_by_designated_opcode_witness :
  let cmds := [Sample.nop; Sample.triangle; Sample.unknown; Sample.fill] in
  let p := mk_pvr 0x14802155 16 32 335 271 (-5) 7 1 0 in
  let r := Gpulib.run p 0 [] Sample.pbuffer0 (concat cmds) 0 0 in
  Forall (fun c => is_cmd Gpulib.cmd_lengths c = true) cmds
  /\ o_ret r = 9
  /\ o_pvr r = p.
Proof.
  intros cmds p r.
  assert (H : Forall (fun c => is_cmd Gpulib.cmd_lengths c = true) cmds)
    by (repeat constructor).
  split; [exact H|].
  destruct (state_written_by_designated_opcode Gpulib.cmd_lengths Gpulib.gput_fill
              Gpulib.gput_sum cmds p 0 [] Sample.pbuffer0 0 0 H)
    as (E & _ & _ & _ & _ & _ & Ep).
  split; [exact E|].
  apply Ep. repeat constructor; discriminate.
Defined.

(** A triangle, a fill and a NOP, entered with 5 in the accumulator and a
    carry of 7. *)
Lemma cycles_recorded_for_fills_only_witness :
  let cmds := [Sample.triangle; Sample.fill; Sample.nop] in
  let r := Gpulib.run renderer_init 0 [] Sample.pbuffer0 (concat cmds) 5 7 in
  Forall (fun c => is_cmd Gpulib.cmd_lengths c = true) cmds
  /\ (2 <= Gpulib.cmd_lengths 0x02)%nat
  /\ o_cycles_sum_out r = 12
  /\ o_cycles_last r = Gpulib.gput_fill 3 1.
Proof.
  intros cmds r.
  assert (H : Forall (fun c => is_cmd Gpulib.cmd_lengths c = true) cmds)
    by (repeat constructor).
  split; [exact H|]. split; [exact (le_n 2)|].
  destruct (cycles_recorded_for_fills_only Gpulib.cmd_lengths Gpulib.gput_fill
              Gpulib.gput_sum cmds renderer_init 0 [] Sample.pbuffer0 5 7 H (le_n 2))
    as (E1 & E2 & _).
  split; [exact E1 | exact E2].
Defined.

(** The empty buffer and a single NOP, entered with 5 in the accumulator
    and a carry of 7. *)
Lemma do_cmd_list_empty_witness :
  let r := Gpulib.run renderer_init 0 [] Sample.pbuffer0 [] 5 7 in
  let r' := Gpulib.run renderer_init 0 [] Sample.pbuffer0 Sample.nop 5 7 in
  - 2 ^ 31 <= 5 < 2 ^ 31
  /\ is_cmd Gpulib.cmd_lengths Sample.nop = true
  /\ opcode Sample.nop = 0
  /\ o_ret r = 0
  /\ o_pvr r = renderer_init
  /\ o_cycles_sum_out r = 5
  /\ o_cycles_last r = 7
  /\ o_last_cmd r = 0
  /\ o_last_cmd r' = o_last_cmd r.
Proof.
  intros r r'.
  assert (Hcs : - 2 ^ 31 <= 5 < 2 ^ 31) by lia.
  split; [exact Hcs|]. split; [reflexivity|]. split; [reflexivity|].
  destruct (do_cmd_list_empty Gpulib.cmd_lengths Gpulib.gput_fill Gpulib.gput_sum
              renderer_init 0 [] Sample.pbuffer0 5 7 Sample.nop Hcs eq_refl eq_refl)
    as (E1 & E2 & _ & E3 & E4 & E5 & _ & E6).
  repeat (split; [assumption|]). exact E6.
Defined.

(** ** Where the code departs from the description *)

(** C3 as stated fails.  On a fill at x = 32 of width 3 and height 1,
    [cmd_clear_image] leaves 14 and 1 in [x0] and [w0], not the block
    boundaries 32 and 16, and the estimate recorded is the one of width 3,
    not of width 16. *)
Lemma fill_rounding_counterexample :
  let pb := PacketBuffer.fill Sample.pbuffer0 Sample.fill in
  let r := Gpulib.run renderer_init 0 [] Sample.pbuffer0 Sample.fill 0 0 in
  cmd_clear_image pb = (14, 0, 1, 1)
  /\ fst (fst (fst (cmd_clear_image pb))) <> spec_round16 32
  /\ snd (fst (cmd_clear_image pb)) <> spec_round16 3
  /\ o_cycles_last r = Gpulib.gput_fill 3 1
  /\ o_cycles_last r <> Gpulib.gput_fill (spec_round16 3) 1.
Proof.
  cbv zeta.
  split; [reflexivity|].
  split; [vm_compute; discriminate|].
  split; [vm_compute; discriminate|].
  split; [reflexivity|].
  vm_compute; discriminate.
Qed.

(** C4 as stated fails.  After a set-texture-page command that sets bit 10
    of [pvr.gp1], bit 10 of [gpu.ex_regs[1]] is still clear: the low 11
    bits of the two words differ. *)
Lemma status_register_eleven_bits_counterexample :
  let r := Gpulib.run renderer_init 0 [] Sample.pbuffer0 Sample.set_texpage 0 0 in
  Z.land (gp1 (o_pvr r)) 0x7ff = 0x400
  /\ Z.land (o_ex_regs1 r) 0x7ff = 0
  /\ Z.land (o_ex_regs1 r) 0x7ff <> Z.land (gp1 (o_pvr r)) 0x7ff.
Proof.
  cbv zeta.
  split; [reflexivity|]. split; [reflexivity|].
  vm_compute; discriminate.
Qed.

(** C9 as stated fails.  A triangle, a line and a rectangle leave both
    cycle counters as they were.  A fill adds to the accumulator the carry
    it finds, 0 or 7 for the same command, and leaves its own estimate in
    the carry: no cost function of the commands gives what is added to the
    accumulator. *)
Lemma cycle_cost_counterexample :
  (let r := Gpulib.run renderer_init 0 [] Sample.pbuffer0
              (Sample.triangle ++ Sample.line ++ Sample.rectangle) 5 7 in
   o_ret r = 10 /\ o_cycles_sum_out r = 5 /\ o_cycles_last r = 7)
  /\ (let r0 := Gpulib.run renderer_init 0 [] Sample.pbuffer0 Sample.fill 0 0 in
      let r7 := Gpulib.run renderer_init 0 [] Sample.pbuffer0 Sample.fill 0 7 in
      o_cycles_sum_out r0 = 0 /\ o_cycles_sum_out r7 = 7
      /\ o_cycles_last r0 = Gpulib.gput_fill 3 1
      /\ o_cycles_last r7 = Gpulib.gput_fill 3 1)
  /\ ~ (exists cost : list Z -> Z,
          forall cmds cs cl,
            Forall (fun c => is_cmd Gpulib.cmd_lengths c = true) cmds ->
            o_cycles_sum_out
              (Gpulib.run renderer_init 0 [] Sample.pbuffer0 (concat cmds) cs cl)
            = int32 (cs + fold_right Z.add 0 (map cost cmds))).
Proof.
  split; [cbv zeta; repeat split; reflexivity|].
  split; [cbv zeta; repeat split; reflexivity|].
  intros (cost & H).
  assert (F : Forall (fun c => is_cmd Gpulib.cmd_lengths c = true) [Sample.fill])
    by (repeat constructor).
  pose proof (H [Sample.fill] 0 0 F) as H0.
  pose proof (H [Sample.fill] 0 7 F) as H7.
  assert (E : 0 = 7).
  { transitivity (int32 (0 + fold_right Z.add 0 (map cost [Sample.fill])));
      [exact H0 | symmetry; exact H7]. }
  discriminate E.
Qed.

(** * Further properties *)

(** ** Operand decoding of the state-setting cases *)

(** The mask with [n] ones keeps the low [n] bits, and what the clip and
    mask cases store needs no further truncation. *)
Lemma clip_x_arith w : uint16 (Z.land w 0x3ff) = w mod 2 ^ 10.
Proof.
  unfold uint16. change 0x3ff with (Z.ones 10).
  rewrite Z.land_ones by lia.
  change (2 ^ 10) with 1024. change (2 ^ 16) with 65536.
  Z.div_mod_to_equations. lia.
Qed.

Lemma clip_y_arith w :
  uint16 (Z.land (Z.shiftr w 10) 0x1ff) = w / 2 ^ 10 mod 2 ^ 9.
Proof.
  unfold uint16. change 0x1ff with (Z.ones 9).
  rewrite Z.land_ones, Z.shiftr_div_pow2 by lia.
  change (2 ^ 10) with 1024. change (2 ^ 9) with 512. change (2 ^ 16) with 65536.
  Z.div_mod_to_equations. lia.
Qed.

Lemma mask_set_arith w : Z.land w 0x1 mod 2 = w mod 2.
Proof.
  change 0x1 with (Z.ones 1). rewrite Z.land_ones by lia.
  change (2 ^ 1) with 2. Z.div_mod_to_equations. lia.
Qed.

Lemma mask_check_arith w : Z.shiftr (Z.land w 0x2) 1 mod 2 = w / 2 mod 2.
Proof.
  assert (E : Z.shiftr (Z.land w 0x2) 1 = Z.land (Z.shiftr w 1) 1).
  { rewrite Z.shiftr_land. reflexivity. }
  rewrite E. change 1 with (Z.ones 1) at 2.
  rewrite Z.land_ones, Z.shiftr_div_pow2 by lia.
  change (2 ^ 1) with 2. Z.div_mod_to_equations. lia.
Qed.

(** The texture page case replaces the low 11 bits of a 32-bit [gp1]. *)
Lemma texpage_arith g w :
  0 <= g < 2 ^ 32 ->
  uint32 (Z.lor (Z.land g (Z.lnot 0x7ff)) (Z.land w 0x7ff))
  = g / 2 ^ 11 * 2 ^ 11 + w mod 2 ^ 11.
Proof.
  intros Hg. unfold uint32. change 0x7ff with (Z.ones 11).
  rewrite <- Z.ldiff_land, Z.ldiff_ones_r, Z.land_ones by lia.
  rewrite Z.shiftr_div_pow2 by lia.
  pose proof (Z.mod_pos_bound w (2 ^ 11) ltac:(lia)).
  rewrite (lor_shiftl_low (g / 2 ^ 11) (w mod 2 ^ 11) 11) by lia.
  change (2 ^ 11) with 2048 in *. change (2 ^ 32) with 4294967296 in *.
  Z.div_mod_to_equations. lia.
Qed.

(** ** More on the cases of the switch *)

Section MoreCases.

Variable gput_fill : Z -> Z -> Z.
Variable gput_sum : Z -> Z -> Z -> Z * Z.

#[local] Abbreviation step := (do_cmd gput_fill gput_sum).

(** The loop body on the four other state-setting commands. *)
Lemma step_clip1 w ws ls :
  Z.shiftr w 24 = 0xe3 ->
  l_pvr (step ls (w :: ws))
  = mk_pvr (gp1 (l_pvr ls)) (w mod 2 ^ 10) (w / 2 ^ 10 mod 2 ^ 9)
           (draw_x2 (l_pvr ls)) (draw_y2 (l_pvr ls))
           (draw_dx (l_pvr ls)) (draw_dy (l_pvr ls))
           (set_mask (l_pvr ls)) (check_mask (l_pvr ls)).
Proof.
  intros Ho. unfold do_cmd. simpl hd. rewrite Ho.
  unfold dispatch. cbn.
  rewrite !U4_fill by (simpl; lia). simpl nth.
  rewrite clip_x_arith, clip_y_arith. reflexivity.
Qed.

Lemma step_clip2 w ws ls :
  Z.shiftr w 24 = 0xe4 ->
  l_pvr (step ls (w :: ws))
  = mk_pvr (gp1 (l_pvr ls)) (draw_x1 (l_pvr ls)) (draw_y1 (l_pvr ls))
           (w mod 2 ^ 10) (w / 2 ^ 10 mod 2 ^ 9)
           (draw_dx (l_pvr ls)) (draw_dy (l_pvr ls))
           (set_mask (l_pvr ls)) (check_mask (l_pvr ls)).
Proof.
  intros Ho. unfold do_cmd. simpl hd. rewrite Ho.
  unfold dispatch. cbn.
  rewrite !U4_fill by (simpl; lia). simpl nth.
  rewrite clip_x_arith, clip_y_arith. reflexivity.
Qed.

Lemma step_mask w ws ls :
  Z.shiftr w 24 = 0xe6 ->
  l_pvr (step ls (w :: ws))
  = mk_pvr (gp1 (l_pvr ls)) (draw_x1 (l_pvr ls)) (draw_y1 (l_pvr ls))
           (draw_x2 (l_pvr ls)) (draw_y2 (l_pvr ls))
           (draw_dx (l_pvr ls)) (draw_dy (l_pvr ls))
           (w mod 2) (w / 2 mod 2).
Proof.
  intros Ho. unfold do_cmd. simpl hd. rewrite Ho.
  unfold dispatch. cbn.
  rewrite !U4_fill by (simpl; lia). simpl nth.
  rewrite mask_set_arith, mask_check_arith. reflexivity.
Qed.

Lemma step_texpage w ws ls :
  Z.shiftr w 24 = 0xe1 ->
  0 <= gp1 (l_pvr ls) < 2 ^ 32 ->
  l_pvr (step ls (w :: ws))
  = mk_pvr (gp1 (l_pvr ls) / 2 ^ 11 * 2 ^ 11 + w mod 2 ^ 11)
           (draw_x1 (l_pvr ls)) (draw_y1 (l_pvr ls))
           (draw_x2 (l_pvr ls)) (draw_y2 (l_pvr ls))
           (draw_dx (l_pvr ls)) (draw_dy (l_pvr ls))
           (set_mask (l_pvr ls)) (check_mask (l_pvr ls)).
Proof.
  intros Ho Hg. rewrite <- (texpage_arith _ w Hg).
  unfold do_cmd. simpl hd. rewrite Ho.
  unfold dispatch. cbn.
  rewrite !U4_fill by (simpl; lia). simpl nth.
  reflexivity.
Qed.

Lemma step_offset_full w ws ls :
  Z.shiftr w 24 = 0xe5 ->
  l_pvr (step ls (w :: ws))
  = mk_pvr (gp1 (l_pvr ls)) (draw_x1 (l_pvr ls)) (draw_y1 (l_pvr ls))
           (draw_x2 (l_pvr ls)) (draw_y2 (l_pvr ls))
           ((w + 1024) mod 2048 - 1024) ((w / 2048 + 1024) mod 2048 - 1024)
           (set_mask (l_pvr ls)) (check_mask (l_pvr ls)).
Proof.
  intros Ho. unfold do_cmd. simpl hd. rewrite Ho.
  unfold dispatch. cbn.
  rewrite !U4_fill by (simpl; lia). simpl nth.
  rewrite decode_dx, decode_dy. reflexivity.
Qed.

(** The opcode of a word built from an opcode byte and 24 bits below. *)
Lemma opcode_of_word op low :
  0 <= low < 2 ^ 24 -> Z.shiftr (op * 2 ^ 24 + low) 24 = op.
Proof.
  intros H. rewrite Z.shiftr_div_pow2 by lia.
  change (2 ^ 24) with 16777216 in *. Z.div_mod_to_equations. lia.
Qed.

(** X1. The two clip cases store bits 0-9 of the command word as x and
    bits 10-18 as y, 0xe3 in the top-left corner and 0xe4 in the
    bottom-right one; every corner with x below 1024 and y below 512,
    packed in a command word, is read back as it was. *)
Theorem clip_corners_decode x y ws ls :
  0 <= x < 1024 ->
  0 <= y < 512 ->
  let w3 := 0xe3 * 2 ^ 24 + (y * 2 ^ 10 + x) in
  let w4 := 0xe4 * 2 ^ 24 + (y * 2 ^ 10 + x) in
  (draw_x1 (l_pvr (do_cmd gput_fill gput_sum ls (w3 :: ws))) = x
   /\ draw_y1 (l_pvr (do_cmd gput_fill gput_sum ls (w3 :: ws))) = y)
  /\ (draw_x2 (l_pvr (do_cmd gput_fill gput_sum ls (w4 :: ws))) = x
      /\ draw_y2 (l_pvr (do_cmd gput_fill gput_sum ls (w4 :: ws))) = y)
  /\ (forall w ws', Z.shiftr w 24 = 0xe3 ->
        draw_x1 (l_pvr (do_cmd gput_fill gput_sum ls (w :: ws'))) = w mod 2 ^ 10
        /\ draw_y1 (l_pvr (do_cmd gput_fill gput_sum ls (w :: ws')))
           = w / 2 ^ 10 mod 2 ^ 9)
  /\ (forall w ws', Z.shiftr w 24 = 0xe4 ->
        draw_x2 (l_pvr (do_cmd gput_fill gput_sum ls (w :: ws'))) = w mod 2 ^ 10
        /\ draw_y2 (l_pvr (do_cmd gput_fill gput_sum ls (w :: ws')))
           = w / 2 ^ 10 mod 2 ^ 9).
Proof.
  intros Hx Hy w3 w4.
  assert (H3 : Z.shiftr w3 24 = 0xe3)
    by (apply opcode_of_word; change (2 ^ 24) with 16777216; change (2 ^ 10) with 1024; lia).
  assert (H4 : Z.shiftr w4 24 = 0xe4)
    by (apply opcode_of_word; change (2 ^ 24) with 16777216; change (2 ^ 10) with 1024; lia).
  rewrite (step_clip1 w3 ws ls H3), (step_clip2 w4 ws ls H4).
  cbn [draw_x1 draw_y1 draw_x2 draw_y2].
  subst w3 w4.
  change (2 ^ 24) with 16777216. change (2 ^ 10) with 1024. change (2 ^ 9) with 512.
  repeat split; try (Z.div_mod_to_equations; lia).
  - rewrite (step_clip1 w ws' ls H). reflexivity.
  - rewrite (step_clip1 w ws' ls H). reflexivity.
  - rewrite (step_clip2 w ws' ls H). reflexivity.
  - rewrite (step_clip2 w ws' ls H). reflexivity.
Qed.

(** X2. The mask case stores bit 0 of the command word in [set_mask] and
    bit 1 in [check_mask], whatever the other bits are; the two flags are
    set independently of each other. *)
Theorem mask_bits_decode s c rest ws ls :
  0 <= s <= 1 ->
  0 <= c <= 1 ->
  0 <= rest < 2 ^ 22 ->
  let w := 0xe6 * 2 ^ 24 + (rest * 4 + c * 2 + s) in
  set_mask (l_pvr (do_cmd gput_fill gput_sum ls (w :: ws))) = s
  /\ check_mask (l_pvr (do_cmd gput_fill gput_sum ls (w :: ws))) = c
  /\ (forall w' ws', Z.shiftr w' 24 = 0xe6 ->
        set_mask (l_pvr (do_cmd gput_fill gput_sum ls (w' :: ws'))) = w' mod 2
        /\ check_mask (l_pvr (do_cmd gput_fill gput_sum ls (w' :: ws')))
           = w' / 2 mod 2).
Proof.
  intros Hs Hc Hr w.
  assert (Ho : Z.shiftr w 24 = 0xe6)
    by (apply opcode_of_word; change (2 ^ 24) with 16777216;
        change (2 ^ 22) with 4194304 in Hr; lia).
  rewrite (step_mask w ws ls Ho). cbn [set_mask check_mask]. subst w.
  change (2 ^ 24) with 16777216.
  split; [Z.div_mod_to_equations; lia|].
  split; [Z.div_mod_to_equations; lia|].
  intros w' ws' Ho'. rewrite (step_mask w' ws' ls Ho'). split; reflexivity.
Qed.

(** X3. The texture page case replaces bits 0-10 of [pvr.gp1] by those of
    the command word and keeps bits 11-31; running the same command again
    changes nothing more. *)
Theorem texpage_decode w ws ws' ls :
  Z.shiftr w 24 = 0xe1 ->
  0 <= gp1 (l_pvr ls) < 2 ^ 32 ->
  let g' := gp1 (l_pvr (do_cmd gput_fill gput_sum ls (w :: ws))) in
  g' mod 2 ^ 11 = w mod 2 ^ 11
  /\ g' / 2 ^ 11 = gp1 (l_pvr ls) / 2 ^ 11
  /\ 0 <= g' < 2 ^ 32
  /\ l_pvr (do_cmd gput_fill gput_sum
             (do_cmd gput_fill gput_sum ls (w :: ws)) (w :: ws'))
     = l_pvr (do_cmd gput_fill gput_sum ls (w :: ws)).
Proof.
  intros Ho Hg g'.
  assert (Eg : g' = gp1 (l_pvr ls) / 2 ^ 11 * 2 ^ 11 + w mod 2 ^ 11)
    by (subst g'; rewrite (step_texpage w ws ls Ho Hg); reflexivity).
  assert (Hr : 0 <= g' < 2 ^ 32).
  { rewrite Eg. change (2 ^ 11) with 2048. change (2 ^ 32) with 4294967296 in *.
    Z.div_mod_to_equations. lia. }
  assert (Hm : g' mod 2 ^ 11 = w mod 2 ^ 11).
  { rewrite Eg. change (2 ^ 11) with 2048. Z.div_mod_to_equations. lia. }
  assert (Hd : g' / 2 ^ 11 = gp1 (l_pvr ls) / 2 ^ 11).
  { rewrite Eg. change (2 ^ 11) with 2048. Z.div_mod_to_equations. lia. }
  repeat split; try assumption; try apply Hr.
  rewrite (step_texpage w ws' (step ls (w :: ws)) Ho Hr).
  fold g'. rewrite Hd.
  rewrite (step_texpage w ws ls Ho Hg). reflexivity.
Qed.

End MoreCases.

(** ** What the drawing cases submit *)

(** [int16] is the identity on the range of [int16_t], and lands in it. *)
Lemma int16_small z : - 2 ^ 15 <= z < 2 ^ 15 -> int16 z = z.
Proof.
  intros H. unfold int16. rewrite Z.mod_small by lia. lia.
Qed.

Lemma int16_range z : - 2 ^ 15 <= int16 z < 2 ^ 15.
Proof.
  unfold int16.
  pose proof (Z.mod_pos_bound (z + 2 ^ 15) (2 ^ 16) ltac:(lia)). lia.
Qed.

(** Complete runs followed by entries are judged on the entries. *)
Lemma ta_runs_app a :
  forall o b, ta_runs o a = true -> ta_runs o (a ++ b) = ta_runs false b.
Proof.
  induction a as [|e a IH]; intros o b H; simpl in *.
  - destruct o; [discriminate | reflexivity].
  - destruct e as [|v].
    + apply andb_true_iff in H. destruct H as [Ho Ha].
      rewrite Ho. simpl. apply IH. exact Ha.
    + apply andb_true_iff in H. destruct H as [Ho Ha].
      rewrite Ho. simpl. apply IH. exact Ha.
Qed.

(** Moving the drawing offset moves what [x_to_pvr] and [y_to_pvr] give. *)
Lemma x_to_pvr_move p a b x : x_to_pvr (move_offset p a b) x = x_to_pvr p x + a.
Proof.
  unfold x_to_pvr, move_offset. cbn [draw_dx draw_x1]. lia.
Qed.

Lemma y_to_pvr_move p a b y : y_to_pvr (move_offset p a b) y = y_to_pvr p y + b.
Proof.
  unfold y_to_pvr, move_offset. cbn [draw_dy draw_y1]. lia.
Qed.

(** The six vertices of [draw_line] move with the drawing offset. *)
Lemma draw_line_move p a b x0 y0 c0 x1 y1 c1 :
  map TaVertex (draw_line (move_offset p a b) x0 y0 c0 x1 y1 c1)
  = map (translate a b) (map TaVertex (draw_line p x0 y0 c0 x1 y1 c1)).
Proof.
  unfold draw_line. cbn [map seq nth translate flags argb vx vy].
  rewrite !x_to_pvr_move, !y_to_pvr_move. reflexivity.
Qed.

(** The six vertices of [draw_line] lie in the box of the two endpoints
    widened by one to the right and to the bottom. *)
Lemma draw_line_box p x0 y0 c0 x1 y1 c1 v :
  - 2 ^ 15 <= x0 -> x0 <= x1 -> x1 < 2 ^ 15 - 1 ->
  - 2 ^ 15 <= y0 < 2 ^ 15 - 1 ->
  - 2 ^ 15 <= y1 < 2 ^ 15 - 1 ->
  In v (draw_line p x0 y0 c0 x1 y1 c1) ->
  x_to_pvr p x0 <= vx v <= x_to_pvr p (x1 + 1)
  /\ y_to_pvr p (Z.min y0 y1) <= vy v <= y_to_pvr p (Z.max y0 y1 + 1).
Proof.
  intros Hx0 Hx Hx1 Hy0 Hy1.
  unfold draw_line. cbn [map seq nth].
  destruct (Z.ltb_spec y1 y0) as [Hlt|Hge]; cbn [of_bool Z.eqb];
    intros H;
    repeat (destruct H as [<-|H];
            [cbn [vx vy]; rewrite ?int16_small by lia;
             unfold x_to_pvr, y_to_pvr; lia|]);
    contradiction.
Qed.

Section Drawing.

Variable gput_fill : Z -> Z -> Z.
Variable gput_sum : Z -> Z -> Z -> Z * Z.

#[local] Abbreviation step := (do_cmd gput_fill gput_sum).

(** Splits on the opcode: one goal per case of the switch with the opcode
    known, and one for all the others. *)
Ltac each_opcode cmd :=
  destruct (Z.eqb_spec cmd 0x02); [subst cmd|];
  [|destruct (Z.eqb_spec cmd 0xe1); [subst cmd|];
  [|destruct (Z.eqb_spec cmd 0xe3); [subst cmd|];
  [|destruct (Z.eqb_spec cmd 0xe4); [subst cmd|];
  [|destruct (Z.eqb_spec cmd 0xe5); [subst cmd|];
  [|destruct (Z.eqb_spec cmd 0xe6); [subst cmd|];
  [|destruct (Z.eqb_spec cmd 0x20); [subst cmd|];
  [|destruct (Z.eqb_spec cmd 0x28); [subst cmd|];
  [|destruct (Z.eqb_spec cmd 0x30); [subst cmd|];
  [|destruct (Z.eqb_spec cmd 0x38); [subst cmd|];
  [|destruct (Z.eqb_spec cmd 0x40); [subst cmd|];
  [|destruct (Z.eqb_spec cmd 0x50); [subst cmd|];
  [|destruct (Z.eqb_spec cmd 0x60); [subst cmd|]]]]]]]]]]]]].

(** Every case appends complete runs, as many entries as its opcode
    tells. *)
Lemma dispatch_entries cmd ls :
  exists es,
    l_ta (dispatch gput_fill gput_sum cmd ls) = l_ta ls ++ es
    /\ ta_runs false es = true
    /\ length es = entries_of cmd.
Proof.
  unfold dispatch, cmd_clear_image, entries_of.
  each_opcode cmd; cbn;
    unfold draw_poly, draw_lines, draw_rect; cbv zeta; cbn;
    repeat match goal with
           | |- context [if ?c then _ else _] => destruct c
           end;
    first [ exists (@nil ta_entry);
            split; [symmetry; apply app_nil_r | split; reflexivity]
          | eexists; split; [reflexivity | split; reflexivity] ].
Qed.

(** The loop body appends complete runs. *)
Lemma step_entries ls c :
  exists es,
    l_ta (step ls c) = l_ta ls ++ es
    /\ ta_runs false es = true
    /\ length es = entries_of (opcode c).
Proof.
  unfold do_cmd. fold (opcode c).
  exact (dispatch_entries (opcode c) (load_packet ls c)).
Qed.

(** Every case keeps the state within the ranges of its fields, and bits
    11-31 of [gp1] as they are. *)
Lemma dispatch_range cmd ls :
  pvr_in_range (l_pvr ls) ->
  pvr_in_range (l_pvr (dispatch gput_fill gput_sum cmd ls))
  /\ gp1 (l_pvr (dispatch gput_fill gput_sum cmd ls)) / 2 ^ 11
     = gp1 (l_pvr ls) / 2 ^ 11.
Proof.
  intros (Hg & Hx1 & Hy1 & Hx2 & Hy2 & Hdx & Hdy & Hs & Hc).
  destruct (Z.eqb_spec cmd 0xe1) as [->|N1].
  { unfold dispatch. cbn.
    pose proof (texpage_arith (gp1 (l_pvr ls)) (U4 (pbuffer ls) 0) Hg) as E.
    change (Z.lnot 0x7ff) with (-2048) in E.
    unfold pvr_in_range. cbn. rewrite E.
    change (2 ^ 11) with 2048. change (2 ^ 32) with 4294967296 in *.
    repeat split; try assumption; try apply Hx1; try apply Hy1; try apply Hx2;
      try apply Hy2; try apply Hdx; try apply Hdy; try apply Hs; try apply Hc;
      Z.div_mod_to_equations; lia. }
  destruct (Z.eqb_spec cmd 0xe3) as [->|N3].
  { unfold dispatch. cbn. unfold pvr_in_range. cbn.
    rewrite clip_x_arith, clip_y_arith.
    pose proof (Z.mod_pos_bound (U4 (pbuffer ls) 0) (2 ^ 10) ltac:(lia)).
    pose proof (Z.mod_pos_bound (U4 (pbuffer ls) 0 / 2 ^ 10) (2 ^ 9) ltac:(lia)).
    repeat split; try assumption; try apply Hx2; try apply Hy2; try apply Hdx;
      try apply Hdy; try apply Hs; try apply Hc; try apply Hg; lia. }
  destruct (Z.eqb_spec cmd 0xe4) as [->|N4].
  { unfold dispatch. cbn. unfold pvr_in_range. cbn.
    rewrite clip_x_arith, clip_y_arith.
    pose proof (Z.mod_pos_bound (U4 (pbuffer ls) 0) (2 ^ 10) ltac:(lia)).
    pose proof (Z.mod_pos_bound (U4 (pbuffer ls) 0 / 2 ^ 10) (2 ^ 9) ltac:(lia)).
    repeat split; try assumption; try apply Hx1; try apply Hy1; try apply Hdx;
      try apply Hdy; try apply Hs; try apply Hc; try apply Hg; lia. }
  destruct (Z.eqb_spec cmd 0xe5) as [->|N5].
  { unfold dispatch. cbn. unfold pvr_in_range. cbn.
    rewrite decode_dx, decode_dy.
    pose proof (Z.mod_pos_bound (U4 (pbuffer ls) 0 + 1024) 2048 ltac:(lia)).
    pose proof (Z.mod_pos_bound (U4 (pbuffer ls) 0 / 2048 + 1024) 2048 ltac:(lia)).
    repeat split; try assumption; try apply Hx1; try apply Hy1; try apply Hx2;
      try apply Hy2; try apply Hs; try apply Hc; try apply Hg; lia. }
  destruct (Z.eqb_spec cmd 0xe6) as [->|N6].
  { unfold dispatch. cbn. unfold pvr_in_range. cbn.
    rewrite mask_set_arith, mask_check_arith.
    pose proof (Z.mod_pos_bound (U4 (pbuffer ls) 0) 2 ltac:(lia)).
    pose proof (Z.mod_pos_bound (U4 (pbuffer ls) 0 / 2) 2 ltac:(lia)).
    repeat split; try assumption; try apply Hx1; try apply Hy1; try apply Hx2;
      try apply Hy2; try apply Hdx; try apply Hdy; try apply Hg; lia. }
  rewrite (dispatch_pvr_unchanged gput_fill gput_sum cmd ls N1 N3 N4 N5 N6).
  split; [|reflexivity].
  unfold pvr_in_range. repeat split; try assumption; try apply Hg; try apply Hx1;
    try apply Hy1; try apply Hx2; try apply Hy2; try apply Hdx; try apply Hdy;
    try apply Hs; try apply Hc.
Qed.

(** X4. The drawing offset acts on what a command submits as a
    translation and as nothing else: with the offset moved by [(a, b)],
    every case submits the same entries, each vertex moved by [(a, b)],
    with the same flags and colours. *)
Theorem offset_translates_vertices cmd ls a b :
  let ls' := set_pvr ls (move_offset (l_pvr ls) a b) in
  exists es,
    l_ta (dispatch gput_fill gput_sum cmd ls) = l_ta ls ++ es
    /\ l_ta (dispatch gput_fill gput_sum cmd ls')
       = l_ta ls ++ map (translate a b) es.
Proof.
  intros ls'. subst ls'.
  unfold dispatch, cmd_clear_image.
  each_opcode cmd; cbn;
    unfold draw_poly, draw_lines, draw_rect; cbv zeta; cbn;
    repeat match goal with
           | |- context [if ?c then _ else _] => destruct c
           end;
    rewrite ?app_nil_r, ?draw_line_move, ?x_to_pvr_move, ?y_to_pvr_move;
    first [ exists (@nil ta_entry);
            split; symmetry; apply app_nil_r
          | eexists; split; reflexivity ].
Qed.

(** X5. A line command whose endpoints have coordinates below 32767
    submits vertices that all lie in the bounding box of the two
    endpoints, widened by one pixel to the right and to the bottom. *)
Theorem line_within_bounding_box cmd ls :
  cmd = 0x40 \/ cmd = 0x50 ->
  let pb := pbuffer ls in
  let p := l_pvr ls in
  let xa := int16 (U4 pb 1) in
  let ya := int16 (Z.shiftr (U4 pb 1) 16) in
  let wb := U4 pb (if cmd =? 0x50 then 3%nat else 2%nat) in
  let xb := int16 wb in
  let yb := int16 (Z.shiftr wb 16) in
  xa < 32767 -> ya < 32767 -> xb < 32767 -> yb < 32767 ->
  exists vs,
    l_ta (dispatch gput_fill gput_sum cmd ls) = l_ta ls ++ TaHdr :: map TaVertex vs
    /\ forall v, In v vs ->
         x_to_pvr p (Z.min xa xb) <= vx v <= x_to_pvr p (Z.max xa xb + 1)
         /\ y_to_pvr p (Z.min ya yb) <= vy v <= y_to_pvr p (Z.max ya yb + 1).
Proof.
  intros Hcmd pb p xa ya wb xb yb Hxa Hya Hxb Hyb.
  pose proof (int16_range (U4 pb 1)) as Rxa. fold xa in Rxa.
  pose proof (int16_range (Z.shiftr (U4 pb 1) 16)) as Rya. fold ya in Rya.
  pose proof (int16_range wb) as Rxb. fold xb in Rxb.
  pose proof (int16_range (Z.shiftr wb 16)) as Ryb. fold yb in Ryb.
  change (2 ^ 15) with 32768 in *.
  assert (E : exists c0 c1,
             l_ta (dispatch gput_fill gput_sum cmd ls)
             = l_ta ls ++ TaHdr :: map TaVertex
                 (if xa >? xb then draw_line p xb yb c1 xa ya c0
                  else draw_line p xa ya c0 xb yb c1)).
  { subst xa ya xb yb wb.
    destruct Hcmd as [-> | ->]; unfold dispatch; cbn;
      unfold draw_lines; cbn; rewrite app_nil_r; eexists; eexists; reflexivity. }
  destruct E as (c0 & c1 & E). rewrite E.
  eexists. split; [reflexivity|].
  intros v Hv.
  destruct (Z.gtb_spec xa xb) as [Hgt|Hle].
  - apply draw_line_box in Hv; try (change (2 ^ 15) with 32768; lia).
    rewrite (Z.min_r xa xb), (Z.max_l xa xb) by lia.
    rewrite (Z.min_comm ya yb), (Z.max_comm ya yb). exact Hv.
  - apply draw_line_box in Hv; try (change (2 ^ 15) with 32768; lia).
    rewrite (Z.min_l xa xb), (Z.max_r xa xb) by lia. exact Hv.
Qed.

End Drawing.

Section Shapes.

Variable gput_fill : Z -> Z -> Z.
Variable gput_sum : Z -> Z -> Z -> Z * Z.

(** X6. A polygon command submits a header and 3 vertices, 4 when bit 3
    of the opcode is set, the last one and only the last one with the
    end-of-list flag.  Flat (0x20, 0x28): all vertices have the colour of
    word 0 and vertex [k] has the coordinates of word [k + 1].  Shaded
    (0x30, 0x38): vertex [k] has the colour of word [2k] and the
    coordinates of word [2k + 1]. *)
Theorem polygon_vertices cmd ls :
  cmd = 0x20 \/ cmd = 0x28 \/ cmd = 0x30 \/ cmd = 0x38 ->
  let pb := pbuffer ls in
  let p := l_pvr ls in
  let shaded := Z.testbit cmd 4 in
  let nb := if Z.testbit cmd 3 then 4%nat else 3%nat in
  l_ta (dispatch gput_fill gput_sum cmd ls)
  = l_ta ls ++ TaHdr :: map TaVertex
      (map (fun k : nat =>
              let cw := if shaded then (2 * k)%nat else 0%nat in
              let vw := if shaded then (2 * k + 1)%nat else (k + 1)%nat in
              {| flags := if (k =? nb - 1)%nat then PVR_CMD_VERTEX_EOL
                          else PVR_CMD_VERTEX;
                 argb := Z.shiftr (bswap32 (U4 pb cw)) 8;
                 vx := x_to_pvr p (int16 (U4 pb vw));
                 vy := y_to_pvr p (int16 (Z.shiftr (U4 pb vw) 16)) |})
           (seq 0 nb)).
Proof.
  intros Hcmd pb p shaded nb. subst shaded nb pb p.
  destruct Hcmd as [->|[->|[->| ->]]];
    unfold dispatch; cbn; unfold draw_poly; cbn; unfold bgr_to_rgb; reflexivity.
Qed.

(** X7. The rectangle command submits a header and the four corners of
    the box at [(x, y)] of size [(w, h)], in the order top-left,
    top-right, bottom-left, bottom-right, all with the colour of word 0
    and only the last with the end-of-list flag, as long as [x + w] and
    [y + h] are 16-bit values. *)
Theorem rectangle_corners ls :
  let pb := pbuffer ls in
  let p := l_pvr ls in
  let c := Z.shiftr (bswap32 (U4 pb 0)) 8 in
  let x := int16 (U4 pb 1) in
  let y := int16 (Z.shiftr (U4 pb 1) 16) in
  let w := int16 (U4 pb 2) in
  let h := int16 (Z.shiftr (U4 pb 2) 16) in
  - 2 ^ 15 <= x + w < 2 ^ 15 ->
  - 2 ^ 15 <= y + h < 2 ^ 15 ->
  l_ta (dispatch gput_fill gput_sum 0x60 ls)
  = l_ta ls
    ++ [TaHdr;
        TaVertex (mk_vertex PVR_CMD_VERTEX c (x_to_pvr p x) (y_to_pvr p y));
        TaVertex (mk_vertex PVR_CMD_VERTEX c (x_to_pvr p (x + w)) (y_to_pvr p y));
        TaVertex (mk_vertex PVR_CMD_VERTEX c (x_to_pvr p x) (y_to_pvr p (y + h)));
        TaVertex (mk_vertex PVR_CMD_VERTEX_EOL c (x_to_pvr p (x + w))
                            (y_to_pvr p (y + h)))].
Proof.
  intros pb p c x y w h Hx Hy.
  unfold dispatch. cbn. unfold draw_rect. cbn. unfold bgr_to_rgb.
  fold pb p. fold x y w h.
  rewrite (int16_small (x + w) Hx), (int16_small (y + h) Hy).
  reflexivity.
Qed.

End Shapes.

(** ** Any buffer *)

Section AnyBuffer.

Variable cmd_lengths : Z -> nat.
Variable gput_fill : Z -> Z -> Z.
Variable gput_sum : Z -> Z -> Z -> Z * Z.

#[local] Abbreviation step := (do_cmd gput_fill gput_sum).
#[local] Abbreviation loop := (cmd_loop cmd_lengths gput_fill gput_sum).
#[local] Abbreviation run := (do_cmd_list cmd_lengths gput_fill gput_sum).

(** Every buffer is a sequence of whole commands followed by nothing or
    by one truncated command, and the loop runs the whole commands. *)
Lemma cmd_loop_split n :
  forall buf ls off cmd0,
    (length buf <= n)%nat ->
    exists cmds rest,
      buf = concat cmds ++ rest
      /\ Forall (fun c => is_cmd cmd_lengths c = true) cmds
      /\ (rest = [] \/ is_truncated cmd_lengths rest = true)
      /\ loop buf ls off cmd0
         = (fold_left step cmds ls, (off + length (concat cmds))%nat,
            match rest with
            | [] => last_opcode cmds cmd0
            | _ :: _ => uint32 (-1)
            end).
Proof.
  induction n as [|n IH]; intros buf ls off cmd0 Hn.
  - destruct buf; [|simpl in Hn; lia].
    exists [], []. simp cmd_loop. simpl. rewrite Nat.add_0_r.
    repeat split; auto.
  - destruct buf as [|w rest].
    + exists [], []. simp cmd_loop. simpl. rewrite Nat.add_0_r.
      repeat split; auto.
    + simpl in Hn. simp cmd_loop.
      destruct (length rest <? cmd_lengths (Z.shiftr w 24))%nat eqn:E.
      * exists [], (w :: rest). simpl. rewrite Nat.add_0_r.
        repeat split; auto.
      * apply Nat.ltb_ge in E.
        set (len := cmd_lengths (Z.shiftr w 24)) in *.
        assert (Hc : is_cmd cmd_lengths (w :: firstn len rest) = true).
        { simpl. apply Nat.eqb_eq. rewrite length_firstn. fold len. lia. }
        destruct (IH (skipn len rest) (step ls (w :: firstn len rest))
                     (off + (1 + len))%nat (Z.shiftr w 24))
          as (cmds & tl & Hb & Hw & Ht & Hl).
        { rewrite length_skipn. lia. }
        exists ((w :: firstn len rest) :: cmds), tl.
        split.
        { simpl. rewrite <- app_assoc, <- Hb, firstn_skipn. reflexivity. }
        split; [constructor; assumption|].
        split; [exact Ht|].
        rewrite Hl. simpl.
        rewrite length_app, length_firstn.
        replace (Nat.min len (length rest)) with len by lia.
        unfold last_opcode at 2. simpl. fold (last_opcode cmds (Z.shiftr w 24)).
        f_equal. f_equal. lia.
Qed.

(** The opcode left by commands made of 32-bit words is a byte. *)
Lemma last_opcode_byte cmds :
  forall cmd0,
    0 <= cmd0 < 256 ->
    Forall (fun c => is_cmd cmd_lengths c = true) cmds ->
    Forall is_u32 (concat cmds) ->
    0 <= last_opcode cmds cmd0 < 256.
Proof.
  induction cmds as [|c cmds IH]; intros cmd0 H0 Hc Hu.
  - exact H0.
  - inversion Hc as [|? ? Hc1 Hc2]; subst.
    unfold last_opcode. simpl. fold (last_opcode cmds (opcode c)).
    simpl in Hu. apply Forall_app in Hu. destruct Hu as [Hu1 Hu2].
    apply IH; [|assumption|assumption].
    destruct c as [|w ws]; [discriminate|].
    inversion Hu1 as [|? ? Hw _]; subst.
    unfold opcode. simpl hd. unfold is_u32 in Hw.
    rewrite Z.shiftr_div_pow2 by lia.
    change (2 ^ 32) with 4294967296 in Hw. change (2 ^ 24) with 16777216.
    Z.div_mod_to_equations. lia.
Qed.

(** What a property of the locals needs to hold after a sequence. *)
Lemma fold_step_invariant (P : locals -> Prop) :
  (forall ls c, P ls -> P (step ls c)) ->
  forall cmds ls, P ls -> P (fold_left step cmds ls).
Proof.
  intros Hstep cmds. induction cmds as [|c cmds IH]; intros ls H; simpl.
  - exact H.
  - apply IH, Hstep, H.
Qed.

(** The locals at the exit of the loop are those after some sequence of
    commands. *)
Lemma cmd_loop_invariant (P : locals -> Prop) buf ls off cmd0 :
  (forall ls c, P ls -> P (step ls c)) ->
  P ls ->
  P (fst (fst (loop buf ls off cmd0))).
Proof.
  intros Hstep H.
  destruct (cmd_loop_split (length buf) buf ls off cmd0 (le_n _))
    as (cmds & rest & _ & _ & _ & E).
  rewrite E. simpl. apply fold_step_invariant; assumption.
Qed.

(** X8. On any buffer of 32-bit words [do_cmd_list] consumes a sequence
    of whole commands and leaves a rest that is empty or the beginning of
    one command whose operands are missing: the return value is the
    length of the whole commands, never more than the buffer, and
    [*last_cmd] is -1 exactly when the rest is not empty. *)
Theorem do_cmd_list_any_buffer buf p ex ta pb0 cs cl :
  Forall is_u32 buf ->
  let r := run p ex ta pb0 buf cs cl in
  exists cmds rest,
    buf = concat cmds ++ rest
    /\ Forall (fun c => is_cmd cmd_lengths c = true) cmds
    /\ (rest = [] \/ is_truncated cmd_lengths rest = true)
    /\ o_ret r = Z.of_nat (length (concat cmds))
    /\ 0 <= o_ret r <= Z.of_nat (length buf)
    /\ (o_last_cmd r = -1 <-> rest <> [])
    /\ o_pvr r = l_pvr (fold_left step cmds (entry p ta pb0 cl))
    /\ o_ta r = l_ta (fold_left step cmds (entry p ta pb0 cl)).
Proof.
  intros Hu r. subst r. unfold do_cmd_list.
  destruct (cmd_loop_split (length buf) buf (mk_locals p ta 0 cl pb0) 0%nat 0 (le_n _))
    as (cmds & rest & Hb & Hc & Ht & E).
  exists cmds, rest. rewrite E. cbn [o_ret o_last_cmd o_pvr o_ta].
  split; [exact Hb|]. split; [exact Hc|]. split; [exact Ht|].
  split; [reflexivity|].
  split.
  { assert (L : length buf = (length (concat cmds) + length rest)%nat)
      by (rewrite Hb at 1; apply length_app).
    simpl. lia. }
  split; [|split; reflexivity].
  destruct rest as [|w rest'].
  - rewrite Hb, app_nil_r in Hu.
    pose proof (last_opcode_byte cmds 0 ltac:(lia) Hc Hu) as Hop.
    rewrite int32_small by (change (2 ^ 31) with 2147483648; lia).
    split; [lia | intros N; contradiction].
  - split; [intros _; discriminate | intros _; reflexivity].
Qed.

(** X9. Whatever the buffer, [do_cmd_list] only appends to what was
    submitted, and what it appends is made of complete runs: a header,
    then vertices of which the last one and only the last one has the
    end-of-list flag. *)
Theorem submitted_runs_are_complete buf p ex ta pb0 cs cl :
  exists es,
    o_ta (run p ex ta pb0 buf cs cl) = ta ++ es
    /\ ta_runs false es = true.
Proof.
  unfold do_cmd_list.
  pose proof (cmd_loop_invariant
                (fun ls => exists es, l_ta ls = ta ++ es /\ ta_runs false es = true)
                buf (mk_locals p ta 0 cl pb0) 0%nat 0) as H.
  destruct (loop buf (mk_locals p ta 0 cl pb0) 0%nat 0) as [[ls off] cmd].
  cbn [o_ta]. apply H.
  - intros ls0 c (es & E & R).
    destruct (step_entries gput_fill gput_sum ls0 c) as (es' & E' & R' & _).
    exists (es ++ es'). rewrite E', E, app_assoc. split; [reflexivity|].
    rewrite (ta_runs_app es false es' R). exact R'.
  - exists []. rewrite app_nil_r. split; reflexivity.
Qed.

(** The entries after a sequence of commands. *)
Lemma fold_step_entries cmds :
  forall ls,
    length (l_ta (fold_left step cmds ls))
    = (length (l_ta ls) + list_sum (map (fun c => entries_of (opcode c)) cmds))%nat.
Proof.
  unfold list_sum.
  induction cmds as [|c cmds IH]; intros ls; cbn [fold_left map fold_right].
  - lia.
  - rewrite IH.
    destruct (step_entries gput_fill gput_sum ls c) as (es & E & _ & L).
    rewrite E, length_app, L. lia.
Qed.

(** X10. Over a buffer of whole commands the number of entries submitted
    is the sum over the commands of what their opcode submits: 4 or 5
    for a polygon, 7 for a line, 5 for a rectangle, nothing for any other
    opcode.  Without a drawing opcode in the buffer nothing is
    submitted. *)
Theorem entries_submitted_per_opcode cmds p ex ta pb0 cs cl :
  Forall (fun c => is_cmd cmd_lengths c = true) cmds ->
  let r := run p ex ta pb0 (concat cmds) cs cl in
  length (o_ta r)
  = (length ta + list_sum (map (fun c => entries_of (opcode c)) cmds))%nat
  /\ (Forall (fun c => draws (opcode c) = false) cmds -> o_ta r = ta).
Proof.
  intros Hc r.
  destruct (run_whole_commands cmd_lengths gput_fill gput_sum cmds p ex ta pb0 cs cl Hc)
    as (_ & _ & _ & Hta & _).
  fold r in Hta. rewrite Hta. split.
  - rewrite fold_step_entries. reflexivity.
  - intros Hd.
    apply (fold_step_preserves gput_fill gput_sum l_ta (fun o => draws o = false));
      [|exact Hd].
    intros c ls D.
    destruct (step_entries gput_fill gput_sum ls c) as (es & Ee & _ & L).
    assert (Z0 : entries_of (opcode c) = 0%nat).
    { unfold entries_of. unfold draws in D.
      repeat (apply orb_false_iff in D; destruct D as [D ?]).
      repeat match goal with H : (_ =? _) = false |- _ => rewrite H; clear H end.
      reflexivity. }
    rewrite Z0 in L. destruct es; [|discriminate].
    rewrite Ee, app_nil_r. reflexivity.
Qed.

End AnyBuffer.

(** ** State over any buffer, calls in sequence, and [renderer_sync_ecmds] *)

Section StateAndCalls.

Variable cmd_lengths : Z -> nat.
Variable gput_fill : Z -> Z -> Z.
Variable gput_sum : Z -> Z -> Z -> Z * Z.

#[local] Abbreviation step := (do_cmd gput_fill gput_sum).
#[local] Abbreviation loop := (cmd_loop cmd_lengths gput_fill gput_sum).
#[local] Abbreviation run := (do_cmd_list cmd_lengths gput_fill gput_sum).
#[local] Abbreviation sync := (renderer_sync_ecmds cmd_lengths gput_fill gput_sum).

(** X11. Whatever the buffer, [do_cmd_list] keeps every field of the
    state within the range of its hardware field (10 and 9 bits for the
    clip corners, 11 signed bits for the offsets, one bit for each mask
    flag, 32 bits for [gp1]) and never changes bits 11-31 of [gp1]. *)
Theorem state_stays_in_range buf p ex ta pb0 cs cl :
  pvr_in_range p ->
  let r := run p ex ta pb0 buf cs cl in
  pvr_in_range (o_pvr r)
  /\ gp1 (o_pvr r) / 2 ^ 11 = gp1 p / 2 ^ 11.
Proof.
  intros Hp r. subst r. unfold do_cmd_list.
  pose proof (cmd_loop_invariant cmd_lengths gput_fill gput_sum
                (fun ls => pvr_in_range (l_pvr ls)
                           /\ gp1 (l_pvr ls) / 2 ^ 11 = gp1 p / 2 ^ 11)
                buf (mk_locals p ta 0 cl pb0) 0%nat 0) as H.
  destruct (loop buf (mk_locals p ta 0 cl pb0) 0%nat 0) as [[ls off] cmd].
  cbn [o_pvr]. apply H.
  - intros ls0 c (R & G). unfold do_cmd.
    destruct (dispatch_range gput_fill gput_sum (Z.shiftr (hd 0 c) 24)
                (load_packet ls0 c) R) as (R' & G').
    split; [exact R'|]. rewrite G'. exact G.
  - split; [exact Hp | reflexivity].
Qed.

(** X12. Feeding a stream in two calls, cut between two commands, leaves
    the same state, submitted entries, status register, counters, last
    opcode and total count as one call on the whole stream. *)
Theorem do_cmd_list_in_two_calls cmds rest p ex ta pb0 pb1 cs cl :
  Forall (fun c => is_cmd cmd_lengths c = true) cmds ->
  rest <> [] ->
  table_covers cmd_lengths ->
  gput_sum_carries gput_sum ->
  let r := run p ex ta pb0 (concat cmds) cs cl in
  let second := run (o_pvr r) (o_ex_regs1 r) (o_ta r) pb1 rest
                    (o_cycles_sum_out r) (o_cycles_last r) in
  let whole := run p ex ta pb0 (concat cmds ++ rest) cs cl in
  o_pvr second = o_pvr whole
  /\ o_ta second = o_ta whole
  /\ o_ex_regs1 second = o_ex_regs1 whole
  /\ o_cycles_sum_out second = o_cycles_sum_out whole
  /\ o_cycles_last second = o_cycles_last whole
  /\ o_last_cmd second = o_last_cmd whole
  /\ o_ret r + o_ret second = o_ret whole.
Proof.
  intros Hc Hne Ht Hg r second whole.
  set (ls := fold_left step cmds (entry p ta pb0 cl)).
  assert (Er : r = {| o_pvr := l_pvr ls;
                      o_ex_regs1 := status_writeback ex (gp1 (l_pvr ls));
                      o_ta := l_ta ls;
                      o_cycles_sum_out := int32 (cs + cpu_cycles_sum ls);
                      o_cycles_last := cpu_cycles ls;
                      o_last_cmd := int32 (last_opcode cmds 0);
                      o_ret := Z.of_nat (length (concat cmds)) |}).
  { subst r. unfold do_cmd_list.
    rewrite (cmd_loop_whole cmd_lengths gput_fill gput_sum cmds _ _ _ Hc).
    reflexivity. }
  subst second whole. rewrite Er. cbn [o_pvr o_ex_regs1 o_ta o_cycles_sum_out
                                        o_cycles_last o_ret]. clear Er r.
  unfold do_cmd_list.
  rewrite (cmd_loop_cmds cmd_lengths gput_fill gput_sum cmds Hc).
  fold (entry p ta pb0 cl). fold ls.
  assert (Hv : same_visible (cpu_cycles_sum ls) ls
                 (mk_locals (l_pvr ls) (l_ta ls) 0 (cpu_cycles ls) pb1)).
  { unfold same_visible. simpl. rewrite Z.add_0_r. repeat split; reflexivity. }
  pose proof (cmd_loop_sim cmd_lengths gput_fill gput_sum (cpu_cycles_sum ls)
                (length rest) Ht Hg rest ls _ (0 + length (concat cmds))%nat 0%nat
                (last_opcode cmds 0) 0 (le_n _) Hv) as Hsim.
  cbv zeta in Hsim.
  destruct (loop rest ls (0 + length (concat cmds)) (last_opcode cmds 0))
    as [[la offa] cmda].
  destruct (loop rest _ 0%nat 0) as [[lb offb] cmdb].
  simpl in Hsim. destruct Hsim as ((Hpv & Hta & Hcy & Hsum) & Hoff & Hcmd).
  simpl. rewrite Hpv, Hta, Hcy, (Hcmd Hne).
  fold (status_writeback ex (gp1 (l_pvr ls))).
  fold (status_writeback (status_writeback ex (gp1 (l_pvr ls))) (gp1 (l_pvr lb))).
  fold (status_writeback ex (gp1 (l_pvr lb))).
  rewrite status_writeback_twice.
  repeat split; try reflexivity.
  - rewrite int32_add_l.
    rewrite <- (int32_add_r cs (cpu_cycles_sum la)), Hsum, int32_add_r.
    f_equal. lia.
  - lia.
Qed.

(** The loop body does not submit on a command that does not draw. *)
Lemma step_ta_unchanged ls c :
  draws (opcode c) = false -> l_ta (step ls c) = l_ta ls.
Proof.
  intros D.
  destruct (step_entries gput_fill gput_sum ls c) as (es & Ee & _ & L).
  assert (Z0 : entries_of (opcode c) = 0%nat).
  { unfold entries_of. unfold draws in D.
    repeat (apply orb_false_iff in D; destruct D as [D ?]).
    repeat match goal with H : (_ =? _) = false |- _ => rewrite H; clear H end.
    reflexivity. }
  rewrite Z0 in L. destruct es; [|discriminate].
  rewrite Ee, app_nil_r. reflexivity.
Qed.

(** The loop body on a set-texture-window command changes no state. *)
Lemma step_texwin w ws ls :
  Z.shiftr w 24 = 0xe2 -> l_pvr (step ls (w :: ws)) = l_pvr ls.
Proof.
  intros Ho. unfold do_cmd. simpl hd. rewrite Ho.
  rewrite dispatch_pvr_unchanged by discriminate. reflexivity.
Qed.

(** What [renderer_sync_ecmds] leaves, when the six words are the six
    commands 0xe1 to 0xe6 and the table gives them no operand. *)
Lemma sync_formula p ex ta pb0 dummy e0 e1 e2 e3 e4 e5 e6 tl :
  Z.shiftr e1 24 = 0xe1 -> Z.shiftr e2 24 = 0xe2 -> Z.shiftr e3 24 = 0xe3 ->
  Z.shiftr e4 24 = 0xe4 -> Z.shiftr e5 24 = 0xe5 -> Z.shiftr e6 24 = 0xe6 ->
  (forall k, 1 <= k <= 6 -> cmd_lengths (0xe0 + k) = 0%nat) ->
  0 <= gp1 p < 2 ^ 32 ->
  let s := sync p ex ta pb0 dummy (e0 :: e1 :: e2 :: e3 :: e4 :: e5 :: e6 :: tl) in
  fst (fst s)
  = mk_pvr (gp1 p / 2 ^ 11 * 2 ^ 11 + e1 mod 2 ^ 11)
           (e3 mod 2 ^ 10) (e3 / 2 ^ 10 mod 2 ^ 9)
           (e4 mod 2 ^ 10) (e4 / 2 ^ 10 mod 2 ^ 9)
           ((e5 + 1024) mod 2048 - 1024) ((e5 / 2048 + 1024) mod 2048 - 1024)
           (e6 mod 2) (e6 / 2 mod 2)
  /\ snd s = ta.
Proof.
  intros H1 H2 H3 H4 H5 H6 Hlen Hg s. subst s.
  unfold renderer_sync_ecmds. cbn [skipn firstn fst snd].
  set (cmds := [[e1]; [e2]; [e3]; [e4]; [e5]; [e6]]).
  change [e1; e2; e3; e4; e5; e6] with (concat cmds).
  assert (Hc : Forall (fun c => is_cmd cmd_lengths c = true) cmds).
  { pose proof (Hlen 1 ltac:(lia)) as L1. pose proof (Hlen 2 ltac:(lia)) as L2.
    pose proof (Hlen 3 ltac:(lia)) as L3. pose proof (Hlen 4 ltac:(lia)) as L4.
    pose proof (Hlen 5 ltac:(lia)) as L5. pose proof (Hlen 6 ltac:(lia)) as L6.
    simpl Z.add in L1, L2, L3, L4, L5, L6.
    subst cmds.
    repeat constructor; cbn [is_cmd length];
      rewrite ?H1, ?H2, ?H3, ?H4, ?H5, ?H6, ?L1, ?L2, ?L3, ?L4, ?L5, ?L6;
      reflexivity. }
  destruct (run_whole_commands cmd_lengths gput_fill gput_sum cmds p ex ta pb0
              dummy dummy Hc) as (_ & _ & Hp & Hta & _).
  rewrite Hp, Hta. subst cmds. cbn [fold_left].
  set (ls0 := entry p ta pb0 dummy).
  split.
  - rewrite (step_mask gput_fill gput_sum e6 [] _ H6).
    rewrite (step_offset_full gput_fill gput_sum e5 [] _ H5).
    cbn [gp1 draw_x1 draw_y1 draw_x2 draw_y2 draw_dx draw_dy set_mask check_mask].
    rewrite (step_clip2 gput_fill gput_sum e4 [] _ H4).
    cbn [gp1 draw_x1 draw_y1 draw_x2 draw_y2 draw_dx draw_dy set_mask check_mask].
    rewrite (step_clip1 gput_fill gput_sum e3 [] _ H3).
    cbn [gp1 draw_x1 draw_y1 draw_x2 draw_y2 draw_dx draw_dy set_mask check_mask].
    rewrite (step_texwin e2 [] _ H2).
    rewrite (step_texpage gput_fill gput_sum e1 [] ls0 H1 Hg).
    reflexivity.
  - rewrite !step_ta_unchanged; [reflexivity| | | | | |];
      unfold opcode; cbn [hd];
      rewrite ?H1, ?H2, ?H3, ?H4, ?H5, ?H6; reflexivity.
Qed.

(** X13. [renderer_sync_ecmds], given the saved commands 0xe1 to 0xe6 in
    [ecmds[1]] to [ecmds[6]], submits nothing and sets the clip corners,
    the drawing offset, the mask flags and bits 0-10 of [gp1] from the
    saved words alone, whatever they were before; a second call with the
    same words changes nothing. *)
Theorem renderer_sync_ecmds_restores_state p ex ta pb0 dummy ecmds
    ex' ta' pb1 dummy' :
  (7 <= length ecmds)%nat ->
  (forall k, 1 <= k <= 6 -> Z.shiftr (nth (Z.to_nat k) ecmds 0) 24 = 0xe0 + k) ->
  (forall k, 1 <= k <= 6 -> cmd_lengths (0xe0 + k) = 0%nat) ->
  0 <= gp1 p < 2 ^ 32 ->
  let e k := nth k ecmds 0 in
  let s := sync p ex ta pb0 dummy ecmds in
  let p' := fst (fst s) in
  snd s = ta
  /\ p' = mk_pvr (gp1 p / 2 ^ 11 * 2 ^ 11 + e 1%nat mod 2 ^ 11)
                 (e 3%nat mod 2 ^ 10) (e 3%nat / 2 ^ 10 mod 2 ^ 9)
                 (e 4%nat mod 2 ^ 10) (e 4%nat / 2 ^ 10 mod 2 ^ 9)
                 ((e 5%nat + 1024) mod 2048 - 1024)
                 ((e 5%nat / 2048 + 1024) mod 2048 - 1024)
                 (e 6%nat mod 2) (e 6%nat / 2 mod 2)
  /\ fst (fst (sync p' ex' ta' pb1 dummy' ecmds)) = p'.
Proof.
  intros Hl Hop Hlen Hg e s p'.
  destruct ecmds as [|e0 [|e1 [|e2 [|e3 [|e4 [|e5 [|e6 tl]]]]]]];
    try (simpl in Hl; lia).
  pose proof (Hop 1 ltac:(lia)) as H1. pose proof (Hop 2 ltac:(lia)) as H2.
  pose proof (Hop 3 ltac:(lia)) as H3. pose proof (Hop 4 ltac:(lia)) as H4.
  pose proof (Hop 5 ltac:(lia)) as H5. pose proof (Hop 6 ltac:(lia)) as H6.
  cbn in H1, H2, H3, H4, H5, H6.
  destruct (sync_formula p ex ta pb0 dummy e0 e1 e2 e3 e4 e5 e6 tl
              H1 H2 H3 H4 H5 H6 Hlen Hg) as (Ep & Et).
  fold s in Ep, Et. fold p' in Ep.
  split; [exact Et|]. split; [exact Ep|].
  assert (Hg' : 0 <= gp1 p' < 2 ^ 32).
  { rewrite Ep. cbn [gp1].
    change (2 ^ 11) with 2048. change (2 ^ 32) with 4294967296 in *.
    Z.div_mod_to_equations. lia. }
  destruct (sync_formula p' ex' ta' pb1 dummy' e0 e1 e2 e3 e4 e5 e6 tl
              H1 H2 H3 H4 H5 H6 Hlen Hg') as (Ep' & _).
  rewrite Ep'. rewrite Ep at 2. f_equal.
  rewrite Ep. cbn [gp1]. change (2 ^ 11) with 2048.
  Z.div_mod_to_equations. lia.
Qed.

End StateAndCalls.

(** ** Cycle accounting with gpulib's [gput_sum] *)

Section Cycles.

Variable cmd_lengths : Z -> nat.
Variable gput_fill : Z -> Z -> Z.
Variable gput_sum : Z -> Z -> Z -> Z * Z.

#[local] Abbreviation run := (do_cmd_list cmd_lengths gput_fill gput_sum).

(** The sum of the estimates of the fills of a sequence. *)
Lemma fold_count_cycles_total cmds :
  (forall s c n, gput_sum s c n = (int32 (s + c), int32 n)) ->
  forall s c,
    let sc := fold_left (count_cycles gput_fill gput_sum) cmds (s, c) in
    int32 (fst sc + snd sc)
    = int32 (s + c
             + fold_right Z.add 0
                 (map (fun c => if opcode c =? 0x02 then fill_cost gput_fill c else 0)
                      cmds)).
Proof.
  intros Hg. induction cmds as [|cmd cmds IH]; intros s c; cbn [fold_left map fold_right].
  - cbn [fst snd]. apply f_equal. lia.
  - cbv zeta in IH.
    assert (E : int32 (fst (count_cycles gput_fill gput_sum (s, c) cmd)
                       + snd (count_cycles gput_fill gput_sum (s, c) cmd))
                = int32 (s + c + (if opcode cmd =? 0x02
                                  then fill_cost gput_fill cmd else 0))).
    { unfold count_cycles. cbn [fst snd].
      destruct (opcode cmd =? 0x02).
      - rewrite Hg. cbn [fst snd]. rewrite int32_add_l, int32_add_r. reflexivity.
      - cbn [fst snd]. apply f_equal. lia. }
    destruct (count_cycles gput_fill gput_sum (s, c) cmd) as [s' c'].
    cbn [fst snd] in E.
    rewrite IH, <- int32_add_l, E, int32_add_l. apply f_equal. lia.
Qed.

(** X14. With gpulib's [gput_sum] no estimate is lost or counted twice:
    over a buffer of whole commands the accumulator and the carry
    together grow, modulo 2^32, by the sum of the estimates of the fills
    in the buffer. *)
Theorem cycles_are_conserved cmds p ex ta pb0 cs cl :
  Forall (fun c => is_cmd cmd_lengths c = true) cmds ->
  (2 <= cmd_lengths 0x02)%nat ->
  (forall s c n, gput_sum s c n = (int32 (s + c), int32 n)) ->
  let r := run p ex ta pb0 (concat cmds) cs cl in
  int32 (o_cycles_sum_out r + o_cycles_last r)
  = int32 (cs + cl
           + fold_right Z.add 0
               (map (fun c => if opcode c =? 0x02 then fill_cost gput_fill c else 0)
                    cmds)).
Proof.
  intros Hc Hlen Hg r.
  destruct (run_whole_commands cmd_lengths gput_fill gput_sum cmds p ex ta pb0 cs cl Hc)
    as (_ & _ & _ & _ & Hsum & Hlast & _).
  fold r in Hsum, Hlast. rewrite Hsum, Hlast.
  pose proof (fold_step_cycles cmd_lengths gput_fill gput_sum cmds Hc Hlen
                (entry p ta pb0 cl)) as E.
  cbn [entry cpu_cycles_sum cpu_cycles] in E.
  pose proof (fold_count_cycles_total cmds Hg 0 cl) as T. cbv zeta in T.
  rewrite <- E in T. cbn [fst snd] in T.
  rewrite int32_add_l, <- Z.add_assoc, <- int32_add_r, T, int32_add_r.
  apply f_equal. lia.
Qed.

End Cycles.

(** ** platform.c: pixel conversion *)

(** A byte with its low [k] bits masked off. *)
Lemma byte_high_bits r k :
  0 <= r < 256 -> 0 <= k <= 8 ->
  Z.land r (Z.land 255 (Z.lnot (Z.ones k))) = r / 2 ^ k * 2 ^ k.
Proof.
  intros Hr Hk.
  rewrite Z.land_assoc. change 255 with (Z.ones 8).
  rewrite (Z.land_ones r 8) by lia.
  rewrite (Z.mod_small r (2 ^ 8)) by (change (2 ^ 8) with 256; lia).
  rewrite <- Z.ldiff_land, Z.ldiff_ones_r by lia.
  rewrite Z.shiftl_mul_pow2, Z.shiftr_div_pow2 by lia. reflexivity.
Qed.

Lemma rgb_24_to_16_value r g b :
  0 <= r < 256 -> 0 <= g < 256 -> 0 <= b < 256 ->
  rgb_24_to_16 r g b = r / 8 * 2048 + g / 4 * 32 + b / 8.
Proof.
  intros Hr Hg Hb. unfold rgb_24_to_16, uint16.
  change 0xf8 with (Z.land 255 (Z.lnot (Z.ones 3))).
  change 0xfc with (Z.land 255 (Z.lnot (Z.ones 2))).
  rewrite (byte_high_bits r 3), (byte_high_bits g 2) by lia.
  rewrite !Z.shiftl_mul_pow2, Z.shiftr_div_pow2 by lia.
  change (2 ^ 3) with 8. change (2 ^ 2) with 4. change (2 ^ 8) with 256.
  replace (r / 8 * 8 * 256) with (Z.shiftl (r / 8) 11)
    by (rewrite Z.shiftl_mul_pow2 by lia; change (2 ^ 11) with 2048; lia).
  replace (g / 4 * 4 * 8) with (Z.shiftl (g / 4) 5)
    by (rewrite Z.shiftl_mul_pow2 by lia; change (2 ^ 5) with 32; lia).
  rewrite <- Z.lor_assoc.
  rewrite (lor_shiftl_low (g / 4) (b / 8) 5)
    by (change (2 ^ 5) with 32; Z.div_mod_to_equations; lia).
  rewrite (lor_shiftl_low (r / 8) _ 11)
    by (change (2 ^ 5) with 32; change (2 ^ 11) with 2048;
        Z.div_mod_to_equations; lia).
  change (2 ^ 5) with 32. change (2 ^ 11) with 2048. change (2 ^ 16) with 65536.
  rewrite Z.mod_small by (Z.div_mod_to_equations; lia).
  lia.
Qed.

(** X15. [rgb_24_to_16] packs three bytes as RGB565: the top 5 bits of
    [r] in bits 11-15, the top 6 bits of [g] in bits 5-10 and the top 5
    bits of [b] in bits 0-4; the low bits of each byte are dropped. *)
Theorem rgb_24_to_16_fields r g b :
  0 <= r < 256 -> 0 <= g < 256 -> 0 <= b < 256 ->
  let px := rgb_24_to_16 r g b in
  px = r / 8 * 2048 + g / 4 * 32 + b / 8
  /\ 0 <= px < 65536
  /\ px / 2048 = r / 8
  /\ px / 32 mod 64 = g / 4
  /\ px mod 32 = b / 8.
Proof.
  intros Hr Hg Hb px. subst px.
  rewrite (rgb_24_to_16_value r g b Hr Hg Hb).
  repeat split; Z.div_mod_to_equations; lia.
Qed.

(** A property of all [i] from 0 to 31 can be checked on each. *)
Lemma forall_below_32 (P : Z -> Prop) :
  Forall P (map Z.of_nat (seq 0 32)) -> forall i, 0 <= i < 32 -> P i.
Proof.
  intros H i Hi. rewrite Forall_forall in H. apply H.
  apply in_map_iff. exists (Z.to_nat i). split; [lia|].
  apply in_seq. lia.
Qed.

Ltac eval_conditions :=
  repeat match goal with
         | |- context [if ?c then _ else _] =>
             let b := eval vm_compute in c in change c with b; cbv iota
         end.

(** Bit [i] of the word that [copy15] writes for the word [w]. *)
Lemma copy15_pixels_bit w i :
  0 <= i < 32 ->
  Z.testbit (copy15_pixels w) i
  = if i mod 16 <? 5 then Z.testbit w (i + 10)
    else if i mod 16 <? 10 then Z.testbit w i
    else if i mod 16 <? 15 then Z.testbit w (i - 10)
    else false.
Proof.
  revert i. apply forall_below_32. cbn [map seq Z.of_nat Pos.of_succ_nat Pos.succ].
  unfold copy15_pixels, uint32.
  repeat constructor;
    rewrite !Z.lor_spec, !Z.land_spec, Z.mod_pow2_bits_low, Z.shiftl_spec,
      Z.shiftr_spec, Z.land_spec by lia;
    generalize (Z.testbit w); intros f; cbn;
    repeat match goal with
           | |- context [f ?k] => destruct (f k)
           end; reflexivity.
Qed.

(** The word that [copy15] writes is a 32-bit word. *)
Lemma copy15_pixels_high w i : 32 <= i -> Z.testbit (copy15_pixels w) i = false.
Proof.
  intros Hi. unfold copy15_pixels, uint32.
  rewrite !Z.lor_spec, !Z.land_spec, Z.mod_pow2_bits_high by lia.
  rewrite (Z.bits_above_log2 0x03e003e0 i) by (cbn; lia).
  rewrite (Z.bits_above_log2 0x001f001f i) by (cbn; lia).
  rewrite !andb_false_r. reflexivity.
Qed.

(** X16. The conversion of [copy15] exchanges, in each of the two 16-bit
    pixels of a word, the 5-bit fields at bits 0-4 and 10-14, keeps the
    field at bits 5-9 and clears bit 15; done twice it gives the word
    back with the two bits 15 cleared. *)
Theorem copy15_pixels_swaps_red_and_blue w i :
  0 <= i < 32 ->
  Z.testbit (copy15_pixels w) i
  = (if i mod 16 <? 5 then Z.testbit w (i + 10)
     else if i mod 16 <? 10 then Z.testbit w i
     else if i mod 16 <? 15 then Z.testbit w (i - 10)
     else false)
  /\ copy15_pixels (copy15_pixels w) = Z.land w 0x7fff7fff.
Proof.
  intros Hi. split; [exact (copy15_pixels_bit w i Hi)|].
  apply Z.bits_inj'. intros j Hj.
  destruct (Z.lt_ge_cases j 32) as [Hlt|Hge].
  - revert j Hj Hlt.
    assert (H : forall j, 0 <= j < 32 ->
                Z.testbit (copy15_pixels (copy15_pixels w)) j
                = Z.testbit (Z.land w 0x7fff7fff) j).
    { apply forall_below_32. cbn [map seq Z.of_nat Pos.of_succ_nat Pos.succ].
      repeat constructor;
        rewrite copy15_pixels_bit by lia; eval_conditions;
        try (rewrite copy15_pixels_bit by lia; eval_conditions);
        rewrite Z.land_spec;
        generalize (Z.testbit w); intros f; cbn;
        repeat match goal with
               | |- context [f ?k] => destruct (f k)
               end; reflexivity. }
    intros j Hj Hlt. apply H. lia.
  - rewrite copy15_pixels_high by lia.
    rewrite Z.land_spec, (Z.bits_above_log2 0x7fff7fff j) by (cbn; lia).
    rewrite andb_false_r. reflexivity.
Qed.

(** ** platform.c: the copy loops *)

Lemma flat_map_seq_S {B} (f : nat -> list B) n :
  flat_map f (seq 1 n) = flat_map (fun k => f (S k)) (seq 0 n).
Proof.
  rewrite <- seq_shift, !flat_map_concat_map, map_map. reflexivity.
Qed.

Lemma flat_map_const_length {A B} (f : A -> list B) l c :
  (forall a, length (f a) = c) -> length (flat_map f l) = (length l * c)%nat.
Proof.
  intros H. induction l as [|a l IH]; [reflexivity|].
  cbn [flat_map length]. rewrite length_app, H, IH. lia.
Qed.

Lemma uint32_small z : 0 <= z < 2 ^ 32 -> uint32 z = z.
Proof. intros H. unfold uint32. apply Z.mod_small. exact H. Qed.

(** Truncating division when it is exact. *)
Lemma quot_exact z d : 0 < d -> z mod d = 0 -> Z.quot z d = z / d.
Proof.
  intros Hd H. assert (E : z = z / d * d) by (Z.div_mod_to_equations; nia).
  rewrite E at 1. apply Z.quot_mul. lia.
Qed.

(** The row loop in closed form: block [k] reads at [src + nread * k] and
    writes at [line + 8 * k]. *)
Lemma sq_row_closed block nread n : forall src line,
  sq_row block nread n src line
  = (flat_map (fun k : nat => block (src + nread * Z.of_nat k) (line + 8 * Z.of_nat k))
       (seq 0 n),
     src + nread * Z.of_nat n).
Proof.
  induction n as [|n IH]; intros src line.
  - cbn [sq_row seq flat_map]. f_equal. lia.
  - cbn [sq_row]. rewrite IH. cbn [seq flat_map]. rewrite flat_map_seq_S.
    f_equal; [|lia]. f_equal.
    + f_equal; lia.
    + apply flat_map_ext. intros k. f_equal; lia.
Qed.

(** The two loops in closed form: rows are [nread * nblocks + skip] words
    apart in the source and 512 words apart in the destination. *)
Lemma sq_rows_closed block nread nblocks skip rows : forall src dest,
  sq_rows block nread nblocks skip rows src dest
  = flat_map (fun y : nat =>
       flat_map (fun k : nat =>
          block (src + (nread * Z.of_nat nblocks + skip) * Z.of_nat y + nread * Z.of_nat k)
                (dest + 512 * Z.of_nat y + 8 * Z.of_nat k))
         (seq 0 nblocks))
      (seq 0 rows).
Proof.
  induction rows as [|r IH]; intros src dest; [reflexivity|].
  cbn [sq_rows]. rewrite sq_row_closed, IH. cbn [seq flat_map].
  rewrite flat_map_seq_S. f_equal.
  - apply flat_map_ext. intros k. f_equal; lia.
  - apply flat_map_ext. intros y. apply flat_map_ext. intros k. f_equal; lia.
Qed.

Lemma sq_rows_In block nread nblocks skip rows src dest x :
  In x (sq_rows block nread nblocks skip rows src dest)
  <-> exists y k : nat,
        (y < rows)%nat /\ (k < nblocks)%nat
        /\ In x (block (src + (nread * Z.of_nat nblocks + skip) * Z.of_nat y
                        + nread * Z.of_nat k)
                       (dest + 512 * Z.of_nat y + 8 * Z.of_nat k)).
Proof.
  rewrite sq_rows_closed, in_flat_map. split.
  - intros (y & Hy & H). apply in_flat_map in H. destruct H as (k & Hk & H).
    apply in_seq in Hy, Hk. exists y, k. repeat split; [lia|lia|exact H].
  - intros (y & k & Hy & Hk & H). exists y. split; [apply in_seq; lia|].
    apply in_flat_map. exists k. split; [apply in_seq; lia|exact H].
Qed.

Lemma sq_rows_length block nread nblocks skip rows src dest :
  (forall s l, length (block s l) = 8%nat) ->
  length (sq_rows block nread nblocks skip rows src dest) = (rows * (nblocks * 8))%nat.
Proof.
  intros H. rewrite sq_rows_closed.
  rewrite (flat_map_const_length _ _ (nblocks * 8)%nat).
  - rewrite length_seq. reflexivity.
  - intros y. rewrite (flat_map_const_length _ _ 8%nat).
    + rewrite length_seq. reflexivity.
    + intros k. apply H.
Qed.

Lemma copy15_block_In vram32 src line off v :
  In (off, v) (copy15_block vram32 src line)
  <-> exists i, 0 <= i < 8 /\ off = line + i
                /\ v = copy15_pixels (vram32 (src + i)).
Proof.
  unfold copy15_block. rewrite in_map_iff. split.
  - intros (i & E & Hi). apply in_seq in Hi. inversion E; subst.
    exists (Z.of_nat i). repeat split; lia.
  - intros (i & Hi & -> & ->). exists (Z.to_nat i). split.
    + rewrite Z2Nat.id by lia. reflexivity.
    + apply in_seq. lia.
Qed.

Lemma copy15_In vram32 stride w h off v :
  0 <= w < 2 ^ 31 -> 0 <= h < 2 ^ 31 -> - 2 ^ 31 <= stride - w < 2 ^ 31 ->
  In (off, v) (copy15 vram32 stride w h)
  <-> exists y k,
        0 <= y < h /\ 0 <= k < 8 * ((w + 15) / 16)
        /\ off = 512 * y + k
        /\ v = copy15_pixels
                 (vram32 ((8 * ((w + 15) / 16) + Z.quot (stride - w) 2) * y + k)).
Proof.
  intros Hw Hh Hs. unfold copy15, blocks16.
  rewrite (uint32_small w), (uint32_small h), int32_small by lia.
  rewrite sq_rows_In.
  assert (Hn : 0 <= (w + 15) / 16) by (Z.div_mod_to_equations; lia).
  rewrite Z2Nat.id by exact Hn.
  set (n := (w + 15) / 16) in *. set (q := Z.quot (stride - w) 2).
  split.
  - intros (y & b & Hy & Hb & H). apply copy15_block_In in H.
    destruct H as (i & Hi & -> & ->).
    exists (Z.of_nat y), (8 * Z.of_nat b + i). repeat split; try lia.
    f_equal. f_equal. lia.
  - intros (y & k & Hy & Hk & -> & ->).
    exists (Z.to_nat y), (Z.to_nat (k / 8)).
    assert (0 <= k / 8 < n) by (Z.div_mod_to_equations; lia).
    repeat split; try lia.
    apply copy15_block_In. exists (k mod 8).
    rewrite !Z2Nat.id by lia.
    repeat split; try (Z.div_mod_to_equations; lia).
    f_equal. f_equal. Z.div_mod_to_equations; lia.
Qed.

(** X17. [copy15] on a [w] by [h] picture writes, for each row [y] below
    [h], the words [512 * y] to [512 * y + 8 * ceil(w / 16) - 1] of the
    texture: the width is rounded up to whole blocks of 16 pixels.  Word
    [k] of row [y] is the conversion of the source word
    [(8 * ceil(w / 16) + (stride - w) / 2) * y + k], and nothing else is
    written. *)
Theorem copy15_layout vram32 stride w h :
  0 <= w < 2 ^ 31 -> 0 <= h < 2 ^ 31 -> - 2 ^ 31 <= stride - w < 2 ^ 31 ->
  (forall off v,
     In (off, v) (copy15 vram32 stride w h)
     <-> exists y k,
           0 <= y < h /\ 0 <= k < 8 * ((w + 15) / 16)
           /\ off = 512 * y + k
           /\ v = copy15_pixels
                    (vram32 ((8 * ((w + 15) / 16) + Z.quot (stride - w) 2) * y + k)))
  /\ Z.of_nat (length (copy15 vram32 stride w h)) = h * (8 * ((w + 15) / 16)).
Proof.
  intros Hw Hh Hs. split.
  - intros off v. apply copy15_In; assumption.
  - unfold copy15, blocks16. rewrite sq_rows_length.
    + rewrite (uint32_small w), (uint32_small h) by lia.
      assert (0 <= (w + 15) / 16) by (Z.div_mod_to_equations; lia).
      rewrite !Nat2Z.inj_mul, !Z2Nat.id by lia. change (Z.of_nat 8) with 8. lia.
    + intros s l. unfold copy15_block. rewrite length_map, length_seq. reflexivity.
Qed.

(** X18. When the width is a multiple of 16 and the stride is even, the
    rows of the source are [stride / 2] words apart, and [copy15] puts the
    conversion of word [k] of row [y] of the picture at word [k] of row
    [y] of the 1024-pixel-wide texture. *)
Theorem copy15_aligned vram32 stride w h y k :
  0 <= w < 2 ^ 31 -> 0 <= h < 2 ^ 31 -> - 2 ^ 31 <= stride - w < 2 ^ 31 ->
  w mod 16 = 0 -> stride mod 2 = 0 ->
  0 <= y < h -> 0 <= k < w / 2 ->
  In (512 * y + k, copy15_pixels (vram32 (stride / 2 * y + k)))
     (copy15 vram32 stride w h).
Proof.
  intros Hw Hh Hs Hw16 Hs2 Hy Hk.
  apply copy15_In; try assumption.
  exists y, k.
  assert (E : 8 * ((w + 15) / 16) + Z.quot (stride - w) 2 = stride / 2).
  { rewrite quot_exact by (Z.div_mod_to_equations; lia).
    Z.div_mod_to_equations; lia. }
  rewrite E. repeat split; try lia. Z.div_mod_to_equations; lia.
Qed.

Lemma uint8_byte_of w k : 0 <= k -> uint8 (Z.shiftr w (8 * k)) = byte_of w k.
Proof.
  intros Hk. unfold uint8, byte_of. change 255 with (Z.ones 8).
  rewrite Z.land_ones by lia. reflexivity.
Qed.

Lemma byte_of_range w k : 0 <= byte_of w k < 256.
Proof.
  unfold byte_of. change 255 with (Z.ones 8). rewrite Z.land_ones by lia.
  change (2 ^ 8) with 256. apply Z.mod_pos_bound. lia.
Qed.

(** A pixel from three bytes, and two pixels in a word. *)
Lemma rgb_of_bytes w k w' k' w'' k'' :
  rgb_24_to_16 (byte_of w k) (byte_of w' k') (byte_of w'' k'')
  = byte_of w k / 8 * 2048 + byte_of w' k' / 4 * 32 + byte_of w'' k'' / 8.
Proof. apply rgb_24_to_16_value; apply byte_of_range. Qed.

Lemma two_pixels a b c a' b' c' :
  0 <= a < 256 -> 0 <= b < 256 -> 0 <= c < 256 ->
  0 <= a' < 256 -> 0 <= b' < 256 -> 0 <= c' < 256 ->
  uint32 (Z.lor (Z.shiftl (a' / 8 * 2048 + b' / 4 * 32 + c' / 8) 16)
                (a / 8 * 2048 + b / 4 * 32 + c / 8))
  = (a / 8 * 2048 + b / 4 * 32 + c / 8)
    + 65536 * (a' / 8 * 2048 + b' / 4 * 32 + c' / 8).
Proof.
  intros. rewrite lor_shiftl_low
    by (change (2 ^ 16) with 65536; Z.div_mod_to_equations; lia).
  change (2 ^ 16) with 65536. rewrite uint32_small; [lia|].
  Z.div_mod_to_equations; lia.
Qed.

(** X19. One group of [copy24] turns twelve source bytes, taken in
    memory order from three little-endian words, into four RGB565 pixels
    in the same order: pixel [j] is made of the bytes [3 j], [3 j + 1]
    and [3 j + 2], the first in the top field, and the pixels are stored
    two to a word, the earlier one in the low half. *)
Theorem copy24_group_pixels w0 w1 w2 :
  let B n := byte_of (nth (Z.to_nat (n / 4)) [w0; w1; w2] 0) (n mod 4) in
  let px j := B (3 * j) / 8 * 2048 + B (3 * j + 1) / 4 * 32 + B (3 * j + 2) / 8 in
  copy24_group w0 w1 w2 = (px 0 + 65536 * px 1, px 2 + 65536 * px 3).
Proof.
  intros B px. unfold copy24_group.
  replace (uint8 w0) with (byte_of w0 0)
    by (rewrite <- uint8_byte_of by lia; rewrite Z.shiftr_0_r; reflexivity).
  replace (uint8 w1) with (byte_of w1 0)
    by (rewrite <- uint8_byte_of by lia; rewrite Z.shiftr_0_r; reflexivity).
  replace (uint8 w2) with (byte_of w2 0)
    by (rewrite <- uint8_byte_of by lia; rewrite Z.shiftr_0_r; reflexivity).
  rewrite !(uint8_byte_of _ 1), !(uint8_byte_of _ 2), !(uint8_byte_of _ 3) by lia.
  rewrite !rgb_of_bytes.
  rewrite !two_pixels by apply byte_of_range.
  reflexivity.
Qed.

Lemma copy24_block_In vram32 src line off v :
  In (off, v) (copy24_block vram32 src line)
  <-> exists g,
        0 <= g < 4
        /\ ((off, v) = (line + 2 * g,
                        fst (copy24_group (vram32 (src + 3 * g))
                               (vram32 (src + 3 * g + 1)) (vram32 (src + 3 * g + 2))))
            \/ (off, v) = (line + 2 * g + 1,
                           snd (copy24_group (vram32 (src + 3 * g))
                                  (vram32 (src + 3 * g + 1)) (vram32 (src + 3 * g + 2))))).
Proof.
  unfold copy24_block. rewrite in_flat_map. split.
  - intros (g & Hg & H). apply in_seq in Hg. exists (Z.of_nat g). split; [lia|].
    destruct (copy24_group _ _ _) as [l0 l1]. cbn [fst snd].
    destruct H as [H|[H|[]]]; [left|right]; symmetry; exact H.
  - intros (g & Hg & H). exists (Z.to_nat g). split; [apply in_seq; lia|].
    rewrite Z2Nat.id by lia.
    destruct (copy24_group _ _ _) as [l0 l1]. cbn [fst snd] in H.
    destruct H as [H|H]; [left|right; left]; symmetry; exact H.
Qed.

Lemma copy24_In vram32 stride w h off v :
  0 <= w * 3 < 2 ^ 31 -> 0 <= h < 2 ^ 31 ->
  - 2 ^ 31 <= stride * 2 < 2 ^ 31 ->
  - 2 ^ 31 <= stride * 2 - w * 3 < 2 ^ 31 ->
  In (off, v) (copy24 vram32 stride w h)
  <-> exists y g,
        0 <= y < h /\ 0 <= g < 4 * ((w + 15) / 16)
        /\ let s := (12 * ((w + 15) / 16) + Z.quot (stride * 2 - w * 3) 4) * y + 3 * g in
           let ls := copy24_group (vram32 s) (vram32 (s + 1)) (vram32 (s + 2)) in
           (off, v) = (512 * y + 2 * g, fst ls)
           \/ (off, v) = (512 * y + 2 * g + 1, snd ls).
Proof.
  intros Hw Hh Hs2 Hs. unfold copy24, blocks16.
  rewrite (uint32_small w), (uint32_small h), int32_small by lia.
  rewrite sq_rows_In.
  assert (Hn : 0 <= (w + 15) / 16) by (Z.div_mod_to_equations; lia).
  rewrite Z2Nat.id by exact Hn.
  set (n := (w + 15) / 16) in *. set (q := Z.quot (stride * 2 - w * 3) 4).
  split.
  - intros (y & b & Hy & Hb & H). apply copy24_block_In in H.
    destruct H as (g & Hg & H).
    exists (Z.of_nat y), (4 * Z.of_nat b + g). repeat split; try lia.
    cbv zeta.
    replace ((12 * n + q) * Z.of_nat y + 3 * (4 * Z.of_nat b + g))
      with (0 + (12 * n + q) * Z.of_nat y + 12 * Z.of_nat b + 3 * g) by lia.
    replace (512 * Z.of_nat y + 2 * (4 * Z.of_nat b + g))
      with (0 + 512 * Z.of_nat y + 8 * Z.of_nat b + 2 * g) by lia.
    exact H.
  - intros (y & g & Hy & Hg & H).
    exists (Z.to_nat y), (Z.to_nat (g / 4)).
    assert (0 <= g / 4 < n) by (Z.div_mod_to_equations; lia).
    repeat split; try lia.
    apply copy24_block_In. exists (g mod 4).
    split; [Z.div_mod_to_equations; lia|].
    rewrite !Z2Nat.id by lia. cbv zeta in H.
    replace (0 + (12 * n + q) * y + 12 * (g / 4) + 3 * (g mod 4))
      with ((12 * n + q) * y + 3 * g) by (Z.div_mod_to_equations; lia).
    replace (0 + 512 * y + 8 * (g / 4) + 2 * (g mod 4))
      with (512 * y + 2 * g) by (Z.div_mod_to_equations; lia).
    exact H.
Qed.

(** X20. [copy24] on a [w] by [h] picture writes the same words of the
    texture as [copy15]: for each row [y] below [h] and each group [g]
    below [4 * ceil(w / 16)], the two words [512 * y + 2 * g] and
    [512 * y + 2 * g + 1], made from the three source words at
    [(12 * ceil(w / 16) + (2 * stride - 3 * w) / 4) * y + 3 * g]; nothing
    else is written. *)
Theorem copy24_layout vram32 stride w h :
  0 <= w * 3 < 2 ^ 31 -> 0 <= h < 2 ^ 31 ->
  - 2 ^ 31 <= stride * 2 < 2 ^ 31 ->
  - 2 ^ 31 <= stride * 2 - w * 3 < 2 ^ 31 ->
  (forall off v,
     In (off, v) (copy24 vram32 stride w h)
     <-> exists y g,
           0 <= y < h /\ 0 <= g < 4 * ((w + 15) / 16)
           /\ let s := (12 * ((w + 15) / 16) + Z.quot (stride * 2 - w * 3) 4) * y
                       + 3 * g in
              let ls := copy24_group (vram32 s) (vram32 (s + 1)) (vram32 (s + 2)) in
              (off, v) = (512 * y + 2 * g, fst ls)
              \/ (off, v) = (512 * y + 2 * g + 1, snd ls))
  /\ Z.of_nat (length (copy24 vram32 stride w h)) = h * (8 * ((w + 15) / 16)).
Proof.
  intros Hw Hh Hs2 Hs. split.
  - intros off v. apply copy24_In; assumption.
  - unfold copy24, blocks16. rewrite sq_rows_length.
    + rewrite (uint32_small w), (uint32_small h) by lia.
      assert (0 <= (w + 15) / 16) by (Z.div_mod_to_equations; lia).
      rewrite !Nat2Z.inj_mul, !Z2Nat.id by lia. change (Z.of_nat 8) with 8. lia.
    + intros s l. unfold copy24_block.
      rewrite (flat_map_const_length _ _ 2%nat).
      * rewrite length_seq. reflexivity.
      * intros g. destruct (copy24_group _ _ _). reflexivity.
Qed.

(** X21. When the width is a multiple of 16 and the stride is even, the
    rows that [copy24] reads are [stride / 2] words apart, as in
    [copy15]: group [g] of row [y] is read at [stride / 2 * y + 3 * g]. *)
Theorem copy24_aligned vram32 stride w h y g :
  0 <= w * 3 < 2 ^ 31 -> 0 <= h < 2 ^ 31 ->
  - 2 ^ 31 <= stride * 2 < 2 ^ 31 ->
  - 2 ^ 31 <= stride * 2 - w * 3 < 2 ^ 31 ->
  w mod 16 = 0 -> stride mod 2 = 0 ->
  0 <= y < h -> 0 <= g < w / 4 ->
  let s := stride / 2 * y + 3 * g in
  let ls := copy24_group (vram32 s) (vram32 (s + 1)) (vram32 (s + 2)) in
  In (512 * y + 2 * g, fst ls) (copy24 vram32 stride w h)
  /\ In (512 * y + 2 * g + 1, snd ls) (copy24 vram32 stride w h).
Proof.
  intros Hw Hh Hs2 Hs Hw16 Hst Hy Hg s ls.
  assert (E : 12 * ((w + 15) / 16) + Z.quot (stride * 2 - w * 3) 4 = stride / 2).
  { rewrite quot_exact by (Z.div_mod_to_equations; lia).
    Z.div_mod_to_equations; lia. }
  split; apply copy24_In; try assumption; exists y, g;
    (split; [lia|]); (split; [Z.div_mod_to_equations; lia|]);
    rewrite E; [left|right]; reflexivity.
Qed.

(** ** The further properties at sample inputs *)

(** The corner (335, 271). *)
Lemma clip_corners_decode_witness :
  let ls := entry renderer_init [] Sample.pbuffer0 0 in
  let step := do_cmd Gpulib.gput_fill Gpulib.gput_sum in
  0 <= 335 < 1024
  /\ 0 <= 271 < 512
  /\ draw_x1 (l_pvr (step ls [0xe3 * 2 ^ 24 + (271 * 2 ^ 10 + 335)])) = 335
  /\ draw_y1 (l_pvr (step ls [0xe3 * 2 ^ 24 + (271 * 2 ^ 10 + 335)])) = 271
  /\ draw_x2 (l_pvr (step ls [0xe4 * 2 ^ 24 + (271 * 2 ^ 10 + 335)])) = 335
  /\ draw_y2 (l_pvr (step ls [0xe4 * 2 ^ 24 + (271 * 2 ^ 10 + 335)])) = 271.
Proof.
  intros ls step.
  assert (Hx : 0 <= 335 < 1024) by lia.
  assert (Hy : 0 <= 271 < 512) by lia.
  split; [exact Hx|]. split; [exact Hy|].
  destruct (clip_corners_decode Gpulib.gput_fill Gpulib.gput_sum 335 271 [] ls
              Hx Hy) as ((E1 & E2) & (E3 & E4) & _).
  split; [exact E1|]. split; [exact E2|]. split; [exact E3 | exact E4].
Defined.

(** Set the mask on drawing, do not check it, other bits set. *)
Lemma mask_bits_decode_witness :
  let ls := entry renderer_init [] Sample.pbuffer0 0 in
  let w := 0xe6 * 2 ^ 24 + (0x1234 * 4 + 0 * 2 + 1) in
  0 <= 1 <= 1
  /\ 0 <= 0 <= 1
  /\ 0 <= 0x1234 < 2 ^ 22
  /\ set_mask (l_pvr (do_cmd Gpulib.gput_fill Gpulib.gput_sum ls [w])) = 1
  /\ check_mask (l_pvr (do_cmd Gpulib.gput_fill Gpulib.gput_sum ls [w])) = 0.
Proof.
  intros ls w.
  assert (Hs : 0 <= 1 <= 1) by lia.
  assert (Hc : 0 <= 0 <= 1) by lia.
  assert (Hr : 0 <= 0x1234 < 2 ^ 22) by lia.
  split; [exact Hs|]. split; [exact Hc|]. split; [exact Hr|].
  destruct (mask_bits_decode Gpulib.gput_fill Gpulib.gput_sum 1 0 0x1234 [] ls
              Hs Hc Hr) as (E1 & E2 & _).
  split; [exact E1 | exact E2].
Defined.

(** The texture page with bit 10 set, on the state of [renderer_init]. *)
Lemma texpage_decode_witness :
  let ls := entry renderer_init [] Sample.pbuffer0 0 in
  let g' := gp1 (l_pvr (do_cmd Gpulib.gput_fill Gpulib.gput_sum ls Sample.set_texpage)) in
  Z.shiftr 0xe1000400 24 = 0xe1
  /\ 0 <= gp1 (l_pvr ls) < 2 ^ 32
  /\ g' mod 2 ^ 11 = 0xe1000400 mod 2 ^ 11
  /\ g' / 2 ^ 11 = gp1 (l_pvr ls) / 2 ^ 11.
Proof.
  intros ls g'.
  assert (Hw : Z.shiftr 0xe1000400 24 = 0xe1) by reflexivity.
  assert (Hg : 0 <= gp1 (l_pvr ls) < 2 ^ 32) by (vm_compute; split; congruence).
  split; [exact Hw|]. split; [exact Hg|].
  destruct (texpage_decode Gpulib.gput_fill Gpulib.gput_sum 0xe1000400 [] [] ls
              Hw Hg) as (E1 & E2 & _).
  split; [exact E1 | exact E2].
Defined.

(** The line from (0,0) to (10,0). *)
Lemma line_within_bounding_box_witness :
  let ls := Sample.loaded Sample.line in
  let pb := pbuffer ls in
  let p := l_pvr ls in
  let xa := int16 (U4 pb 1) in
  let ya := int16 (Z.shiftr (U4 pb 1) 16) in
  let xb := int16 (U4 pb 2) in
  let yb := int16 (Z.shiftr (U4 pb 2) 16) in
  (0x40 = 0x40 \/ 0x40 = 0x50)
  /\ xa < 32767 /\ ya < 32767 /\ xb < 32767 /\ yb < 32767
  /\ exists vs,
       l_ta (dispatch Gpulib.gput_fill Gpulib.gput_sum 0x40 ls)
       = l_ta ls ++ TaHdr :: map TaVertex vs
       /\ forall v, In v vs ->
            x_to_pvr p (Z.min xa xb) <= vx v <= x_to_pvr p (Z.max xa xb + 1)
            /\ y_to_pvr p (Z.min ya yb) <= vy v <= y_to_pvr p (Z.max ya yb + 1).
Proof.
  intros ls pb p xa ya xb yb.
  assert (H : 0x40 = 0x40 \/ 0x40 = 0x50) by (left; reflexivity).
  assert (Hxa : xa < 32767) by reflexivity.
  assert (Hya : ya < 32767) by reflexivity.
  assert (Hxb : xb < 32767) by reflexivity.
  assert (Hyb : yb < 32767) by reflexivity.
  split; [exact H|]. split; [exact Hxa|]. split; [exact Hya|].
  split; [exact Hxb|]. split; [exact Hyb|].
  exact (line_within_bounding_box Gpulib.gput_fill Gpulib.gput_sum 0x40 ls H
           Hxa Hya Hxb Hyb).
Defined.

(** The flat triangle (0,0), (10,0), (0,10). *)
Lemma polygon_vertices_witness :
  let ls := Sample.loaded Sample.triangle in
  let pb := pbuffer ls in
  let p := l_pvr ls in
  (0x20 = 0x20 \/ 0x20 = 0x28 \/ 0x20 = 0x30 \/ 0x20 = 0x38)
  /\ l_ta (dispatch Gpulib.gput_fill Gpulib.gput_sum 0x20 ls)
     = l_ta ls ++ TaHdr :: map TaVertex
         (map (fun k : nat =>
                 {| flags := if (k =? 2)%nat then PVR_CMD_VERTEX_EOL
                             else PVR_CMD_VERTEX;
                    argb := Z.shiftr (bswap32 (U4 pb 0)) 8;
                    vx := x_to_pvr p (int16 (U4 pb (k + 1)));
                    vy := y_to_pvr p (int16 (Z.shiftr (U4 pb (k + 1)) 16)) |})
              (seq 0 3)).
Proof.
  intros ls pb p.
  assert (H : 0x20 = 0x20 \/ 0x20 = 0x28 \/ 0x20 = 0x30 \/ 0x20 = 0x38)
    by (left; reflexivity).
  split; [exact H|].
  exact (polygon_vertices Gpulib.gput_fill Gpulib.gput_sum 0x20 ls H).
Defined.

(** The rectangle at (1,2) of size 3x4. *)
Lemma rectangle_corners_witness :
  let ls := Sample.loaded Sample.rectangle in
  let pb := pbuffer ls in
  let p := l_pvr ls in
  let c := Z.shiftr (bswap32 (U4 pb 0)) 8 in
  let x := int16 (U4 pb 1) in
  let y := int16 (Z.shiftr (U4 pb 1) 16) in
  let w := int16 (U4 pb 2) in
  let h := int16 (Z.shiftr (U4 pb 2) 16) in
  - 2 ^ 15 <= x + w < 2 ^ 15
  /\ - 2 ^ 15 <= y + h < 2 ^ 15
  /\ l_ta (dispatch Gpulib.gput_fill Gpulib.gput_sum 0x60 ls)
     = l_ta ls
       ++ [TaHdr;
           TaVertex (mk_vertex PVR_CMD_VERTEX c (x_to_pvr p x) (y_to_pvr p y));
           TaVertex (mk_vertex PVR_CMD_VERTEX c (x_to_pvr p (x + w)) (y_to_pvr p y));
           TaVertex (mk_vertex PVR_CMD_VERTEX c (x_to_pvr p x) (y_to_pvr p (y + h)));
           TaVertex (mk_vertex PVR_CMD_VERTEX_EOL c (x_to_pvr p (x + w))
                               (y_to_pvr p (y + h)))].
Proof.
  intros ls pb p c x y w h.
  assert (Hx : - 2 ^ 15 <= x + w < 2 ^ 15) by (vm_compute; split; congruence).
  assert (Hy : - 2 ^ 15 <= y + h < 2 ^ 15) by (vm_compute; split; congruence).
  split; [exact Hx|]. split; [exact Hy|].
  exact (rectangle_corners Gpulib.gput_fill Gpulib.gput_sum ls Hx Hy).
Defined.

(** A texture page command and a line cut after its first vertex. *)
Lemma do_cmd_list_any_buffer_witness :
  let buf := Sample.set_texpage ++ Sample.line_head in
  let r := Gpulib.run renderer_init 0 [] Sample.pbuffer0 buf 0 0 in
  Forall is_u32 buf
  /\ exists cmds rest,
       buf = concat cmds ++ rest
       /\ Forall (fun c => is_cmd Gpulib.cmd_lengths c = true) cmds
       /\ (rest = [] \/ is_truncated Gpulib.cmd_lengths rest = true)
       /\ o_ret r = Z.of_nat (length (concat cmds))
       /\ 0 <= o_ret r <= Z.of_nat (length buf)
       /\ (o_last_cmd r = -1 <-> rest <> []).
Proof.
  intros buf r.
  assert (H : Forall is_u32 buf) by (repeat constructor; unfold is_u32; lia).
  split; [exact H|].
  destruct (do_cmd_list_any_buffer Gpulib.cmd_lengths Gpulib.gput_fill
              Gpulib.gput_sum buf renderer_init 0 [] Sample.pbuffer0 0 0 H)
    as (cmds & rest & E1 & E2 & E3 & E4 & E5 & E6 & _).
  exists cmds, rest. repeat split; try assumption; apply E5 || apply E6.
Defined.

(** A triangle, a line, a rectangle and a NOP: 4 + 7 + 5 entries. *)
Lemma entries_submitted_per_opcode_witness :
  let cmds := [Sample.triangle; Sample.line; Sample.rectangle; Sample.nop] in
  let r := Gpulib.run renderer_init 0 [] Sample.pbuffer0 (concat cmds) 0 0 in
  Forall (fun c => is_cmd Gpulib.cmd_lengths c = true) cmds
  /\ length (o_ta r)
     = (length (@nil ta_entry)
        + list_sum (map (fun c => entries_of (opcode c)) cmds))%nat.
Proof.
  intros cmds r.
  assert (H : Forall (fun c => is_cmd Gpulib.cmd_lengths c = true) cmds)
    by (repeat constructor).
  split; [exact H|].
  exact (proj1 (entries_submitted_per_opcode Gpulib.cmd_lengths Gpulib.gput_fill
                  Gpulib.gput_sum cmds renderer_init 0 [] Sample.pbuffer0 0 0 H)).
Defined.

(** From the state of [renderer_init], a fill and an offset command. *)
Lemma state_stays_in_range_witness :
  let buf := Sample.fill ++ [encode_offset (-5) 7] in
  let r := Gpulib.run renderer_init 0 [] Sample.pbuffer0 buf 0 0 in
  pvr_in_range renderer_init
  /\ pvr_in_range (o_pvr r)
  /\ gp1 (o_pvr r) / 2 ^ 11 = gp1 renderer_init / 2 ^ 11.
Proof.
  intros buf r.
  assert (H : pvr_in_range renderer_init)
    by (unfold pvr_in_range, renderer_init; cbn; lia).
  split; [exact H|].
  exact (state_stays_in_range Gpulib.cmd_lengths Gpulib.gput_fill Gpulib.gput_sum
           buf renderer_init 0 [] Sample.pbuffer0 0 0 H).
Defined.

(** A texture page command and a fill, then a line in a second call. *)
Lemma do_cmd_list_in_two_calls_witness :
  let cmds := [Sample.set_texpage; Sample.fill] in
  let r := Gpulib.run renderer_init 0 [] Sample.pbuffer0 (concat cmds) 0 0 in
  let second := Gpulib.run (o_pvr r) (o_ex_regs1 r) (o_ta r) Sample.stale
                  Sample.line (o_cycles_sum_out r) (o_cycles_last r) in
  let whole := Gpulib.run renderer_init 0 [] Sample.pbuffer0
                 (concat cmds ++ Sample.line) 0 0 in
  Forall (fun c => is_cmd Gpulib.cmd_lengths c = true) cmds
  /\ Sample.line <> []
  /\ table_covers Gpulib.cmd_lengths
  /\ gput_sum_carries Gpulib.gput_sum
  /\ o_pvr second = o_pvr whole
  /\ o_ta second = o_ta whole
  /\ o_ex_regs1 second = o_ex_regs1 whole
  /\ o_cycles_sum_out second = o_cycles_sum_out whole
  /\ o_cycles_last second = o_cycles_last whole
  /\ o_last_cmd second = o_last_cmd whole
  /\ o_ret r + o_ret second = o_ret whole.
Proof.
  intros cmds r second whole.
  assert (H : Forall (fun c => is_cmd Gpulib.cmd_lengths c = true) cmds)
    by (repeat constructor).
  assert (Hr : Sample.line <> []) by discriminate.
  split; [exact H|]. split; [exact Hr|].
  split; [exact gpulib_table_covers|]. split; [exact gpulib_gput_sum_carries|].
  exact (do_cmd_list_in_two_calls Gpulib.cmd_lengths Gpulib.gput_fill
           Gpulib.gput_sum cmds Sample.line renderer_init 0 [] Sample.pbuffer0
           Sample.stale 0 0 H Hr gpulib_table_covers gpulib_gput_sum_carries).
Defined.

(** Six saved commands, on the state of [renderer_init]. *)
Lemma renderer_sync_ecmds_restores_state_witness :
  let ecmds := [0; 0xe1000400; 0xe2000000; 0xe3008010; 0xe4043d4f;
                0xe5003ffb; 0xe6000001] in
  let s := renderer_sync_ecmds Gpulib.cmd_lengths Gpulib.gput_fill Gpulib.gput_sum
             renderer_init 0 [] Sample.pbuffer0 0 ecmds in
  (7 <= length ecmds)%nat
  /\ (forall k, 1 <= k <= 6 -> Z.shiftr (nth (Z.to_nat k) ecmds 0) 24 = 0xe0 + k)
  /\ (forall k, 1 <= k <= 6 -> Gpulib.cmd_lengths (0xe0 + k) = 0%nat)
  /\ 0 <= gp1 renderer_init < 2 ^ 32
  /\ snd s = []
  /\ fst (fst (renderer_sync_ecmds Gpulib.cmd_lengths Gpulib.gput_fill
                 Gpulib.gput_sum (fst (fst s)) 7 [TaHdr] Sample.stale 9 ecmds))
     = fst (fst s).
Proof.
  intros ecmds s.
  assert (Hl : (7 <= length ecmds)%nat) by (cbn; lia).
  assert (Hk : forall k, 1 <= k <= 6 ->
                 Z.shiftr (nth (Z.to_nat k) ecmds 0) 24 = 0xe0 + k).
  { intros k H.
    assert (E : k = 1 \/ k = 2 \/ k = 3 \/ k = 4 \/ k = 5 \/ k = 6) by lia.
    destruct E as [E|[E|[E|[E|[E|E]]]]]; rewrite E; reflexivity. }
  assert (Hc : forall k, 1 <= k <= 6 -> Gpulib.cmd_lengths (0xe0 + k) = 0%nat).
  { intros k H.
    assert (E : k = 1 \/ k = 2 \/ k = 3 \/ k = 4 \/ k = 5 \/ k = 6) by lia.
    destruct E as [E|[E|[E|[E|[E|E]]]]]; rewrite E; reflexivity. }
  assert (Hg : 0 <= gp1 renderer_init < 2 ^ 32) by (vm_compute; split; congruence).
  split; [exact Hl|]. split; [exact Hk|]. split; [exact Hc|]. split; [exact Hg|].
  destruct (renderer_sync_ecmds_restores_state Gpulib.cmd_lengths Gpulib.gput_fill
              Gpulib.gput_sum renderer_init 0 [] Sample.pbuffer0 0 ecmds
              7 [TaHdr] Sample.stale 9 Hl Hk Hc Hg) as (E1 & _ & E3).
  split; [exact E1 | exact E3].
Defined.

(** Two fills around a NOP. *)
Lemma cycles_are_conserved_witness :
  let cmds := [Sample.fill; Sample.nop; Sample.fill] in
  let r := Gpulib.run renderer_init 0 [] Sample.pbuffer0 (concat cmds) 5 7 in
  Forall (fun c => is_cmd Gpulib.cmd_lengths c = true) cmds
  /\ (2 <= Gpulib.cmd_lengths 0x02)%nat
  /\ (forall s c n, Gpulib.gput_sum s c n = (int32 (s + c), int32 n))
  /\ int32 (o_cycles_sum_out r + o_cycles_last r)
     = int32 (5 + 7
              + fold_right Z.add 0
                  (map (fun c => if opcode c =? 0x02
                                 then fill_cost Gpulib.gput_fill c else 0)
                       cmds)).
Proof.
  intros cmds r.
  assert (H : Forall (fun c => is_cmd Gpulib.cmd_lengths c = true) cmds)
    by (repeat constructor).
  assert (Hl : (2 <= Gpulib.cmd_lengths 0x02)%nat) by (vm_compute; lia).
  assert (Hs : forall s c n, Gpulib.gput_sum s c n = (int32 (s + c), int32 n))
    by reflexivity.
  split; [exact H|]. split; [exact Hl|]. split; [exact Hs|].
  exact (cycles_are_conserved Gpulib.cmd_lengths Gpulib.gput_fill Gpulib.gput_sum
           cmds renderer_init 0 [] Sample.pbuffer0 5 7 H Hl Hs).
Defined.

(** The bytes 255, 128 and 8. *)
Lemma rgb_24_to_16_fields_witness :
  0 <= 255 < 256 /\ 0 <= 128 < 256 /\ 0 <= 8 < 256
  /\ rgb_24_to_16 255 128 8 = 255 / 8 * 2048 + 128 / 4 * 32 + 8 / 8
  /\ 0 <= rgb_24_to_16 255 128 8 < 65536.
Proof.
  assert (Hr : 0 <= 255 < 256) by lia.
  assert (Hg : 0 <= 128 < 256) by lia.
  assert (Hb : 0 <= 8 < 256) by lia.
  split; [exact Hr|]. split; [exact Hg|]. split; [exact Hb|].
  destruct (rgb_24_to_16_fields 255 128 8 Hr Hg Hb) as (E1 & E2 & _).
  split; [exact E1 | exact E2].
Defined.

(** Bit 3 of the converted word is bit 13 of the source word. *)
Lemma copy15_pixels_swaps_red_and_blue_witness :
  0 <= 3 < 32
  /\ Z.testbit (copy15_pixels 0x7c1f03e0) 3 = Z.testbit 0x7c1f03e0 13
  /\ copy15_pixels (copy15_pixels 0x7c1f03e0) = Z.land 0x7c1f03e0 0x7fff7fff.
Proof.
  assert (H : 0 <= 3 < 32) by lia.
  split; [exact H|].
  exact (copy15_pixels_swaps_red_and_blue 0x7c1f03e0 3 H).
Defined.

(** A 320 by 240 picture in a frame buffer 1024 pixels wide. *)
Lemma copy15_layout_witness :
  let vram32 := fun k : Z => k in
  0 <= 320 < 2 ^ 31
  /\ 0 <= 240 < 2 ^ 31
  /\ - 2 ^ 31 <= 1024 - 320 < 2 ^ 31
  /\ Z.of_nat (length (copy15 vram32 1024 320 240)) = 240 * (8 * ((320 + 15) / 16)).
Proof.
  intros vram32.
  assert (Hw : 0 <= 320 < 2 ^ 31) by lia.
  assert (Hh : 0 <= 240 < 2 ^ 31) by lia.
  assert (Hs : - 2 ^ 31 <= 1024 - 320 < 2 ^ 31) by lia.
  split; [exact Hw|]. split; [exact Hh|]. split; [exact Hs|].
  exact (proj2 (copy15_layout vram32 1024 320 240 Hw Hh Hs)).
Defined.

(** Word 2 of row 1 of the same picture. *)
Lemma copy15_aligned_witness :
  let vram32 := fun k : Z => k in
  0 <= 320 < 2 ^ 31
  /\ 0 <= 240 < 2 ^ 31
  /\ - 2 ^ 31 <= 1024 - 320 < 2 ^ 31
  /\ 320 mod 16 = 0 /\ 1024 mod 2 = 0
  /\ 0 <= 1 < 240 /\ 0 <= 2 < 320 / 2
  /\ In (512 * 1 + 2, copy15_pixels (vram32 (1024 / 2 * 1 + 2)))
        (copy15 vram32 1024 320 240).
Proof.
  intros vram32.
  assert (Hw : 0 <= 320 < 2 ^ 31) by lia.
  assert (Hh : 0 <= 240 < 2 ^ 31) by lia.
  assert (Hs : - 2 ^ 31 <= 1024 - 320 < 2 ^ 31) by lia.
  assert (Hw16 : 320 mod 16 = 0) by reflexivity.
  assert (Hs2 : 1024 mod 2 = 0) by reflexivity.
  assert (Hy : 0 <= 1 < 240) by lia.
  assert (Hk : 0 <= 2 < 320 / 2) by (change (320 / 2) with 160; lia).
  split; [exact Hw|]. split; [exact Hh|]. split; [exact Hs|].
  split; [exact Hw16|]. split; [exact Hs2|]. split; [exact Hy|]. split; [exact Hk|].
  exact (copy15_aligned vram32 1024 320 240 1 2 Hw Hh Hs Hw16 Hs2 Hy Hk).
Defined.

(** A 320 by 240 picture of 24-bit pixels. *)
Lemma copy24_layout_witness :
  let vram32 := fun k : Z => k in
  0 <= 320 * 3 < 2 ^ 31
  /\ 0 <= 240 < 2 ^ 31
  /\ - 2 ^ 31 <= 1024 * 2 < 2 ^ 31
  /\ - 2 ^ 31 <= 1024 * 2 - 320 * 3 < 2 ^ 31
  /\ Z.of_nat (length (copy24 vram32 1024 320 240)) = 240 * (8 * ((320 + 15) / 16)).
Proof.
  intros vram32.
  assert (Hw : 0 <= 320 * 3 < 2 ^ 31) by lia.
  assert (Hh : 0 <= 240 < 2 ^ 31) by lia.
  assert (Hs2 : - 2 ^ 31 <= 1024 * 2 < 2 ^ 31) by lia.
  assert (Hs : - 2 ^ 31 <= 1024 * 2 - 320 * 3 < 2 ^ 31) by lia.
  split; [exact Hw|]. split; [exact Hh|]. split; [exact Hs2|]. split; [exact Hs|].
  exact (proj2 (copy24_layout vram32 1024 320 240 Hw Hh Hs2 Hs)).
Defined.

(** Group 2 of row 1 of the same picture. *)
Lemma copy24_aligned_witness :
  let vram32 := fun k : Z => k in
  let s := 1024 / 2 * 1 + 3 * 2 in
  let ls := copy24_group (vram32 s) (vram32 (s + 1)) (vram32 (s + 2)) in
  0 <= 320 * 3 < 2 ^ 31
  /\ 0 <= 240 < 2 ^ 31
  /\ - 2 ^ 31 <= 1024 * 2 < 2 ^ 31
  /\ - 2 ^ 31 <= 1024 * 2 - 320 * 3 < 2 ^ 31
  /\ 320 mod 16 = 0 /\ 1024 mod 2 = 0
  /\ 0 <= 1 < 240 /\ 0 <= 2 < 320 / 4
  /\ In (512 * 1 + 2 * 2, fst ls) (copy24 vram32 1024 320 240)
  /\ In (512 * 1 + 2 * 2 + 1, snd ls) (copy24 vram32 1024 320 240).
Proof.
  intros vram32 s ls.
  assert (Hw : 0 <= 320 * 3 < 2 ^ 31) by lia.
  assert (Hh : 0 <= 240 < 2 ^ 31) by lia.
  assert (Hs2 : - 2 ^ 31 <= 1024 * 2 < 2 ^ 31) by lia.
  assert (Hs : - 2 ^ 31 <= 1024 * 2 - 320 * 3 < 2 ^ 31) by lia.
  assert (Hw16 : 320 mod 16 = 0) by reflexivity.
  assert (Hst : 1024 mod 2 = 0) by reflexivity.
  assert (Hy : 0 <= 1 < 240) by lia.
  assert (Hg : 0 <= 2 < 320 / 4) by (change (320 / 4) with 80; lia).
  split; [exact Hw|]. split; [exact Hh|]. split; [exact Hs2|]. split; [exact Hs|].
  split; [exact Hw16|]. split; [exact Hst|]. split; [exact Hy|]. split; [exact Hg|].
  exact (copy24_aligned vram32 1024 320 240 1 2 Hw Hh Hs2 Hs Hw16 Hst Hy Hg).
Defined.
